(** * GeminiTask: the persistent store and the date helpers

    A shallow embedding of [database.py] (the SQLite store of contexts,
    projects and tasks) and of the date helpers of [utils.py], together with
    the properties of the specification that concern them.

    A table with an [INTEGER PRIMARY KEY AUTOINCREMENT] column is a finite map
    from row ids to rows plus the high-water mark SQLite keeps in
    [sqlite_sequence]. A column that may hold NULL is an [option]. Every
    function of [database.py] opens its own connection and commits before it
    returns, so each is a function from stores to stores and a result. *)

From Stdlib Require Import ZArith String Ascii List Bool Lia.
From stdpp Require Import base option list gmap sorting pretty strings.

Local Open Scope string_scope.
Local Open Scope list_scope.
Local Open Scope Z_scope.

(** Lexicographic combination of two comparisons. *)
Definition lex (c d : comparison) : comparison :=
  match c with Eq => d | _ => c end.

(** ** SQL values and three-valued logic *)

Module Sql.

(** A comparison with NULL is NULL; [None] is NULL. TEXT values are
    compared byte by byte (the BINARY collation). *)
Definition eq (a b : option string) : option bool :=
  x ← a; y ← b; Some (String.eqb x y).

Definition lt (a b : option string) : option bool :=
  x ← a; y ← b; Some (String.ltb x y).

Definition le (a b : option string) : option bool :=
  x ← a; y ← b; Some (String.leb x y).

Definition and (p q : option bool) : option bool :=
  match p, q with
  | Some false, _ | _, Some false => Some false
  | Some true, Some true => Some true
  | _, _ => None
  end.

(** [x BETWEEN a AND b] is [x >= a AND x <= b]. *)
Definition between (x a b : option string) : option bool :=
  and (le a x) (le x b).

(** The order of [ORDER BY]: NULL sorts before every value. *)
Definition compare (a b : option string) : comparison :=
  match a, b with
  | None, None => Eq
  | None, Some _ => Lt
  | Some _, None => Gt
  | Some x, Some y => String.compare x y
  end.

End Sql.

(** ** Tables *)

Record table (A : Type) := Table {
  rows : gmap Z A;
  seq : Z
}.
Arguments Table {A} _ _.
Arguments rows {A} _.
Arguments seq {A} _.

Definition empty_table {A} : table A := Table ∅ 0.

Definition max_rowid {A} (m : gmap Z A) : Z :=
  foldr Z.max 0 (fst <$> map_to_list m).

(** AUTOINCREMENT: one more than the largest row id the table ever held. *)
Definition next_rowid {A} (t : table A) : Z :=
  Z.max (seq t) (max_rowid (rows t)) + 1.

Definition insert_row {A} (r : A) (t : table A) : Z * table A :=
  let i := next_rowid t in (i, Table (<[i := r]> (rows t)) i).

(** [SELECT * FROM t WHERE name = ?] followed by [fetchone()]; the UNIQUE
    constraint on [name] leaves at most one such row. *)
Definition select_by_name (name : string) (t : table string) : option (Z * string) :=
  snd <$> list_find (λ r, r.2 = name) (map_to_list (rows t)).

Record task_row := TaskRow {
  description : string;
  priority : option string;
  due_date_time : option string;
  context_id : option Z;
  project_id : option Z;
  created_at : string;
  completed : bool
}.

Record store := Store {
  contexts : table string;
  projects : table string;
  tasks : table task_row
}.

Definition init_db : store := Store empty_table empty_table empty_table.

Definition with_contexts (t : table string) (s : store) : store :=
  Store t (projects s) (tasks s).
Definition with_projects (t : table string) (s : store) : store :=
  Store (contexts s) t (tasks s).
Definition with_tasks (t : table task_row) (s : store) : store :=
  Store (contexts s) (projects s) t.

(** The dictionaries the functions return: [{"success": True, ...}] or
    [{"success": False, "error": ...}]. *)
Inductive result (A : Type) :=
  | Success (payload : A)
  | Failure (error : string).
Arguments Success {A} _.
Arguments Failure {A} _.

Definition is_success {A} (r : result A) : bool :=
  match r with Success _ => true | Failure _ => false end.

(** ** Contexts and projects *)

Definition add_context (name : string) (s : store) : store * result (Z * string) :=
  match select_by_name name (contexts s) with
  | Some _ => (s, Failure ("Context '" +:+ name +:+ "' already exists"))
  | None =>
      let '(context_id, t) := insert_row name (contexts s) in
      (with_contexts t s, Success (context_id, name))
  end.

Definition get_context_by_name (name : string) (s : store) : option (Z * string) :=
  select_by_name name (contexts s).

Definition add_project (name : string) (s : store) : store * result (Z * string) :=
  match select_by_name name (projects s) with
  | Some _ => (s, Failure ("Project '" +:+ name +:+ "' already exists"))
  | None =>
      let '(project_id, t) := insert_row name (projects s) in
      (with_projects t s, Success (project_id, name))
  end.

Definition get_project_by_name (name : string) (s : store) : option (Z * string) :=
  select_by_name name (projects s).

(** ** Dates and times ([datetime.datetime]) *)

Record datetime := DateTime {
  year : Z;
  month : Z;
  day : Z;
  hour : Z;
  minute : Z;
  second : Z
}.

Module Datetime.

Definition is_leap (y : Z) : bool :=
  (y mod 4 =? 0) && (negb (y mod 100 =? 0) || (y mod 400 =? 0)).

Definition days_in_month (y m : Z) : Z :=
  if m =? 2 then (if is_leap y then 29 else 28)
  else if (m =? 4) || (m =? 6) || (m =? 9) || (m =? 11) then 30
  else 31.

Definition days_before_year (y : Z) : Z :=
  let y' := y - 1 in y' * 365 + y' / 4 - y' / 100 + y' / 400.

Definition days_before_month_table : list Z :=
  [0; 31; 59; 90; 120; 151; 181; 212; 243; 273; 304; 334].

Definition days_before_month (y m : Z) : Z :=
  nth (Z.to_nat (m - 1)) days_before_month_table 0
  + (if (2 <? m) && is_leap y then 1 else 0).

(** [date.toordinal()]: day 1 is 0001-01-01. *)
Definition toordinal (dt : datetime) : Z :=
  days_before_year (year dt) + days_before_month (year dt) (month dt) + day dt.

(** [date.weekday()]: Monday is 0. *)
Definition weekday (dt : datetime) : Z := (toordinal dt + 6) mod 7.

(** The values a [datetime] object can hold whose year prints with four
    digits. *)
Definition valid (dt : datetime) : Prop :=
  1000 ≤ year dt ≤ 9999 ∧ 1 ≤ month dt ≤ 12 ∧
  1 ≤ day dt ≤ days_in_month (year dt) (month dt) ∧
  0 ≤ hour dt < 24 ∧ 0 ≤ minute dt < 60 ∧ 0 ≤ second dt < 60.

Definition validb (dt : datetime) : bool :=
  (1 <=? year dt) && (year dt <=? 9999) && (1 <=? month dt) && (month dt <=? 12)
  && (1 <=? day dt) && (day dt <=? days_in_month (year dt) (month dt))
  && (0 <=? hour dt) && (hour dt <? 24) && (0 <=? minute dt) && (minute dt <? 60)
  && (0 <=? second dt) && (second dt <? 60).

(** Chronological order. *)
Definition compare (a b : datetime) : comparison :=
  lex (year a ?= year b) (lex (month a ?= month b) (lex (day a ?= day b)
    (lex (hour a ?= hour b) (lex (minute a ?= minute b) (second a ?= second b))))).

Definition digit (d : Z) : ascii := ascii_of_N (Z.to_N (48 + d)).

Definition pad2 (n : Z) : string :=
  String (digit (n / 10)) (String (digit (n mod 10)) "").

Definition pad4 (n : Z) : string :=
  String (digit (n / 1000)) (String (digit (n / 100 mod 10)) (pad2 (n mod 100))).

(** [dt.strftime("%Y-%m-%d %H:%M:%S")] *)
Definition strftime_iso (dt : datetime) : string :=
  pad4 (year dt) +:+ "-" +:+ pad2 (month dt) +:+ "-" +:+ pad2 (day dt) +:+ " "
  +:+ pad2 (hour dt) +:+ ":" +:+ pad2 (minute dt) +:+ ":" +:+ pad2 (second dt).

Definition digit_value (c : ascii) : option Z :=
  let n := Z.of_N (N_of_ascii c) in
  if (48 <=? n) && (n <=? 57) then Some (n - 48) else None.

Definition number2 (a b : ascii) : option Z :=
  x ← digit_value a; y ← digit_value b; Some (10 * x + y).

(** [datetime.strptime(s, "%Y-%m-%d %H:%M:%S")] on the fixed-width layout
    that [strftime_iso] writes; [None] is the [ValueError] raised when the
    text does not match or names no calendar date. A text in that layout is
    read as Python reads it. Python also reads texts outside the layout,
    with a field that is not padded, with another or a longer run of white
    space, or with digits that are not ASCII; those are read here as [None],
    and nothing is stated below of how they are rendered. *)
Definition strptime_iso (s : string) : option datetime :=
  match list_ascii_of_string s with
  | [y1; y2; y3; y4; "-"; m1; m2; "-"; d1; d2; " ";
     h1; h2; ":"; mi1; mi2; ":"; s1; s2]%char =>
      yh ← number2 y1 y2; yl ← number2 y3 y4;
      m ← number2 m1 m2; d ← number2 d1 d2;
      h ← number2 h1 h2; mi ← number2 mi1 mi2; sec ← number2 s1 s2;
      let dt := DateTime (100 * yh + yl) m d h mi sec in
      if validb dt then Some dt else None
  | _ => None
  end.

End Datetime.

(** ** Tasks *)

(** A row of [SELECT t.*, c.name as context_name, p.name as project_name
    FROM tasks t LEFT JOIN contexts c ... LEFT JOIN projects p ...]. *)
Record task := Task {
  task_id : Z;
  columns : task_row;
  context_name : option string;
  project_name : option string
}.

Definition left_join (s : store) (r : Z * task_row) : task :=
  Task r.1 r.2
    (context_id r.2 ≫= λ c, rows (contexts s) !! c)
    (project_id r.2 ≫= λ p, rows (projects s) !! p).

(** [get_task] for a [task_id] that [sqlite3] binds, that is a 64-bit
    integer: the row found, if any. For another Python int the call raises
    [OverflowError]; what is stated of an id that is not stored is stated of
    the ids for which [sqlite_integer] holds. *)
Definition get_task (task_id : Z) (s : store) : option task :=
  (λ r, left_join s (task_id, r)) <$> rows (tasks s) !! task_id.

Definition not_found {A} (task_id : Z) : result A :=
  Failure ("Task with ID " +:+ pretty task_id +:+ " not found").

(** The conjuncts [list_tasks] appends to its WHERE clause. *)
Definition completed_is (b : bool) (t : task) : option bool :=
  Some (Bool.eqb (completed (columns t)) b).
Definition priority_is (p : string) (t : task) : option bool :=
  Sql.eq (priority (columns t)) (Some p).
Definition due_between (range : option string * option string) (t : task) : option bool :=
  Sql.between (due_date_time (columns t)) range.1 range.2.
Definition context_is (name : string) (t : task) : option bool :=
  Sql.eq (context_name t) (Some name).
Definition project_is (name : string) (t : task) : option bool :=
  Sql.eq (project_name t) (Some name).
Definition due_before (now : string) (t : task) : option bool :=
  Sql.lt (due_date_time (columns t)) (Some now).

Definition where_ (query : list (task → option bool)) (t : task) : option bool :=
  foldl (λ acc c, Sql.and acc (c t)) (Some true) query.

(** [ORDER BY t.due_date_time ASC, t.priority DESC, t.id ASC] *)
Definition order_by_compare (a b : task) : comparison :=
  lex (Sql.compare (due_date_time (columns a)) (due_date_time (columns b)))
    (lex (Sql.compare (priority (columns b)) (priority (columns a)))
       (task_id a ?= task_id b)).

Definition order_by (a b : task) : Prop := order_by_compare a b ≠ Gt.

#[global] Instance order_by_dec : RelDecision order_by.
Proof. intros a b. unfold order_by. solve_decision. Defined.

(** Python truth value of an optional string argument. *)
Definition truthy (x : option string) : bool :=
  match x with Some (String _ _) => true | _ => false end.

Definition list_tasks (now : datetime) (all_tasks : bool) (priority : option string)
    (due_range : option (option string * option string))
    (context_name project_name : option string) (overdue completed : bool)
    (s : store) : list task :=
  let query := [] in
  let query :=
    if negb all_tasks && negb completed then query ++ [completed_is false] else query in
  let query := if completed then query ++ [completed_is true] else query in
  let query :=
    match priority with
    | Some (String _ _ as p) => query ++ [priority_is p]
    | _ => query
    end in
  let query :=
    match due_range with
    | Some range => query ++ [due_between range]
    | None => query
    end in
  let query :=
    match context_name with
    | Some (String _ _ as name) => query ++ [context_is name]
    | _ => query
    end in
  let query :=
    match project_name with
    | Some (String _ _ as name) => query ++ [project_is name]
    | _ => query
    end in
  let query :=
    if overdue
    then query ++ [due_before (Datetime.strftime_iso now); completed_is false]
    else query in
  merge_sort order_by
    (filter (λ t, where_ query t = Some true)
       (left_join s <$> map_to_list (rows (tasks s)))).

(** An INTEGER of SQLite is a 64-bit signed integer. *)
Definition sqlite_integer (n : Z) : bool := (- 2 ^ 63 <=? n) && (n <? 2 ^ 63).

(** The text of the [OverflowError] that [sqlite3] raises when it is given
    another Python int as a parameter. *)
Definition overflow_error : string := "Python int too large to convert to SQLite INTEGER".

(** Whether [sqlite3] binds [task_id] as a parameter of a statement on the
    table, rather than raising [OverflowError] before the statement runs.
    The ids of the rows of a table are 64-bit integers; a table of this model
    may hold any id, and an id it holds is taken to bind. *)
Definition binds {A} (task_id : Z) (t : table A) : bool :=
  sqlite_integer task_id || bool_decide (is_Some (rows t !! task_id)).

Definition mark_task_done (task_id : Z) (s : store) : store * result unit :=
  if binds task_id (tasks s) then
    let done r := TaskRow (description r) (priority r) (due_date_time r)
                    (context_id r) (project_id r) (created_at r) true in
    let rowcount := match rows (tasks s) !! task_id with Some _ => 1 | None => 0 end in
    let s := with_tasks (Table (alter done task_id (rows (tasks s))) (seq (tasks s))) s in
    if 0 <? rowcount then (s, Success ()) else (s, not_found task_id)
  else (s, Failure overflow_error).

Definition delete_task (task_id : Z) (s : store) : store * result unit :=
  if binds task_id (tasks s) then
    let rowcount := match rows (tasks s) !! task_id with Some _ => 1 | None => 0 end in
    let s := with_tasks (Table (delete task_id (rows (tasks s))) (seq (tasks s))) s in
    if 0 <? rowcount then (s, Success ()) else (s, not_found task_id)
  else (s, Failure overflow_error).

(** The [column = ?] items [edit_task] collects for its UPDATE. *)
Inductive assignment :=
  | SetDescription (v : string)
  | SetPriority (v : string)
  | SetDueDateTime (v : string)
  | SetContextId (v : option Z)
  | SetProjectId (v : option Z).

Definition assign (r : task_row) (a : assignment) : task_row :=
  match a with
  | SetDescription v =>
      TaskRow v (priority r) (due_date_time r) (context_id r) (project_id r)
        (created_at r) (completed r)
  | SetPriority v =>
      TaskRow (description r) (Some v) (due_date_time r) (context_id r) (project_id r)
        (created_at r) (completed r)
  | SetDueDateTime v =>
      TaskRow (description r) (priority r) (Some v) (context_id r) (project_id r)
        (created_at r) (completed r)
  | SetContextId v =>
      TaskRow (description r) (priority r) (due_date_time r) v (project_id r)
        (created_at r) (completed r)
  | SetProjectId v =>
      TaskRow (description r) (priority r) (due_date_time r) (context_id r) v
        (created_at r) (completed r)
  end.

Definition update_tasks (updates : list assignment) (task_id : Z) (s : store) : store :=
  with_tasks
    (Table (alter (λ r, foldl assign r updates) task_id (rows (tasks s))) (seq (tasks s))) s.

(** [add_task] and [edit_task] look a name up on one connection and create
    the missing row on another, so the two are separate transactions.
    [concurrent] is what other processes commit between such a lookup that
    found nothing and the INSERT that follows; a run with no other process is
    [concurrent = id]. [edit_task] begins with [get_task] and so, like it,
    is modelled for a [task_id] that is a 64-bit integer or stored. *)
Section Interleaving.

Variable concurrent : store → store.

Definition add_task (current_timestamp : string) (description : option string)
    (priority due_date_time context_name project_name : option string)
    (s : store) : store * result (option task) :=
  let '(s, context_id) :=
    match context_name with
    | Some (String _ _ as context_name) =>
        match get_context_by_name context_name s with
        | Some context => (s, Some context.1)
        | None =>
            match add_context context_name (concurrent s) with
            | (s, Success created) => (s, Some created.1)
            | (s, Failure _) => (s, None)
            end
        end
    | _ => (s, None)
    end in
  let '(s, project_id) :=
    match project_name with
    | Some (String _ _ as project_name) =>
        match get_project_by_name project_name s with
        | Some project => (s, Some project.1)
        | None =>
            match add_project project_name (concurrent s) with
            | (s, Success created) => (s, Some created.1)
            | (s, Failure _) => (s, None)
            end
        end
    | _ => (s, None)
    end in
  match description with
  | None => (s, Failure "NOT NULL constraint failed: tasks.description")
  | Some description =>
      let '(task_id, t) :=
        insert_row
          (TaskRow description priority due_date_time context_id project_id
             current_timestamp false)
          (tasks s) in
      let s := with_tasks t s in
      (s, Success (get_task task_id s))
  end.

Definition edit_task (task_id : Z)
    (description priority due_date_time context_name project_name : option string)
    (s : store) : store * result (option task) :=
  match get_task task_id s with
  | None => (s, not_found task_id)
  | Some current_task =>
      let updates := [] in
      let updates :=
        match description with
        | Some v => updates ++ [SetDescription v]
        | None => updates
        end in
      let updates :=
        match priority with
        | Some v => updates ++ [SetPriority v]
        | None => updates
        end in
      let updates :=
        match due_date_time with
        | Some v => updates ++ [SetDueDateTime v]
        | None => updates
        end in
      let context_step :=
        match context_name with
        | None => (s, inl updates)
        | Some "" => (s, inl (updates ++ [SetContextId None]))
        | Some context_name =>
            match get_context_by_name context_name s with
            | Some context => (s, inl (updates ++ [SetContextId (Some context.1)]))
            | None =>
                match add_context context_name (concurrent s) with
                | (s, Success created) =>
                    (s, inl (updates ++ [SetContextId (Some created.1)]))
                | (s, Failure error) => (s, inr error)
                end
            end
        end in
      match context_step with
      | (s, inr error) => (s, Failure error)
      | (s, inl updates) =>
          let project_step :=
            match project_name with
            | None => (s, inl updates)
            | Some "" => (s, inl (updates ++ [SetProjectId None]))
            | Some project_name =>
                match get_project_by_name project_name s with
                | Some project => (s, inl (updates ++ [SetProjectId (Some project.1)]))
                | None =>
                    match add_project project_name (concurrent s) with
                    | (s, Success created) =>
                        (s, inl (updates ++ [SetProjectId (Some created.1)]))
                    | (s, Failure error) => (s, inr error)
                    end
                end
            end in
          match project_step with
          | (s, inr error) => (s, Failure error)
          | (s, inl []) => (s, Failure "No updates provided")
          | (s, inl updates) =>
              let rowcount :=
                match rows (tasks s) !! task_id with Some _ => 1 | None => 0 end in
              let s := update_tasks updates task_id s in
              if 0 <? rowcount then (s, Success (get_task task_id s))
              else (s, not_found task_id)
          end
      end
  end.

End Interleaving.

(** ** Date helpers ([utils.py]) *)

Module Py.

(** [s.lstrip(c)] for a single character [c]. *)
Fixpoint lstrip (c : ascii) (s : string) : string :=
  match s with
  | String c' s' => if Ascii.eqb c c' then lstrip c s' else s
  | EmptyString => s
  end.

(** [s.replace(old, new)] for a non-empty [old]: occurrences are found
    from the left and do not overlap. [skip] counts the characters of the
    occurrence just replaced that are still to be dropped. *)
Fixpoint replace_from (old new : string) (skip : nat) (s : string) : string :=
  match s with
  | EmptyString => EmptyString
  | String c s' =>
      match skip with
      | S k => replace_from old new k s'
      | O =>
          if String.prefix old s
          then new +:+ replace_from old new (Nat.pred (String.length old)) s'
          else String c (replace_from old new O s')
      end
  end.

Definition replace (old new s : string) : string := replace_from old new O s.

Definition is_space (c : ascii) : bool :=
  let n := N_of_ascii c in
  ((9 <=? n) && (n <=? 13) || (28 <=? n) && (n <=? 32))%N.

Fixpoint lstrip_space (s : string) : string :=
  match s with
  | String c s' => if is_space c then lstrip_space s' else s
  | EmptyString => s
  end.

Definition rev_string (s : string) : string :=
  string_of_list_ascii (rev (list_ascii_of_string s)).

(** [s.strip()] of an ASCII text: the white space of ASCII is stripped,
    the bytes of other white space are kept. *)
Definition strip (s : string) : string :=
  rev_string (lstrip_space (rev_string (lstrip_space s))).

End Py.

Module Strftime.
Import Datetime.

(** [%A] and [%b] in the C locale. *)
Definition day_names : list string :=
  ["Monday"; "Tuesday"; "Wednesday"; "Thursday"; "Friday"; "Saturday"; "Sunday"].

Definition month_abbr : list string :=
  ["Jan"; "Feb"; "Mar"; "Apr"; "May"; "Jun"; "Jul"; "Aug"; "Sep"; "Oct"; "Nov"; "Dec"].

Definition A (dt : datetime) : string := nth (Z.to_nat (weekday dt)) day_names "".
Definition b (dt : datetime) : string := nth (Z.to_nat (month dt - 1)) month_abbr "".

(** [%I]: the hour on a 12-hour clock, 01 to 12. *)
Definition I (dt : datetime) : string :=
  pad2 (if hour dt mod 12 =? 0 then 12 else hour dt mod 12).

Definition p (dt : datetime) : string := if hour dt <? 12 then "AM" else "PM".

(** [dt.strftime("%I:%M %p")] *)
Definition clock (dt : datetime) : string :=
  I dt +:+ ":" +:+ pad2 (minute dt) +:+ " " +:+ p dt.

(** [dt.strftime("%b %d, %Y at %I:%M %p")] *)
Definition absolute (dt : datetime) : string :=
  b dt +:+ " " +:+ pad2 (day dt) +:+ ", " +:+ pad4 (year dt) +:+ " at " +:+ clock dt.

End Strftime.

(** The ASCII characters that occur in no text [strptime] reads with
    "%Y-%m-%d %H:%M:%S": all but the digits, "-", ":" and white space. *)
Definition outside_timestamp (c : ascii) : bool :=
  let n := N_of_ascii c in
  (n <? 128)%N
  && negb ((48 <=? n) && (n <=? 57))%N
  && negb (Ascii.eqb c "-") && negb (Ascii.eqb c ":") && negb (Py.is_space c).

(** The fields of [dt] are numbers the layout of [strftime_iso] has room
    for, whether or not they name a date and a time of day. *)
Definition fits_layout (dt : datetime) : Prop :=
  0 ≤ year dt ≤ 9999 ∧ 0 ≤ month dt ≤ 99 ∧ 0 ≤ day dt ≤ 99
  ∧ 0 ≤ hour dt ≤ 99 ∧ 0 ≤ minute dt ≤ 99 ∧ 0 ≤ second dt ≤ 99.

Definition format_relative_date (now : datetime) (date_str : option string) : string :=
  match date_str with
  | Some (String _ _ as date_str) =>
      match Datetime.strptime_iso date_str with
      | None => "Invalid date"
      | Some dt =>
          let days_diff := Datetime.toordinal dt - Datetime.toordinal now in
          let hour_str := Py.lstrip "0" (Strftime.clock dt) in
          if days_diff =? 0 then "Today at " +:+ hour_str
          else if days_diff =? 1 then "Tomorrow at " +:+ hour_str
          else if days_diff =? -1 then "Yesterday at " +:+ hour_str
          else if (1 <? days_diff) && (days_diff <? 7)
          then Strftime.A dt +:+ " at " +:+ hour_str
          else if (-7 <? days_diff) && (days_diff <? 0)
          then pretty (Z.abs days_diff) +:+ " days ago"
          else Py.replace " 0" " " (Py.lstrip "0" (Strftime.absolute dt))
      end
  | _ => "No due date"
  end.

(** [extract_date_time] calls two collaborators: [dateutil.parser.parse] and
    the Gemini client. [parse fuzzy text] is [None] when the parser raises;
    [gemini] is [None] when no API key is configured, and otherwise maps a
    prompt to the text of the response, or to [None] when the call raises. *)
Section DateResolution.

Variable parse : bool → string → option datetime.
Variable gemini : option (string → option string).

Definition nl : string := String (ascii_of_N 10) "".

Definition extract_prompt (natural_language_date : string) : string :=
  nl +:+ "        Extract the exact date and time from the following text. "
  +:+ nl +:+ "        If no time is explicitly mentioned, assume the end of the day (23:59). "
  +:+ nl +:+ "        Return the result in ISO 8601 format (YYYY-MM-DD HH:MM:SS). "
  +:+ nl +:+ "        If no date or time is found, indicate with 'None'."
  +:+ nl +:+ "        "
  +:+ nl +:+ "        Text: '" +:+ natural_language_date +:+ "'"
  +:+ nl +:+ "        ".

Definition extract_date_time (natural_language_date : option string) : option string :=
  match natural_language_date with
  | Some (String _ _ as natural_language_date) =>
      match parse true natural_language_date with
      | Some dt =>
          let dt :=
            if (hour dt =? 0) && (minute dt =? 0) && (second dt =? 0)
            then DateTime (year dt) (month dt) (day dt) 23 59 59
            else dt in
          Some (Datetime.strftime_iso dt)
      | None =>
          generate_content ← gemini;
          response ← generate_content (extract_prompt natural_language_date);
          let response_text := Py.strip response in
          if String.eqb response_text "None" then None
          else Datetime.strftime_iso <$> parse false response_text
      end
  | _ => None
  end.

End DateResolution.

(** A parser for the examples. On the layouts [YYYY-MM-DD],
    [YYYY-MM-DD HH:MM] and [YYYY-MM-DD HH:MM:SS] it returns what
    [dateutil.parser.parse] returns, fields the text leaves out being zero;
    it declines every other text, also those [dateutil] reads. The theorems
    hold of every parser and none is stated of this one. *)
Definition parse_iso (fuzzy : bool) (text : string) : option datetime :=
  match String.length text with
  | 10%nat => Datetime.strptime_iso (text +:+ " 00:00:00")
  | 16%nat => Datetime.strptime_iso (text +:+ ":00")
  | 19%nat => Datetime.strptime_iso text
  | _ => None
  end.

(** On those layouts the text encodes a time of day when it goes on after
    the date. *)
Definition encodes_time (text : string) : bool := (10 <? String.length text)%nat.

(** ** Orders *)

(** A comparison function that behaves as a total order up to the keys it
    looks at. The class is closed under lexicographic combination, reversal
    and composition with a projection, which is how an ORDER BY clause is put
    together. *)
Class Comparator {A : Type} (cmp : A → A → comparison) := {
  cmp_refl a : cmp a a = Eq;
  cmp_antisym a b : cmp b a = CompOpp (cmp a b);
  cmp_lt_trans a b c : cmp a b = Lt → cmp b c = Lt → cmp a c = Lt;
  cmp_eq_compat a b c : cmp a b = Eq → cmp a c = cmp b c
}.
Arguments cmp_refl {A} cmp {_} a.
Arguments cmp_antisym {A} cmp {_} a b.
Arguments cmp_lt_trans {A} cmp {_} a b c _ _.
Arguments cmp_eq_compat {A} cmp {_} a b c _.

(** The order [list_tasks] promises between a row [a] and a later row [b]:
    due dates ascend with NULL first; within one due date a row without a
    priority is followed only by such rows; within one due date and one
    priority the ids ascend. *)
Definition due_ascending_nulls_first (a b : option string) : Prop :=
  match a, b with
  | None, _ => True
  | Some _, None => False
  | Some x, Some y => String.leb x y = true
  end.

Definition listing_order (a b : task) : Prop :=
  due_ascending_nulls_first (due_date_time (columns a)) (due_date_time (columns b))
  ∧ (due_date_time (columns a) = due_date_time (columns b) →
     priority (columns a) = None → priority (columns b) = None)
  ∧ (due_date_time (columns a) = due_date_time (columns b) →
     priority (columns a) = priority (columns b) → task_id a ≤ task_id b).

(** ** Sample stores *)

Definition created : string := "2024-01-01 09:00:00".

(** The three tasks of the ordering example, added in the order of their
    ids to an empty database. *)
Definition ordering_example : store :=
  let s := init_db in
  let s := (add_task id created (Some "first") (Some "low") (Some "2024-02-01") None None s).1 in
  let s := (add_task id created (Some "second") (Some "high") (Some "2024-02-01") None None s).1 in
  (add_task id created (Some "third") (Some "high") None None None s).1.

(** One open and one completed task, the first filed under a context. *)
Definition small_store : store :=
  let s := init_db in
  let s := (add_task id created (Some "write report") (Some "high")
              (Some "2024-02-01 23:59:59") (Some "work") None s).1 in
  let s := (add_task id created (Some "call home") None None None None s).1 in
  (mark_task_done 2 s).1.

(** A CreateContext of the same name committed by another process. *)
Definition racing_create (name : string) (s : store) : store :=
  (add_context name s).1.

(** ** The rest of the store *)

(** [ORDER BY name] *)
Definition name_order (a b : Z * string) : Prop := String.compare a.2 b.2 ≠ Gt.

#[global] Instance name_order_dec : RelDecision name_order.
Proof. intros a b. unfold name_order. solve_decision. Defined.

Definition list_contexts (s : store) : list (Z * string) :=
  merge_sort name_order (map_to_list (rows (contexts s))).

Definition list_projects (s : store) : list (Z * string) :=
  merge_sort name_order (map_to_list (rows (projects s))).

(** What the schema and the functions maintain: names are unique within
    contexts and within projects; a task that names a context or a project
    names a stored one; no row id exceeds the AUTOINCREMENT high-water mark
    of its table. *)
Definition unique_names (t : table string) : Prop :=
  ∀ i j name, rows t !! i = Some name → rows t !! j = Some name → i = j.

Definition ids_within_seq {A} (t : table A) : Prop :=
  ∀ i r, rows t !! i = Some r → i ≤ seq t.

Definition references_stored (s : store) : Prop :=
  ∀ i r, rows (tasks s) !! i = Some r →
    (∀ c, context_id r = Some c → is_Some (rows (contexts s) !! c))
    ∧ (∀ p, project_id r = Some p → is_Some (rows (projects s) !! p)).

Definition consistent (s : store) : Prop :=
  unique_names (contexts s) ∧ unique_names (projects s)
  ∧ ids_within_seq (contexts s) ∧ ids_within_seq (projects s) ∧ ids_within_seq (tasks s)
  ∧ references_stored s.

(** The values an UPDATE of [edit_task] may write so that references stay
    within the stored contexts and projects. *)
Definition assignment_stored (s : store) (a : assignment) : Prop :=
  match a with
  | SetContextId (Some c) => is_Some (rows (contexts s) !! c)
  | SetProjectId (Some p) => is_Some (rows (projects s) !! p)
  | _ => True
  end.

(** ** The configuration file ([config.py]) *)

(** The file [~/.geminitask/config.json] in the three states this model
    has: absent, unreadable (an [IOError] or a [JSONDecodeError]), or
    holding a JSON object whose values are strings, as is every file this
    program writes. A file edited by hand into other valid JSON, not an
    object or an object with a value that is no string, is no state of the
    model: on it the functions below raise or return a value that is no
    string, and nothing is stated of them there. *)
Inductive config_file :=
  | Missing
  | Unreadable
  | Stored (config : gmap string string).

Definition DEFAULT_CONFIG : gmap string string :=
  <["priority_default" := "medium"]>
    (<["api_key" := ""]> (<["date_format" := "%Y-%m-%d %H:%M:%S"]> ∅)).

(** [load_config] returns what [json.load] returns: on the states of the
    model, an object of strings. *)
Definition load_config (file : config_file) : config_file * gmap string string :=
  match file with
  | Missing => (Stored DEFAULT_CONFIG, DEFAULT_CONFIG)
  | Unreadable => (Stored DEFAULT_CONFIG, DEFAULT_CONFIG)
  | Stored config => (file, config)
  end.

Definition save_config (config : gmap string string) (file : config_file) : config_file :=
  Stored config.

(** [environ] is [os.environ.get("GEMINI_API_KEY")]. *)
Definition get_api_key (environ : option string) (file : config_file)
    : config_file * string :=
  match environ with
  | Some (String _ _ as api_key) => (file, api_key)
  | _ =>
      let '(file, config) := load_config file in
      (file, default "" (config !! "api_key"))
  end.

Definition set_api_key (api_key : string) (file : config_file) : config_file * bool :=
  let '(file, config) := load_config file in
  let config := <["api_key" := api_key]> config in
  (save_config config file, true).

Definition get_config_value (key : string) (default : option string) (file : config_file)
    : config_file * option string :=
  let '(file, config) := load_config file in
  (file, match config !! key with Some value => Some value | None => default end).

Definition set_config_value (key value : string) (file : config_file) : config_file * bool :=
  let '(file, config) := load_config file in
  let config := <[key := value]> config in
  (save_config config file, true).

(** [initialize_gemini]: [configure] tells whether [genai.configure]
    returns rather than raises. *)
Definition initialize_gemini (configure : string → bool) (environ : option string)
    (file : config_file) : config_file * bool :=
  let '(file, api_key) := get_api_key environ file in
  match api_key with
  | "" => (file, false)
  | _ => (file, configure api_key)
  end.

(** ** More of [str] *)

Module PyStr.

(** Whether the text is ASCII. On an ASCII text [lower] below and
    [Py.strip] are [str.lower] and [str.strip]; beyond ASCII Python also
    lowers letters and strips white space (U+0085, U+00A0 and more) that are
    left alone here, so what is stated of a text through its lowered and
    stripped form is stated of ASCII texts. *)
Definition is_ascii (s : string) : bool :=
  forallb (λ c, (N_of_ascii c <? 128)%N) (list_ascii_of_string s).

(** [s.lower()] on ASCII text: the letters A to Z are mapped, every other
    byte is kept. *)
Definition lower_char (c : ascii) : ascii :=
  let n := N_of_ascii c in
  if ((65 <=? n) && (n <=? 90))%N then ascii_of_N (n + 32) else c.

Fixpoint lower (s : string) : string :=
  match s with
  | EmptyString => EmptyString
  | String c s' => String (lower_char c) (lower s')
  end.

(** [sep.join(parts)] *)
Fixpoint join (sep : string) (parts : list string) : string :=
  match parts with
  | [] => ""
  | [part] => part
  | part :: rest => part +:+ sep +:+ join sep rest
  end.

Definition dquote : string := String (ascii_of_N 34) "".

End PyStr.

(** ** Suggestions ([utils.py]) *)

(** The client [extract_date_time] and the suggestion functions reach after
    [initialize_gemini] has succeeded; [generate] is
    [model.generate_content(prompt).text], [None] when the call raises. *)
Definition gemini_client (configure : string → bool) (generate : string → option string)
    (environ : option string) (file : config_file) : option (string → option string) :=
  if (initialize_gemini configure environ file).2 then Some generate else None.

Section Suggestions.

Variable parse : bool → string → option datetime.
Variable gemini : option (string → option string).

Definition suggest_due_prompt (task_description : string) : string :=
  nl +:+ "        Based on the following task description, suggest a realistic due date and time in ISO 8601 format (YYYY-MM-DD HH:MM:SS)."
  +:+ nl +:+ "        If no specific timeframe is implied, suggest a reasonable default within the next week."
  +:+ nl +:+ "        Task: '" +:+ task_description +:+ "'"
  +:+ nl +:+ "        ".

Definition suggest_due_date (task_description : string) : option string :=
  generate_content ← gemini;
  response ← generate_content (suggest_due_prompt task_description);
  let response_text := Py.strip response in
  Datetime.strftime_iso <$> parse false response_text.

Definition suggest_context_prompt (task_description : string)
    (previous_contexts : list string) : string :=
  let contexts_str := PyStr.join ", " ((λ c, "'" +:+ c +:+ "'") <$> previous_contexts) in
  nl +:+ "        Based on the task description '" +:+ task_description
  +:+ "' and the following list of previously used contexts: " +:+ contexts_str +:+ ","
  +:+ nl +:+ "        suggest the most relevant context. If none seem relevant, suggest 'general'."
  +:+ nl +:+ "        ".

Definition suggest_context (task_description : string) (previous_contexts : list string)
    : string :=
  match previous_contexts with
  | [] => "general"
  | _ =>
      match gemini with
      | None => "general"
      | Some generate_content =>
          match generate_content (suggest_context_prompt task_description previous_contexts) with
          | None => "general"
          | Some response =>
              let suggested_context := PyStr.lower (Py.strip response) in
              let suggested_context :=
                Py.replace PyStr.dquote "" (Py.replace "'" "" suggested_context) in
              match suggested_context with
              | "" => "general"
              | _ => suggested_context
              end
          end
      end
  end.

End Suggestions.

(** ** Date arithmetic ([datetime.timedelta], [calendar]) *)

Module Calendar.

Definition DI400Y : Z := 146097.
Definition DI100Y : Z := 36524.
Definition DI4Y : Z := 1461.
Definition MAXORDINAL : Z := 3652059.

Definition DAYS_IN_MONTH : list Z := [31; 28; 31; 30; 31; 30; 31; 31; 30; 31; 30; 31].

(** [_ord2ymd]: the year, month and day of an ordinal. The tables of the
    library have a placeholder at index 0; the lists here start at January. *)
Definition ord2ymd (n : Z) : Z * Z * Z :=
  let n := n - 1 in
  let n400 := n / DI400Y in
  let n := n mod DI400Y in
  let year := n400 * 400 + 1 in
  let n100 := n / DI100Y in
  let n := n mod DI100Y in
  let n4 := n / DI4Y in
  let n := n mod DI4Y in
  let n1 := n / 365 in
  let n := n mod 365 in
  let year := year + n100 * 100 + n4 * 4 + n1 in
  if (n1 =? 4) || (n100 =? 4) then (year - 1, 12, 31)
  else
    let leapyear := (n1 =? 3) && (negb (n4 =? 24) || (n100 =? 3)) in
    let month := Z.shiftr (n + 50) 5 in
    let preceding :=
      nth (Z.to_nat (month - 1)) Datetime.days_before_month_table 0
      + (if (2 <? month) && leapyear then 1 else 0) in
    if n <? preceding then
      let month := month - 1 in
      let preceding :=
        preceding
        - (nth (Z.to_nat (month - 1)) DAYS_IN_MONTH 0
           + (if (month =? 2) && leapyear then 1 else 0)) in
      (year, month, n - preceding + 1)
    else (year, month, n - preceding + 1).

(** [dt + timedelta(days=days)]; [None] is the [OverflowError] raised when
    the date leaves the years 1 to 9999. *)
Definition add_days (dt : datetime) (days : Z) : option datetime :=
  let n := Datetime.toordinal dt + days in
  if (1 <=? n) && (n <=? MAXORDINAL) then
    let '(y, m, d) := ord2ymd n in
    Some (DateTime y m d (hour dt) (minute dt) (second dt))
  else None.

(** [dt.replace(hour=0, minute=0, second=0)] and
    [dt.replace(hour=23, minute=59, second=59)] *)
Definition start_of_day (dt : datetime) : datetime :=
  DateTime (year dt) (month dt) (day dt) 0 0 0.
Definition end_of_day (dt : datetime) : datetime :=
  DateTime (year dt) (month dt) (day dt) 23 59 59.

(** [calendar.monthrange(year, month)[1]] *)
Definition monthrange_days (y m : Z) : Z :=
  nth (Z.to_nat (m - 1)) DAYS_IN_MONTH 0
  + (if (m =? 2) && Datetime.is_leap y then 1 else 0).

End Calendar.

(** ** Date ranges ([parse_date_range]) *)

Module PyText.

(** [needle in s] *)
Fixpoint contains (needle s : string) : bool :=
  String.prefix needle s
  || match s with
     | EmptyString => false
     | String _ s' => contains needle s'
     end.

(** [s.split(sep)] for a one-character separator. *)
Fixpoint split (sep : ascii) (s : string) : list string :=
  match s with
  | EmptyString => [""]
  | String c s' =>
      if Ascii.eqb c sep then "" :: split sep s'
      else
        match split sep s' with
        | first :: rest => String c first :: rest
        | [] => [String c ""]
        end
  end.

(** [s.split(sep, 1)[1]] for a one-character separator, when it exists. *)
Fixpoint after_first (sep : ascii) (s : string) : option string :=
  match s with
  | EmptyString => None
  | String c s' => if Ascii.eqb c sep then Some s' else after_first sep s'
  end.

Definition in_chars (chars : string) (c : ascii) : bool :=
  existsb (Ascii.eqb c) (list_ascii_of_string chars).

Fixpoint lstrip_chars (chars s : string) : string :=
  match s with
  | String c s' => if in_chars chars c then lstrip_chars chars s' else s
  | EmptyString => s
  end.

(** [s.strip(chars)] *)
Definition strip_chars (chars s : string) : string :=
  Py.rev_string (lstrip_chars chars (Py.rev_string (lstrip_chars chars s))).

End PyText.

(** What [json.loads] makes of a text: it raises [JSONDecodeError], or
    returns something that is not an object, or an object; the fields of
    interest hold strings or null. *)
Inductive json_document :=
  | JsonDecodeError
  | JsonNotObject
  | JsonObject (fields : gmap string (option string)).

Fixpoint lookup_range {A} (key : string) (table : list (string * A)) : option A :=
  match table with
  | [] => None
  | (k, v) :: table => if String.eqb key k then Some v else lookup_range key table
  end.

(** The table [common_ranges] for the instant [now]; [None] when building
    it raises [OverflowError]. *)
Definition common_ranges (now : datetime) : option (list (string * (datetime * datetime))) :=
  let weekday := Datetime.weekday now in
  tomorrow ← Calendar.add_days now 1;
  yesterday ← Calendar.add_days now (-1);
  week_start ← Calendar.add_days now (- weekday);
  week_end ← Calendar.add_days now (6 - weekday);
  next_week_start ← Calendar.add_days now (7 - weekday);
  next_week_end ← Calendar.add_days now (13 - weekday);
  Some
    [("today", (Calendar.start_of_day now, Calendar.end_of_day now));
     ("tomorrow", (Calendar.start_of_day tomorrow, Calendar.end_of_day tomorrow));
     ("yesterday", (Calendar.start_of_day yesterday, Calendar.end_of_day yesterday));
     ("this week", (Calendar.start_of_day week_start, Calendar.end_of_day week_end));
     ("next week", (Calendar.start_of_day next_week_start, Calendar.end_of_day next_week_end));
     ("this month",
      (DateTime (year now) (month now) 1 0 0 0,
       DateTime (year now) (month now) (Calendar.monthrange_days (year now) (month now))
         23 59 59))].

Section DateRanges.

Variable parse : bool → string → option datetime.
Variable gemini : option (string → option string).
Variable json_loads : string → json_document.

Definition range_prompt (date_range_str : string) : string :=
  nl +:+ "        Parse the following date range expression into start and end dates."
  +:+ nl +:+ "        Return the results as a JSON object with 'start_date' and 'end_date' in ISO 8601 format (YYYY-MM-DD HH:MM:SS)."
  +:+ nl +:+ "        If the range is open-ended, use None for the missing bound."
  +:+ nl +:+ "        "
  +:+ nl +:+ "        Date range: '" +:+ date_range_str +:+ "'"
  +:+ nl +:+ "        ".

(** One bound of the line scan: the text after the first colon of a line
    that mentions [key], stripped; [None] when [parser.parse] raises. *)
Definition scan_bound (key : string) (line : string) (bound : option string)
    : option (option string) :=
  if PyText.contains key (PyStr.lower line) then
    match PyText.after_first ":" line with
    | Some rest =>
        let text :=
          PyText.strip_chars ","
            (PyText.strip_chars (PyStr.dquote +:+ "'") (Py.strip rest)) in
        if String.eqb (PyStr.lower text) "none" then Some bound
        else dt ← parse false text; Some (Some (Datetime.strftime_iso dt))
    | None => Some bound
    end
  else Some bound.

Definition scan_line (bounds : option (option string * option string)) (line : string)
    : option (option string * option string) :=
  '(start_date, end_date) ← bounds;
  start_date ← scan_bound "start_date" line start_date;
  end_date ← scan_bound "end_date" line end_date;
  Some (start_date, end_date).

Definition parse_date_range (now : datetime) (date_range_str : string)
    : option (option string * option string) :=
  common_ranges ← common_ranges now;
  let date_range_str := Py.strip (PyStr.lower date_range_str) in
  match lookup_range date_range_str common_ranges with
  | Some (start_date, end_date) =>
      Some (Some (Datetime.strftime_iso start_date), Some (Datetime.strftime_iso end_date))
  | None =>
      Some
        match gemini with
        | None => (None, None)
        | Some generate_content =>
            match generate_content (range_prompt date_range_str) with
            | None => (None, None)
            | Some response =>
                match json_loads response with
                | JsonObject date_range =>
                    (mjoin (date_range !! "start_date"), mjoin (date_range !! "end_date"))
                | JsonNotObject => (None, None)
                | JsonDecodeError =>
                    let lines := PyText.split (ascii_of_N 10) (Py.strip response) in
                    default (None, None) (foldl scan_line (Some (None, None)) lines)
                end
            end
        end
  end.

End DateRanges.

(** [dt] is a valid date and time, [days] days after [now]. *)
Definition days_after (now : datetime) (days : Z) (dt : datetime) : Prop :=
  Datetime.valid dt ∧ Datetime.toordinal dt = Datetime.toordinal now + days.

(** The names [parse_date_range] resolves without Gemini. *)
Definition range_names : list string :=
  ["today"; "tomorrow"; "yesterday"; "this week"; "next week"; "this month"].

(** A bound is canonical when it is absent or the timestamp of a valid date. *)
Definition canonical_bound (bound : option string) : Prop :=
  ∀ text, bound = Some text → ∃ dt, Datetime.valid dt ∧ text = Datetime.strftime_iso dt.

(** * The command line ([geminitask.py])

    A command reads and writes the configuration file and the database, and
    passes lines of markup and tables to [console.print]. What [rich] makes
    of them on the terminal is not part of the model, nor is what [utils.py]
    writes with [print]. [console.print] is taken to return; [rich] raises
    [MarkupError] on a closing tag that matches no open tag, which the text of
    an option can bring into a line. One command sees one clock reading
    [now]. *)

Module Cli.

Record world := World {
  config_json : config_file;
  db : store
}.

(** A cell [tabulate] is given: [task.get("id")] or a text that may be None. *)
Inductive cell :=
  | Int (n : Z)
  | Str (text : option string).

Inductive printed :=
  | Text (markup : string)
  | RichTable (rows : list (list (option string)))
  | Grid (rows : list (list cell)).

(** Where a command leaves the world, what it has printed, and whether it
    ended by raising: [AttributeError] or [TypeError] on a None, the
    [OverflowError] of the date arithmetic, or that of a task id that is no
    64-bit integer. *)
Record outcome := Outcome {
  after : world;
  console : list printed;
  raised : bool
}.

(** The callback of the --priority options; [None] is [click.BadParameter],
    on which the command does not run. *)
Definition validate_priority (value : option string) : option (option string) :=
  match value with
  | Some (String _ _ as value) =>
      if bool_decide (PyStr.lower value ∈ ["high"; "medium"; "low"])
      then Some (Some (PyStr.lower value))
      else None
  | _ => Some None
  end.

Definition priority_color (priority : string) : string :=
  default "white"
    (lookup_range (PyStr.lower priority)
       [("high", "red"); ("medium", "yellow"); ("low", "green")]).

Section Commands.

Variable concurrent : store → store.
Variable current_timestamp : string.
Variable now : datetime.
Variable environ : option string.
Variable configure : string → bool.
Variable generate : string → option string.
Variable parse : bool → string → option datetime.
Variable json_loads : string → json_document.

Definition check_gemini_api_key (file : config_file) : config_file * list printed * bool :=
  let '(file, api_key) := get_api_key environ file in
  match api_key with
  | "" =>
      (file,
       [Text "[yellow]Warning: Gemini API key not set. AI features will be unavailable.[/yellow]";
        Text "[yellow]Set it with: geminitask config --api-key YOUR_API_KEY[/yellow]"],
       false)
  | _ => (file, [], true)
  end.

(** [format_table_output]; [None] when [task.get("priority", "").lower()]
    meets a priority that is None. *)
Definition format_table_output (tasks : list task) (use_rich : bool) : option printed :=
  match tasks with
  | [] => Some (Text "No tasks found.")
  | _ =>
      if use_rich then
        RichTable <$>
          mapM
            (λ task,
               priority ← priority (columns task);
               let priority_color := priority_color priority in
               let status :=
                 if completed (columns task) then "[green]Completed[/green]" else "Pending" in
               let due_date := format_relative_date now (due_date_time (columns task)) in
               Some
                 [Some (pretty (task_id task));
                  Some (description (columns task));
                  Some ("[" +:+ priority_color +:+ "]" +:+ priority
                        +:+ "[/" +:+ priority_color +:+ "]");
                  Some due_date;
                  context_name task;
                  project_name task;
                  Some status])
            tasks
      else
        Some
          (Grid
             ((λ task,
                 let due_date := format_relative_date now (due_date_time (columns task)) in
                 let status := if completed (columns task) then "Completed" else "Pending" in
                 [Int (task_id task);
                  Str (Some (description (columns task)));
                  Str (priority (columns task));
                  Str (Some due_date);
                  Str (context_name task);
                  Str (project_name task);
                  Str (Some status)]) <$> tasks))
  end.

(** [console.print(format_table_output(tasks))] after the lines [lines]. *)
Definition print_tasks (lines : list printed) (tasks : list task) (w : world) : outcome :=
  match format_table_output tasks true with
  | Some table => Outcome w (lines ++ [table]) false
  | None => Outcome w lines true
  end.

(** [utils.extract_date_time(due)] with what its [initialize_gemini], run
    when the local parser rejects the text, does to the configuration file. *)
Definition resolve_due (due : string) (file : config_file) : config_file * option string :=
  (match parse true due with
   | Some _ => file
   | None => (initialize_gemini configure environ file).1
   end,
   extract_date_time parse (gemini_client configure generate environ file) (Some due)).

(** The --due option of [add] and [edit]; [kept] is what the warning says
    about a date that was not understood. *)
Definition due_option (kept : string) (due : option string) (file : config_file)
    : config_file * list printed * option string :=
  match due with
  | Some (String _ _ as due) =>
      let '(file, lines, has_key) := check_gemini_api_key file in
      if has_key then
        let '(file, due_date_time) := resolve_due due file in
        (file,
         lines ++
           (if truthy due_date_time then []
            else [Text ("[yellow]Warning: Could not parse date '" +:+ due +:+ "'. "
                        +:+ kept +:+ "[/yellow]")]),
         due_date_time)
      else
        (file,
         lines ++ [Text "[yellow]Skipping due date processing. Set Gemini API key for this feature.[/yellow]"],
         None)
  | _ => (file, [], None)
  end.

Definition add (description : string) (priority due context project : option string)
    (w : world) : option outcome :=
  priority ← validate_priority priority;
  let '(file, priority) :=
    if truthy priority then (config_json w, priority)
    else get_config_value "priority_default" (Some "medium") (config_json w) in
  let '(file, lines, due_date_time) := due_option "No due date set." due file in
  let '(s, result) :=
    add_task concurrent current_timestamp (Some description) priority due_date_time
      context project (db w) in
  Some
    match result with
    | Success (Some task) =>
        print_tasks
          (lines ++ [Text ("[green]Task added successfully with ID: "
                           +:+ pretty (task_id task) +:+ "[/green]")])
          [task] (World file s)
    | Success None => Outcome (World file s) lines true
    | Failure error =>
        Outcome (World file s)
          (lines ++ [Text ("[red]Error adding task: " +:+ error +:+ "[/red]")]) false
    end.

(** The command [list]. The warning about the range holds the text of
    --due as it was given. *)
Definition list_ (all : bool) (priority due context project : option string)
    (overdue completed : bool) (w : world) : option outcome :=
  priority ← validate_priority priority;
  let '(file, lines, due_range) :=
    match due with
    | Some (String _ _ as due) =>
        let '(file, lines, has_key) := check_gemini_api_key (config_json w) in
        if has_key then
          match
            parse_date_range parse (gemini_client configure generate environ file)
              json_loads now due
          with
          | Some due_range =>
              (match common_ranges now ≫= lookup_range (Py.strip (PyStr.lower due)) with
               | Some _ => file
               | None => (initialize_gemini configure environ file).1
               end,
               lines ++
                 (if negb (truthy due_range.1) && negb (truthy due_range.2)
                  then [Text ("[yellow]Warning: Could not parse date range '" +:+ due
                              +:+ "'. Showing all dates.[/yellow]")]
                  else []),
               Some (Some due_range))
          | None => (file, lines, None)
          end
        else
          (file,
           lines ++ [Text "[yellow]Skipping date range processing. Set Gemini API key for this feature.[/yellow]"],
           Some None)
    | _ => (config_json w, [], Some None)
    end in
  Some
    match due_range with
    | None => Outcome (World file (db w)) lines true
    | Some due_range =>
        let tasks :=
          list_tasks now all priority due_range context project overdue completed (db w) in
        match tasks with
        | [] =>
            Outcome (World file (db w))
              (lines ++ [Text "No tasks found matching your criteria."]) false
        | _ =>
            print_tasks
              (lines ++ [Text ("Found " +:+ pretty (Z.of_nat (length tasks)) +:+ " tasks:")])
              tasks (World file (db w))
        end
    end.

Definition task_missing (task_id : Z) (w : world) : outcome :=
  Outcome w
    [Text ("[red]Error: Task with ID " +:+ pretty task_id +:+ " not found.[/red]")] false.

(** [db.get_task(task_id)], with which [done], [edit] and [delete] begin,
    raises when [sqlite3] does not bind the id; the command ends there. *)
Definition done (task_id : Z) (w : world) : outcome :=
  if negb (binds task_id (tasks (db w))) then Outcome w [] true else
  match get_task task_id (db w) with
  | None => task_missing task_id w
  | Some task =>
      if completed (columns task) then
        Outcome w
          [Text ("[yellow]Task " +:+ pretty task_id
                 +:+ " is already marked as completed.[/yellow]")] false
      else
        let '(s, result) := mark_task_done task_id (db w) in
        let w := World (config_json w) s in
        match result with
        | Success _ =>
            let lines :=
              [Text ("[green]Task " +:+ pretty task_id +:+ " marked as completed:[/green]")] in
            match get_task task_id s with
            | Some updated_task => print_tasks lines [updated_task] w
            | None => Outcome w lines true
            end
        | Failure error =>
            Outcome w
              [Text ("[red]Error marking task as done: " +:+ error +:+ "[/red]")] false
        end
  end.

Definition edit (task_id : Z) (description priority due context project : option string)
    (w : world) : option outcome :=
  priority ← validate_priority priority;
  Some
    (if negb (binds task_id (tasks (db w))) then Outcome w [] true else
    match get_task task_id (db w) with
    | None => task_missing task_id w
    | Some task =>
        if truthy description || truthy priority || truthy due || truthy context
           || bool_decide (project ≠ None)
        then
          let '(file, lines, due_date_time) :=
            due_option "Keeping existing due date." due (config_json w) in
          let '(s, result) :=
            edit_task concurrent task_id description priority
              (if truthy due then due_date_time else None) context project (db w) in
          let w := World file s in
          match result with
          | Success (Some updated_task) =>
              print_tasks
                (lines ++ [Text ("[green]Task " +:+ pretty task_id
                                 +:+ " updated successfully:[/green]")])
                [updated_task] w
          | Success None =>
              Outcome w
                (lines ++ [Text ("[green]Task " +:+ pretty task_id
                                 +:+ " updated successfully:[/green]")]) true
          | Failure error =>
              Outcome w
                (lines ++ [Text ("[red]Error updating task: " +:+ error +:+ "[/red]")]) false
          end
        else
          print_tasks [Text "[yellow]No changes specified. Task remains unchanged.[/yellow]"]
            [task] w
    end).

(** [confirm] is the answer to [click.confirm]. *)
Definition delete (task_id : Z) (force confirm : bool) (w : world) : outcome :=
  if negb (binds task_id (tasks (db w))) then Outcome w [] true else
  match get_task task_id (db w) with
  | None => task_missing task_id w
  | Some task =>
      match format_table_output [task] true with
      | None => Outcome w [Text "Task to delete:"] true
      | Some table =>
          let lines := [Text "Task to delete:"; table] in
          if negb force && negb confirm then
            Outcome w (lines ++ [Text "[yellow]Deletion cancelled.[/yellow]"]) false
          else
            let '(s, result) := delete_task task_id (db w) in
            let w := World (config_json w) s in
            match result with
            | Success _ =>
                Outcome w
                  (lines ++ [Text ("[green]Task " +:+ pretty task_id
                                   +:+ " deleted successfully.[/green]")]) false
            | Failure error =>
                Outcome w
                  (lines ++ [Text ("[red]Error deleting task: " +:+ error +:+ "[/red]")]) false
            end
      end
  end.

End Commands.

End Cli.

(** No stored task has a NULL priority. *)
Definition priorities_set (s : store) : Prop :=
  ∀ i r, rows (tasks s) !! i = Some r → is_Some (priority r).

(** * Properties *)

(** ** Comparison functions *)

Section ComparatorFacts.

Context {A : Type} (cmp : A → A → comparison) `{!Comparator cmp}.

Lemma cmp_gt_lt a b : cmp a b = Gt ↔ cmp b a = Lt.
Proof. rewrite (cmp_antisym cmp a b). destruct (cmp a b); simpl; split; congruence. Qed.

Lemma cmp_eq_sym a b : cmp a b = Eq → cmp b a = Eq.
Proof. intros H. rewrite (cmp_antisym cmp a b), H. reflexivity. Qed.

Lemma cmp_eq_compat_r a b c : cmp b c = Eq → cmp a b = cmp a c.
Proof.
  intros H. rewrite (cmp_antisym cmp b a), (cmp_antisym cmp c a).
  f_equal. symmetry. apply (cmp_eq_compat cmp), cmp_eq_sym, H.
Qed.

Lemma cmp_le_trans a b c : cmp a b ≠ Gt → cmp b c ≠ Gt → cmp a c ≠ Gt.
Proof.
  intros Hab Hbc Hac.
  destruct (cmp a b) eqn:Eab; [| |done].
  - rewrite (cmp_eq_compat cmp a b c Eab) in Hac. done.
  - destruct (cmp b c) eqn:Ebc; [| |done].
    + rewrite (cmp_eq_compat_r a b c Ebc) in Eab. congruence.
    + rewrite (cmp_lt_trans cmp a b c Eab Ebc) in Hac. done.
Qed.

Lemma cmp_le_total a b : cmp a b ≠ Gt ∨ cmp b a ≠ Gt.
Proof. rewrite (cmp_antisym cmp a b). destruct (cmp a b); simpl; auto. Qed.

(** Reversal, as in [DESC]. *)
Lemma comparator_flip : Comparator (λ a b, cmp b a).
Proof.
  split.
  - intros a. apply (cmp_refl cmp).
  - intros a b. apply (cmp_antisym cmp).
  - intros a b c Hab Hbc. apply (cmp_lt_trans cmp c b a); done.
  - intros a b c Hab. apply cmp_eq_compat_r, cmp_eq_sym, Hab.
Qed.

(** Comparison of a key. *)
Lemma comparator_on {B : Type} (key : B → A) : Comparator (λ a b, cmp (key a) (key b)).
Proof.
  split.
  - intros a. apply (cmp_refl cmp).
  - intros a b. apply (cmp_antisym cmp).
  - intros a b c. apply (cmp_lt_trans cmp).
  - intros a b c. apply (cmp_eq_compat cmp).
Qed.

(** Lexicographic combination, as in [ORDER BY k1, k2]. *)
Lemma comparator_lex (cmp' : A → A → comparison) `{!Comparator cmp'} :
  Comparator (λ a b, lex (cmp a b) (cmp' a b)).
Proof.
  split.
  - intros a. by rewrite (cmp_refl cmp), (cmp_refl cmp').
  - intros a b. rewrite (cmp_antisym cmp a b), (cmp_antisym cmp' a b).
    by destruct (cmp a b).
  - intros a b c. unfold lex.
    destruct (cmp a b) eqn:Eab; [| |done].
    + rewrite (cmp_eq_compat cmp a b c Eab).
      destruct (cmp b c); [|done..]. apply (cmp_lt_trans cmp').
    + destruct (cmp b c) eqn:Ebc; [| |done].
      * rewrite <- (cmp_eq_compat_r a b c Ebc), Eab. done.
      * rewrite (cmp_lt_trans cmp a b c Eab Ebc). done.
  - intros a b c. unfold lex.
    destruct (cmp a b) eqn:Eab; [|done..].
    rewrite (cmp_eq_compat cmp a b c Eab). intros E'.
    by rewrite (cmp_eq_compat cmp' a b c E').
Qed.

End ComparatorFacts.

Lemma ascii_compare_refl c : Ascii.compare c c = Eq.
Proof. apply N.compare_refl. Qed.

Lemma string_compare_refl s : String.compare s s = Eq.
Proof. induction s as [|c s IH]; simpl; [done|]. by rewrite ascii_compare_refl. Qed.

Lemma string_compare_lt_trans a b c :
  String.compare a b = Lt → String.compare b c = Lt → String.compare a c = Lt.
Proof.
  revert b c. induction a as [|x a IH]; intros [|y b] [|z c]; simpl; try done.
  destruct (Ascii.compare x y) eqn:Exy; [| |done].
  - apply Ascii.compare_eq_iff in Exy as ->.
    destruct (Ascii.compare y z); [apply IH|done..].
  - intros _. destruct (Ascii.compare y z) eqn:Eyz; [| |done].
    + apply Ascii.compare_eq_iff in Eyz as <-. by rewrite Exy.
    + intros _. unfold Ascii.compare in *.
      rewrite N.compare_lt_iff in Exy, Eyz.
      assert ((N_of_ascii x ?= N_of_ascii z)%N = Lt) as ->; [|done].
      apply N.compare_lt_iff. lia.
Qed.

#[global] Instance string_comparator : Comparator String.compare.
Proof.
  split.
  - apply string_compare_refl.
  - intros a b. apply String.compare_antisym.
  - apply string_compare_lt_trans.
  - intros a b c H. by apply String.compare_eq_iff in H as ->.
Qed.

#[global] Instance Z_comparator : Comparator Z.compare.
Proof.
  split.
  - apply Z.compare_refl.
  - intros a b. apply Z.compare_antisym.
  - intros a b c. rewrite !Z.compare_lt_iff. lia.
  - intros a b c H. by apply Z.compare_eq in H as ->.
Qed.

#[global] Instance sql_comparator : Comparator Sql.compare.
Proof.
  split.
  - intros [a|]; simpl; [apply string_compare_refl|done].
  - intros [a|] [b|]; simpl; try done. apply String.compare_antisym.
  - intros [a|] [b|] [c|]; simpl; try done. apply string_compare_lt_trans.
  - intros [a|] [b|] [c|]; simpl; try done.
    intros H. by apply String.compare_eq_iff in H as ->.
Qed.

Lemma sql_compare_eq a b : Sql.compare a b = Eq → a = b.
Proof.
  destruct a, b; simpl; try done. intros H. by apply String.compare_eq_iff in H as ->.
Qed.

#[global] Instance order_by_comparator : Comparator order_by_compare.
Proof.
  pose proof (comparator_on Sql.compare (λ t : task, due_date_time (columns t))) as Hdue.
  pose proof (comparator_on Sql.compare (λ t : task, priority (columns t))) as Hprio.
  pose proof (comparator_on Z.compare task_id) as Hid.
  exact (@comparator_lex _ _ Hdue _ (@comparator_lex _ _ (@comparator_flip _ _ Hprio) _ Hid)).
Qed.

#[global] Instance order_by_total : Total order_by.
Proof. intros a b. apply (cmp_le_total order_by_compare). Qed.

#[global] Instance order_by_transitive : Transitive order_by.
Proof. intros a b c. apply (cmp_le_trans order_by_compare). Qed.

(** ** The rows [list_tasks] returns and their order *)

Lemma NoDup_fmap_filter {A B} (f : A → B) (P : A → Prop) `{!∀ x, Decision (P x)} l :
  NoDup (f <$> l) → NoDup (f <$> filter P l).
Proof.
  induction l as [|x l IH]; [done|].
  rewrite fmap_cons, NoDup_cons. intros [Hx Hl].
  rewrite filter_cons. case_decide; [|by apply IH].
  rewrite fmap_cons, NoDup_cons. split; [|by apply IH].
  intros (y & Hxy & Hy)%list_elem_of_fmap. apply Hx.
  apply list_elem_of_fmap. exists y. split; [done|].
  by apply list_elem_of_filter in Hy as [_ ?].
Qed.

Lemma left_join_ids (s : store) (l : list (Z * task_row)) :
  task_id <$> (left_join s <$> l) = l.*1.
Proof. rewrite <- list_fmap_compose. by apply list_fmap_ext. Qed.

Lemma StronglySorted_weaken {A} (R R' : relation A) l :
  (∀ a b, R a b → R' a b) → StronglySorted R l → StronglySorted R' l.
Proof.
  intros HR. induction 1 as [|a l _ IH Hall]; constructor; [done|].
  eapply List.Forall_impl; [|exact Hall]. apply HR.
Qed.

Lemma string_leb_compare x y : String.leb x y = true ↔ String.compare x y ≠ Gt.
Proof. unfold String.leb. destruct (String.compare x y); split; congruence. Qed.

Lemma string_ltb_compare x y : String.ltb x y = true ↔ String.compare x y = Lt.
Proof. unfold String.ltb. destruct (String.compare x y); split; congruence. Qed.

Lemma order_by_listing_order a b : order_by a b → listing_order a b.
Proof.
  unfold order_by, order_by_compare, listing_order, lex.
  destruct (Sql.compare (due_date_time (columns a)) (due_date_time (columns b))) eqn:Edue.
  - intros H. split; [|split].
    + apply sql_compare_eq in Edue as <-.
      destruct (due_date_time (columns a)); simpl; [|done].
      apply string_leb_compare. by rewrite string_compare_refl.
    + intros _ Ha. rewrite Ha in H.
      destruct (priority (columns b)); [by simpl in H|done].
    + intros _ Hp. rewrite Hp, (cmp_refl Sql.compare) in H.
      by apply Z.compare_le_iff.
  - intros _. split; [|split].
    + destruct (due_date_time (columns a)), (due_date_time (columns b)); simpl in *; try done.
      apply string_leb_compare. by rewrite Edue.
    + intros Heq. rewrite Heq, (cmp_refl Sql.compare) in Edue. done.
    + intros Heq. rewrite Heq, (cmp_refl Sql.compare) in Edue. done.
  - done.
Qed.

(** Whatever the filter, the result is the sorted list of the joined rows
    that pass some WHERE clause. *)
Lemma list_tasks_shape now all_tasks priority due_range context_name project_name
    overdue completed s :
  ∃ query,
    list_tasks now all_tasks priority due_range context_name project_name overdue completed s
    = merge_sort order_by
        (filter (λ t, where_ query t = Some true)
           (left_join s <$> map_to_list (rows (tasks s)))).
Proof. unfold list_tasks. eauto. Qed.

Lemma list_tasks_sorted now all_tasks priority due_range context_name project_name
    overdue completed s :
  StronglySorted order_by
    (list_tasks now all_tasks priority due_range context_name project_name overdue completed s).
Proof.
  destruct (list_tasks_shape now all_tasks priority due_range context_name project_name
              overdue completed s) as [query ->].
  apply (StronglySorted_merge_sort order_by).
Qed.

Lemma list_tasks_ids_NoDup now all_tasks priority due_range context_name project_name
    overdue completed s :
  NoDup (task_id <$>
    list_tasks now all_tasks priority due_range context_name project_name overdue completed s).
Proof.
  destruct (list_tasks_shape now all_tasks priority due_range context_name project_name
              overdue completed s) as [query ->].
  rewrite (merge_sort_Permutation order_by).
  apply NoDup_fmap_filter. rewrite left_join_ids. apply NoDup_fst_map_to_list.
Qed.

Lemma sql_and_true p q : Sql.and p q = Some true ↔ p = Some true ∧ q = Some true.
Proof. destruct p as [[]|], q as [[]|]; simpl; split; intros; destruct_and?; done. Qed.

Lemma where_snoc query c t :
  where_ (query ++ [c]) t = Some true ↔ where_ query t = Some true ∧ c t = Some true.
Proof. unfold where_. rewrite foldl_app. simpl. apply sql_and_true. Qed.

Lemma elem_of_select query s t :
  t ∈ merge_sort order_by
        (filter (λ t, where_ query t = Some true)
           (left_join s <$> map_to_list (rows (tasks s))))
  ↔ where_ query t = Some true
    ∧ ∃ r, rows (tasks s) !! task_id t = Some r ∧ t = left_join s (task_id t, r).
Proof.
  rewrite (merge_sort_Permutation order_by), list_elem_of_filter, list_elem_of_fmap.
  apply and_iff_compat_l. split.
  - intros ([i r] & -> & Hr%elem_of_map_to_list). eauto.
  - intros (r & Hr & Ht). exists (task_id t, r). by rewrite elem_of_map_to_list.
Qed.

(** ** Canonical timestamps: text order is chronological order *)

Lemma string_compare_app u u' v v' :
  String.length u = String.length u' →
  String.compare (u +:+ v) (u' +:+ v') = lex (String.compare u u') (String.compare v v').
Proof.
  revert u'. induction u as [|c u IH]; intros [|c' u']; simpl; try done.
  intros [= Hlen]. destruct (Ascii.compare c c'); [by apply IH|done..].
Qed.

Lemma digit_N d : 0 ≤ d ≤ 9 → N_of_ascii (Datetime.digit d) = Z.to_N (48 + d).
Proof. intros Hd. unfold Datetime.digit. apply N_ascii_embedding. lia. Qed.

Lemma digit_compare a b :
  0 ≤ a ≤ 9 → 0 ≤ b ≤ 9 → Ascii.compare (Datetime.digit a) (Datetime.digit b) = (a ?= b).
Proof.
  intros Ha Hb. unfold Ascii.compare. rewrite !digit_N by done.
  rewrite Z2N.inj_compare by lia. apply Z.add_compare_mono_l.
Qed.

Lemma lex_compare_digits base a b a' b' :
  0 ≤ b < base → 0 ≤ b' < base →
  lex (a ?= a') (b ?= b') = (a * base + b ?= a' * base + b').
Proof.
  intros Hb Hb'. symmetry. unfold lex.
  destruct (Z.compare_spec a a') as [->| |]; destruct (Z.compare_spec b b') as [->| |];
    first [apply Z.compare_eq_iff | apply Z.compare_lt_iff | apply Z.compare_gt_iff]; nia.
Qed.

Lemma pad2_length n : String.length (Datetime.pad2 n) = 2%nat.
Proof. done. Qed.

Lemma pad4_length n : String.length (Datetime.pad4 n) = 4%nat.
Proof. done. Qed.

Lemma string_compare_cons c s c' s' :
  String.compare (String c s) (String c' s') = lex (Ascii.compare c c') (String.compare s s').
Proof. simpl. by destruct (Ascii.compare c c'). Qed.

Lemma pad2_compare a b :
  0 ≤ a < 100 → 0 ≤ b < 100 →
  String.compare (Datetime.pad2 a) (Datetime.pad2 b) = (a ?= b).
Proof.
  intros Ha Hb. unfold Datetime.pad2.
  rewrite !string_compare_cons, !digit_compare by (Z.div_mod_to_equations; lia).
  replace (lex (a mod 10 ?= b mod 10) (String.compare "" ""))
    with (a mod 10 ?= b mod 10) by (by destruct (a mod 10 ?= b mod 10)).
  rewrite (lex_compare_digits 10) by (Z.div_mod_to_equations; lia).
  f_equal; Z.div_mod_to_equations; lia.
Qed.

Lemma pad4_compare a b :
  0 ≤ a < 10000 → 0 ≤ b < 10000 →
  String.compare (Datetime.pad4 a) (Datetime.pad4 b) = (a ?= b).
Proof.
  intros Ha Hb. unfold Datetime.pad4.
  rewrite !string_compare_cons, !digit_compare, pad2_compare
    by (Z.div_mod_to_equations; lia).
  rewrite (lex_compare_digits 100), (lex_compare_digits 1000)
    by (Z.div_mod_to_equations; lia).
  f_equal; Z.div_mod_to_equations; lia.
Qed.

Lemma strftime_iso_compare a b :
  Datetime.valid a → Datetime.valid b →
  String.compare (Datetime.strftime_iso a) (Datetime.strftime_iso b) = Datetime.compare a b.
Proof.
  intros (Hy & Hm & Hd & Hh & Hmi & Hs) (Hy' & Hm' & Hd' & Hh' & Hmi' & Hs').
  assert (∀ y m, Datetime.days_in_month y m ≤ 31) as Hdim.
  { intros y m. unfold Datetime.days_in_month. repeat case_match; lia. }
  pose proof (Hdim (year a) (month a)). pose proof (Hdim (year b) (month b)).
  unfold Datetime.strftime_iso, Datetime.compare.
  repeat (rewrite string_compare_app by done; f_equal;
          [first [apply pad4_compare | apply pad2_compare]; lia |
           rewrite (string_compare_app (String _ "") (String _ "")) by done;
           change (lex (String.compare ?x ?x) ?c) with c]).
  apply pad2_compare; lia.
Qed.

(** ** Reading back what [strftime] wrote *)

Lemma digit_value_digit d : 0 ≤ d ≤ 9 → Datetime.digit_value (Datetime.digit d) = Some d.
Proof.
  intros Hd. unfold Datetime.digit_value. rewrite digit_N by done.
  rewrite Z2N.id by lia.
  destruct (Z.leb_spec 48 (48 + d)), (Z.leb_spec (48 + d) 57); simpl; try lia.
  f_equal. lia.
Qed.

Lemma number2_digits n :
  0 ≤ n < 100 →
  Datetime.number2 (Datetime.digit (n / 10)) (Datetime.digit (n mod 10)) = Some n.
Proof.
  intros Hn. unfold Datetime.number2.
  rewrite !digit_value_digit by (Z.div_mod_to_equations; lia). simpl.
  f_equal. Z.div_mod_to_equations; lia.
Qed.

Lemma validb_valid dt : Datetime.valid dt → Datetime.validb dt = true.
Proof.
  intros (Hy & Hm & Hd & Hh & Hmi & Hs). unfold Datetime.validb.
  repeat (apply andb_true_intro; split); first [apply Z.leb_le | apply Z.ltb_lt]; lia.
Qed.

Lemma validb_true_valid dt : Datetime.validb dt = true → 1000 ≤ year dt → Datetime.valid dt.
Proof.
  unfold Datetime.validb, Datetime.valid. rewrite !andb_true_iff.
  rewrite !Z.leb_le, !Z.ltb_lt. lia.
Qed.

Lemma strptime_strftime_iso dt :
  Datetime.valid dt → Datetime.strptime_iso (Datetime.strftime_iso dt) = Some dt.
Proof.
  intros Hv. pose proof Hv as (Hy & Hm & Hd & Hh & Hmi & Hs).
  assert (Datetime.days_in_month (year dt) (month dt) ≤ 31) as Hdim.
  { unfold Datetime.days_in_month. repeat case_match; lia. }
  destruct dt as [y m d h mi sec]; simpl in *.
  unfold Datetime.strptime_iso, Datetime.strftime_iso, Datetime.pad4, Datetime.pad2.
  simpl.
  assert (Datetime.number2 (Datetime.digit (y / 1000)) (Datetime.digit (y / 100 mod 10))
          = Some (y / 100)) as ->.
  { unfold Datetime.number2. rewrite !digit_value_digit by (Z.div_mod_to_equations; lia).
    simpl. f_equal. Z.div_mod_to_equations; lia. }
  rewrite !number2_digits by (Z.div_mod_to_equations; lia). simpl.
  replace (100 * (y / 100) + y mod 100) with y by (Z.div_mod_to_equations; lia).
  by rewrite (validb_valid (DateTime y m d h mi sec)).
Qed.

Lemma strftime_iso_nonempty dt : ∃ c rest, Datetime.strftime_iso dt = String c rest.
Proof. unfold Datetime.strftime_iso, Datetime.pad4. simpl. eauto. Qed.

(** A text in the layout is read as the numbers it shows when they name a
    date and a time of day, and is rejected otherwise. *)
Lemma strptime_layout dt :
  fits_layout dt →
  Datetime.strptime_iso (Datetime.strftime_iso dt)
  = if Datetime.validb dt then Some dt else None.
Proof.
  intros (Hy & Hm & Hd & Hh & Hmi & Hs).
  destruct dt as [y m d h mi sec]; simpl in *.
  unfold Datetime.strptime_iso, Datetime.strftime_iso, Datetime.pad4, Datetime.pad2.
  simpl.
  assert (Datetime.number2 (Datetime.digit (y / 1000)) (Datetime.digit (y / 100 mod 10))
          = Some (y / 100)) as ->.
  { unfold Datetime.number2. rewrite !digit_value_digit by (Z.div_mod_to_equations; lia).
    simpl. f_equal. Z.div_mod_to_equations; lia. }
  rewrite !number2_digits by (Z.div_mod_to_equations; lia). simpl.
  by replace (100 * (y / 100) + y mod 100) with y by (Z.div_mod_to_equations; lia).
Qed.

Lemma digit_value_inside c d :
  Datetime.digit_value c = Some d → outside_timestamp c = false.
Proof.
  unfold Datetime.digit_value, outside_timestamp. intros H.
  destruct ((48 <=? Z.of_N (N_of_ascii c)) && (Z.of_N (N_of_ascii c) <=? 57)) eqn:E; [|done].
  apply andb_true_iff in E as [E1%Z.leb_le E2%Z.leb_le].
  replace ((48 <=? N_of_ascii c)%N && (N_of_ascii c <=? 57)%N) with true.
  - cbn. by rewrite andb_false_r.
  - symmetry. apply andb_true_iff. split; apply N.leb_le; lia.
Qed.

Lemma number2_inside a b n :
  Datetime.number2 a b = Some n → outside_timestamp a = false ∧ outside_timestamp b = false.
Proof.
  unfold Datetime.number2. destruct (Datetime.digit_value a) as [x|] eqn:Ha; [|done].
  destruct (Datetime.digit_value b) as [y|] eqn:Hb; [|done]. intros _.
  split; by eapply digit_value_inside.
Qed.

Ltac literal c H :=
  destruct c as [[] [] [] [] [] [] [] []]; try discriminate H.

(** What [strptime_iso] reads is made of digits, "-", " " and ":". *)
Lemma strptime_iso_inside s dt c :
  Datetime.strptime_iso s = Some dt → c ∈ list_ascii_of_string s →
  outside_timestamp c = false.
Proof.
  unfold Datetime.strptime_iso. generalize (list_ascii_of_string s). intros l H.
  destruct l as [|y1 [|y2 [|y3 [|y4 [|c1 l]]]]]; try discriminate H.
  literal c1 H.
  destruct l as [|m1 [|m2 [|c2 l]]]; try discriminate H.
  literal c2 H.
  destruct l as [|d1 [|d2 [|c3 l]]]; try discriminate H.
  literal c3 H.
  destruct l as [|h1 [|h2 [|c4 l]]]; try discriminate H.
  literal c4 H.
  destruct l as [|mi1 [|mi2 [|c5 l]]]; try discriminate H.
  literal c5 H.
  destruct l as [|s1 [|s2 [|extra l]]]; try discriminate H.
  destruct (Datetime.number2 y1 y2) eqn:Hy12; [|done].
  destruct (Datetime.number2 y3 y4) eqn:Hy34; [|done].
  destruct (Datetime.number2 m1 m2) eqn:Hm12; [|done].
  destruct (Datetime.number2 d1 d2) eqn:Hd12; [|done].
  destruct (Datetime.number2 h1 h2) eqn:Hh12; [|done].
  destruct (Datetime.number2 mi1 mi2) eqn:Hmi12; [|done].
  destruct (Datetime.number2 s1 s2) eqn:Hs12; [|done].
  apply number2_inside in Hy12 as [? ?], Hy34 as [? ?], Hm12 as [? ?], Hd12 as [? ?],
    Hh12 as [? ?], Hmi12 as [? ?], Hs12 as [? ?].
  rewrite !elem_of_cons, elem_of_nil. intros Hin.
  repeat (destruct Hin as [->|Hin]; [done|]). done.
Qed.

(** ** Tables: fresh ids and lookup by name *)

Lemma foldr_max_ge (l : list Z) i : i ∈ l → i ≤ foldr Z.max 0 l.
Proof. induction 1; simpl; lia. Qed.

Lemma max_rowid_ge {A} (m : gmap Z A) i x : m !! i = Some x → i ≤ max_rowid m.
Proof.
  intros H%elem_of_map_to_list. apply foldr_max_ge.
  apply list_elem_of_fmap. by exists (i, x).
Qed.

Lemma next_rowid_fresh {A} (t : table A) : rows t !! next_rowid t = None.
Proof.
  destruct (rows t !! next_rowid t) as [x|] eqn:E; [|done].
  apply max_rowid_ge in E. unfold next_rowid in E. lia.
Qed.

Lemma select_by_name_Some name t r :
  select_by_name name t = Some r → r.2 = name ∧ rows t !! r.1 = Some name.
Proof.
  unfold select_by_name. intros ([k r'] & Hfind & ->)%fmap_Some.
  apply list_find_Some in Hfind as (Hk & Hname & _). split; [done|].
  apply list_elem_of_lookup_2 in Hk. destruct r' as [i n]; simpl in *. subst n.
  by apply elem_of_map_to_list.
Qed.

Lemma select_by_name_None name t i : select_by_name name t = None → rows t !! i ≠ Some name.
Proof.
  unfold select_by_name. rewrite fmap_None, list_find_None, List.Forall_forall.
  intros Hnone Hi. apply (Hnone (i, name)); [|done].
  apply list_elem_of_In. by apply elem_of_map_to_list.
Qed.

Lemma select_by_name_is_Some name t i :
  rows t !! i = Some name → is_Some (select_by_name name t).
Proof.
  intros Hi. destruct (select_by_name name t) eqn:E; [done|].
  by apply (select_by_name_None name t i) in E.
Qed.

Lemma select_by_name_inserted name t :
  select_by_name name t = None →
  select_by_name name (insert_row name t).2 = Some (next_rowid t, name).
Proof.
  intros Hnone. unfold insert_row. cbn [snd].
  destruct (select_by_name_is_Some name (Table (<[next_rowid t:=name]> (rows t)) (next_rowid t))
              (next_rowid t)) as [[i n] Hr]; [apply lookup_insert_eq|].
  rewrite Hr. apply select_by_name_Some in Hr as [Hn Hi]. simpl in *. subst n.
  destruct (decide (next_rowid t = i)) as [->|Hne]; [done|].
  rewrite lookup_insert_ne in Hi by done.
  by apply (select_by_name_None name t i) in Hnone.
Qed.

Lemma store_eta s : Store (contexts s) (projects s) (tasks s) = s.
Proof. by destruct s. Qed.

Lemma table_eta {A} (t : table A) : Table (rows t) (seq t) = t.
Proof. by destruct t. Qed.

(** ** Contexts *)

Lemma add_context_new name s :
  get_context_by_name name s = None →
  add_context name s
  = (with_contexts (insert_row name (contexts s)).2 s,
     Success (next_rowid (contexts s), name)).
Proof. unfold get_context_by_name, add_context. by intros ->. Qed.

Lemma add_context_existing name s :
  is_Some (get_context_by_name name s) →
  add_context name s = (s, Failure ("Context '" +:+ name +:+ "' already exists")).
Proof. unfold get_context_by_name, add_context. by intros [r ->]. Qed.

Lemma add_project_new name s :
  get_project_by_name name s = None →
  add_project name s
  = (with_projects (insert_row name (projects s)).2 s,
     Success (next_rowid (projects s), name)).
Proof. unfold get_project_by_name, add_project. by intros ->. Qed.

(** C6. For a name FindContextByName does not find, CreateContext succeeds
    and FindContextByName then returns the new context under that name; a
    second CreateContext of the name fails with the already-exists error and
    leaves the store as it was. *)
Theorem create_context_then_find name s :
  get_context_by_name name s = None →
  ∃ context_id s1,
    add_context name s = (s1, Success (context_id, name))
    ∧ get_context_by_name name s1 = Some (context_id, name)
    ∧ add_context name s1 = (s1, Failure ("Context '" +:+ name +:+ "' already exists")).
Proof.
  intros Hnew. eexists _, _. split; [by apply add_context_new|].
  assert (get_context_by_name name (with_contexts (insert_row name (contexts s)).2 s)
          = Some (next_rowid (contexts s), name)) as Hfound.
  { by apply select_by_name_inserted. }
  split; [done|]. apply add_context_existing. by rewrite Hfound.
Qed.

Lemma create_context_then_find_witness :
  ∃ context_id s1,
    add_context "work" init_db = (s1, Success (context_id, "work"))
    ∧ get_context_by_name "work" s1 = Some (context_id, "work")
    ∧ add_context "work" s1 = (s1, Failure "Context 'work' already exists").
Proof. apply (create_context_then_find "work" init_db). reflexivity. Defined.

(** ** Marking a task done *)

Lemma get_task_None task_id s : get_task task_id s = None ↔ rows (tasks s) !! task_id = None.
Proof. unfold get_task. apply fmap_None. Qed.

Lemma get_task_Some task_id s t :
  get_task task_id s = Some t ↔
  ∃ r, rows (tasks s) !! task_id = Some r ∧ t = left_join s (task_id, r).
Proof. unfold get_task. rewrite fmap_Some. naive_solver. Qed.

Lemma binds_stored {A} task_id (t : table A) r :
  rows t !! task_id = Some r → binds task_id t = true.
Proof.
  intros Hr. unfold binds. rewrite Hr, bool_decide_true by done. apply orb_true_r.
Qed.

Lemma binds_sqlite_integer {A} task_id (t : table A) :
  sqlite_integer task_id = true → binds task_id t = true.
Proof. intros Hint. unfold binds. by rewrite Hint. Qed.

Lemma binds_missing {A} task_id (t : table A) :
  rows t !! task_id = None → binds task_id t = sqlite_integer task_id.
Proof.
  intros Hr. unfold binds. rewrite Hr, bool_decide_false by (by intros [? ?]).
  apply orb_false_r.
Qed.

Lemma mark_task_done_missing task_id s :
  get_task task_id s = None → sqlite_integer task_id = true →
  mark_task_done task_id s = (s, not_found task_id).
Proof.
  intros Hnone%get_task_None Hint. unfold mark_task_done.
  rewrite (binds_sqlite_integer _ _ Hint), Hnone. simpl.
  rewrite alter_id' by done. unfold with_tasks. by rewrite table_eta, store_eta.
Qed.

Lemma mark_task_done_overflow task_id s :
  get_task task_id s = None → sqlite_integer task_id = false →
  mark_task_done task_id s = (s, Failure overflow_error).
Proof.
  intros Hnone%get_task_None Hint. unfold mark_task_done.
  by rewrite (binds_missing _ _ Hnone), Hint.
Qed.

Lemma mark_task_done_existing task_id s :
  is_Some (get_task task_id s) →
  ∃ s', mark_task_done task_id s = (s', Success ())
        ∧ (completed ∘ columns) <$> get_task task_id s' = Some true
        ∧ (∀ other, other ≠ task_id →
             rows (tasks s') !! other = rows (tasks s) !! other)
        ∧ contexts s' = contexts s ∧ projects s' = projects s.
Proof.
  intros [t (r & Hr & _)%get_task_Some]. unfold mark_task_done.
  rewrite (binds_stored _ _ _ Hr), Hr. simpl.
  eexists. split; [done|]. split; [|split; [|done]].
  - unfold get_task. simpl. by rewrite lookup_alter_eq, Hr.
  - intros other Hne. simpl. by rewrite lookup_alter_ne.
Qed.

Lemma mark_task_done_twice task_id s :
  mark_task_done task_id (mark_task_done task_id s).1
  = ((mark_task_done task_id s).1, (mark_task_done task_id s).2).
Proof.
  unfold mark_task_done, with_tasks.
  destruct (rows (tasks s) !! task_id) as [r|] eqn:Hr.
  - rewrite (binds_stored _ _ _ Hr). cbn.
    rewrite (binds_stored task_id
               (Table (alter _ task_id (rows (tasks s))) (seq (tasks s))) _
               ltac:(cbn; by rewrite lookup_alter_eq, Hr)).
    cbn. rewrite lookup_alter_eq, Hr. cbn. by rewrite alter_alter_eq.
  - rewrite (binds_missing _ _ Hr). destruct (sqlite_integer task_id) eqn:Hint; cbn.
    + rewrite (binds_sqlite_integer _ _ Hint). cbn. rewrite lookup_alter_eq, Hr. cbn.
      rewrite alter_id' by (by apply lookup_alter_None). done.
    + by rewrite (binds_missing _ _ Hr), Hint.
Qed.

(** C5 (amended). For an id that names no stored task and is a 64-bit
    integer, MarkTaskDone fails with the not-found error and changes nothing;
    for one that is no 64-bit integer it changes nothing either and fails
    with the text of the driver's OverflowError. For the id of a stored task,
    completed already or not, it succeeds and the task is completed
    afterwards; repeating the call returns the same result and leaves the
    store as the first call left it. *)
Theorem mark_task_done_spec task_id s :
  (get_task task_id s = None → sqlite_integer task_id = true →
   mark_task_done task_id s = (s, not_found task_id))
  ∧ (get_task task_id s = None → sqlite_integer task_id = false →
     mark_task_done task_id s = (s, Failure overflow_error))
  ∧ (is_Some (get_task task_id s) →
     ∃ s', mark_task_done task_id s = (s', Success ())
           ∧ (completed ∘ columns) <$> get_task task_id s' = Some true
           ∧ mark_task_done task_id s' = (s', Success ())).
Proof.
  split; [apply mark_task_done_missing|]. split; [apply mark_task_done_overflow|].
  intros Hsome. destruct (mark_task_done_existing task_id s Hsome) as (s' & Hrun & Hdone & _).
  exists s'. split; [done|]. split; [done|].
  pose proof (mark_task_done_twice task_id s) as Htwice. by rewrite Hrun in Htwice.
Qed.

Lemma mark_task_done_spec_witness :
  mark_task_done 7 small_store = (small_store, Failure "Task with ID 7 not found")
  ∧ mark_task_done (- 2 ^ 63 - 1) small_store
    = (small_store, Failure "Python int too large to convert to SQLite INTEGER")
  ∧ (∃ s', mark_task_done 1 small_store = (s', Success ())
           ∧ (completed ∘ columns) <$> get_task 1 s' = Some true
           ∧ mark_task_done 1 s' = (s', Success ()))
  ∧ (completed ∘ columns) <$> get_task 2 small_store = Some true
  ∧ (∃ s', mark_task_done 2 small_store = (s', Success ())
           ∧ (completed ∘ columns) <$> get_task 2 s' = Some true
           ∧ mark_task_done 2 s' = (s', Success ())).
Proof.
  split; [|split; [|split; [|split]]].
  - apply (proj1 (mark_task_done_spec 7 small_store)); reflexivity.
  - apply (proj1 (proj2 (mark_task_done_spec (- 2 ^ 63 - 1) small_store))); reflexivity.
  - apply (proj2 (proj2 (mark_task_done_spec 1 small_store))). vm_compute. eauto.
  - reflexivity.
  - apply (proj2 (proj2 (mark_task_done_spec 2 small_store))). vm_compute. eauto.
Defined.

(** C5 (counterexample). No task has the id 2^63, and MarkTaskDone of it
    does not fail with the not-found error: the driver refuses the id before
    the UPDATE runs, and the text of its error is what is returned. *)
Lemma mark_task_done_beyond_sqlite :
  get_task (2 ^ 63) small_store = None
  ∧ mark_task_done (2 ^ 63) small_store
    = (small_store, Failure "Python int too large to convert to SQLite INTEGER")
  ∧ mark_task_done (2 ^ 63) small_store ≠ (small_store, not_found (2 ^ 63)).
Proof.
  split; [reflexivity|]. split; [reflexivity|]. vm_compute. discriminate.
Qed.

(** ** Editing a task *)

Lemma add_context_tasks name s : tasks (add_context name s).1 = tasks s.
Proof. unfold add_context. by destruct (select_by_name name (contexts s)). Qed.

Lemma add_project_tasks name s : tasks (add_project name s).1 = tasks s.
Proof. unfold add_project. by destruct (select_by_name name (projects s)). Qed.

Lemma update_tasks_lookup updates task_id s j :
  rows (tasks (update_tasks updates task_id s)) !! j
  = if decide (task_id = j) then (λ r, foldl assign r updates) <$> rows (tasks s) !! task_id
    else rows (tasks s) !! j.
Proof. unfold update_tasks. simpl. apply lookup_alter. Qed.

Lemma update_tasks_missing updates task_id s :
  rows (tasks s) !! task_id = None → tasks (update_tasks updates task_id s) = tasks s.
Proof.
  intros H. unfold update_tasks. simpl. rewrite alter_id' by done. apply table_eta.
Qed.

(** Case analysis on one of the two name arguments of [edit_task]: absent,
    empty, known, or unknown and then created or refused. *)
Ltac name_cases arg lookup create create_tasks :=
  destruct arg as [[|? ?]|];
  [ | match goal with
      | |- context [lookup ?n ?s0] =>
          destruct (lookup n s0) as [?|] eqn:?;
          [| let H := fresh "Htasks" in
             pose proof (create_tasks n s0) as H;
             destruct (create n s0) as [? [?|?]] eqn:?; cbn [fst] in H ]
      end
    | ];
  cbn [app].

Lemma edit_task_effect task_id d p due cn pn s s' res :
  edit_task id task_id d p due cn pn s = (s', res) →
  (∀ e, res = Failure e → tasks s' = tasks s)
  ∧ (∀ payload, res = Success payload →
       payload = get_task task_id s'
       ∧ ∃ r r', rows (tasks s) !! task_id = Some r
           ∧ rows (tasks s') !! task_id = Some r'
           ∧ description r' = default (description r) d
           ∧ priority r' = match p with Some _ => p | None => priority r end
           ∧ due_date_time r' = match due with Some _ => due | None => due_date_time r end
           ∧ (cn = None → context_id r' = context_id r)
           ∧ (cn = Some "" → context_id r' = None)
           ∧ (pn = None → project_id r' = project_id r)
           ∧ (pn = Some "" → project_id r' = None)
           ∧ created_at r' = created_at r ∧ completed r' = completed r)
  ∧ (∀ j, j ≠ task_id → rows (tasks s') !! j = rows (tasks s) !! j).
Proof.
  unfold edit_task, id. destruct (get_task task_id s) as [t|] eqn:Hget.
  2: { intros [= <- <-]. unfold not_found. split; [done|]. split; done. }
  apply get_task_Some in Hget as (r & Hr & _).
  destruct d, p, due; cbn [app];
  name_cases cn get_context_by_name add_context add_context_tasks;
  try (intros [= <- <-]; split; [congruence|]; split; [done|congruence]);
  name_cases pn get_project_by_name add_project add_project_tasks;
  try (intros [= <- <-]; split; [congruence|]; split; [done|congruence]).
  all: repeat match goal with H : tasks _ = tasks _ |- _ => rewrite H end.
  all: rewrite ?Hr; cbn [Z.ltb Z.compare]; intros [= <- <-].
  all: (split; [intros ?; try done|]; split;
    [intros ? [= <-]; split; [done|]; eexists r, _;
     rewrite update_tasks_lookup, decide_True by done;
     repeat match goal with H : tasks _ = tasks _ |- _ => rewrite H end;
     rewrite Hr; cbn; repeat split; congruence
    |intros j Hj; try done; rewrite update_tasks_lookup, decide_False by done;
     repeat match goal with H : tasks _ = tasks _ |- _ => rewrite H end; done]).
Qed.

(** The same case analysis for a run without other processes, where an
    unknown name is always created. *)
Ltac name_cases_alone arg lookup create_new :=
  destruct arg as [[|? ?]|];
  [ | match goal with
      | |- context [lookup ?n ?s0] =>
          let E := fresh "Hlookup" in
          destruct (lookup n s0) as [?|] eqn:E; [|rewrite (create_new n s0 E)]
      end
    | ];
  cbn [app].

Lemma edit_task_succeeds task_id d p due cn pn s :
  is_Some (get_task task_id s) →
  is_Some d ∨ is_Some p ∨ is_Some due ∨ is_Some cn ∨ is_Some pn →
  is_success (edit_task id task_id d p due cn pn s).2 = true.
Proof.
  intros [t Hget] Hsupplied. unfold edit_task, id. rewrite Hget.
  apply get_task_Some in Hget as (r & Hr & _).
  destruct d, p, due; cbn [app];
    name_cases_alone cn get_context_by_name add_context_new;
    name_cases_alone pn get_project_by_name add_project_new;
    cbn; rewrite ?Hr; try done.
  destruct Hsupplied as [[? [=]]|[[? [=]]|[[? [=]]|[[? [=]]|[? [=]]]]]].
Qed.

(** C4. In a run of EditTask on a stored task, with no other process at
    work: an empty context name makes the call succeed and sets the task's
    context_id to NULL, an absent context name leaves context_id as it was,
    and likewise for the project; every column whose argument is absent keeps
    its value, as do created_at and completed; every other task keeps its
    row. *)
Theorem edit_task_partial_update task_id d p due cn pn s r :
  rows (tasks s) !! task_id = Some r →
  ∃ r', rows (tasks (edit_task id task_id d p due cn pn s).1) !! task_id = Some r'
    ∧ (cn = Some "" →
       is_success (edit_task id task_id d p due cn pn s).2 = true ∧ context_id r' = None)
    ∧ (cn = None → context_id r' = context_id r)
    ∧ (pn = Some "" →
       is_success (edit_task id task_id d p due cn pn s).2 = true ∧ project_id r' = None)
    ∧ (pn = None → project_id r' = project_id r)
    ∧ (d = None → description r' = description r)
    ∧ (p = None → priority r' = priority r)
    ∧ (due = None → due_date_time r' = due_date_time r)
    ∧ created_at r' = created_at r
    ∧ completed r' = completed r
    ∧ (∀ j, j ≠ task_id →
         rows (tasks (edit_task id task_id d p due cn pn s).1) !! j = rows (tasks s) !! j).
Proof.
  intros Hr.
  assert (is_Some (get_task task_id s)) as Hstored.
  { unfold get_task. rewrite Hr. by eexists. }
  pose proof (edit_task_succeeds task_id d p due cn pn s Hstored) as Hok.
  destruct (edit_task id task_id d p due cn pn s) as [s' res] eqn:Hrun.
  destruct (edit_task_effect _ _ _ _ _ _ _ _ _ Hrun) as (Hfail & Hsucc & Hother).
  cbn [fst snd] in *. destruct res as [payload|e].
  - destruct (Hsucc payload eq_refl)
      as (_ & r0 & r' & Hr0 & Hr' & Hd & Hp & Hdue & Hc & Hc' & Hpr & Hpr' & Hcr & Hco).
    assert (r0 = r) as -> by congruence.
    exists r'. repeat split; auto; try (intros ->; repeat split; auto).
  - rewrite (Hfail e eq_refl). exists r.
    assert (cn ≠ Some "" ∧ pn ≠ Some "") as [Hcn Hpn].
    { split; intros ->; discriminate Hok; eauto 6. }
    repeat split; auto; done.
Qed.

Lemma edit_task_partial_update_witness :
  ∃ r', rows (tasks (edit_task id 1 None None None (Some "") None small_store).1) !! 1 = Some r'
    ∧ context_id r' = None
    ∧ project_id r' = None
    ∧ description r' = "write report"
    ∧ priority r' = Some "high"
    ∧ due_date_time r' = Some "2024-02-01 23:59:59"
    ∧ completed r' = false
    ∧ rows (tasks (edit_task id 1 None None None (Some "") None small_store).1) !! 2
      = rows (tasks small_store) !! 2.
Proof.
  destruct (edit_task_partial_update 1 None None None (Some "") None small_store
              (TaskRow "write report" (Some "high") (Some "2024-02-01 23:59:59")
                 (Some 1) None created false) eq_refl)
    as (r' & Hr' & Hc & _ & _ & Hp & Hd & Hprio & Hdue & _ & Hco & Hother).
  exists r'. split; [exact Hr'|].
  split; [exact (proj2 (Hc eq_refl))|].
  split; [exact (Hp eq_refl)|].
  split; [exact (Hd eq_refl)|].
  split; [exact (Hprio eq_refl)|].
  split; [exact (Hdue eq_refl)|].
  split; [exact Hco|].
  apply Hother. lia.
Defined.

(** C9. EditTask on a stored task with nothing but an empty context name
    (or nothing but an empty project name) is not refused for want of
    updates: it succeeds, returns the task, and the task's context_id (or
    project_id) is NULL afterwards. This holds whatever other processes do. *)
Theorem edit_task_clear_only concurrent task_id s :
  is_Some (get_task task_id s) →
  (∃ s' t', edit_task concurrent task_id None None None (Some "") None s
            = (s', Success (Some t'))
            ∧ get_task task_id s' = Some t' ∧ context_id (columns t') = None)
  ∧ (∃ s' t', edit_task concurrent task_id None None None None (Some "") s
              = (s', Success (Some t'))
              ∧ get_task task_id s' = Some t' ∧ project_id (columns t') = None).
Proof.
  intros [t Hget]. unfold edit_task. rewrite Hget.
  apply get_task_Some in Hget as (r & Hr & _). cbn [app]. rewrite Hr. cbn [Z.ltb Z.compare].
  split; eexists _, _.
  - assert (get_task task_id (update_tasks [SetContextId None] task_id s)
            = Some (left_join (update_tasks [SetContextId None] task_id s)
                      (task_id, foldl assign r [SetContextId None]))) as Hnew.
    { unfold get_task. rewrite update_tasks_lookup, decide_True, Hr by done. done. }
    rewrite Hnew. done.
  - assert (get_task task_id (update_tasks [SetProjectId None] task_id s)
            = Some (left_join (update_tasks [SetProjectId None] task_id s)
                      (task_id, foldl assign r [SetProjectId None]))) as Hnew.
    { unfold get_task. rewrite update_tasks_lookup, decide_True, Hr by done. done. }
    rewrite Hnew. done.
Qed.

Lemma edit_task_clear_only_witness :
  (∃ s' t', edit_task id 1 None None None (Some "") None small_store
            = (s', Success (Some t'))
            ∧ get_task 1 s' = Some t' ∧ context_id (columns t') = None)
  ∧ (∃ s' t', edit_task id 1 None None None None (Some "") small_store
              = (s', Success (Some t'))
              ∧ get_task 1 s' = Some t' ∧ project_id (columns t') = None).
Proof. apply (edit_task_clear_only id 1 small_store). vm_compute. eauto. Defined.

(** ** Adding a task *)

Lemma add_project_contexts name s : contexts (add_project name s).1 = contexts s.
Proof. unfold add_project. by destruct (select_by_name name (projects s)). Qed.

Lemma add_context_projects name s : projects (add_context name s).1 = projects s.
Proof. unfold add_context. by destruct (select_by_name name (contexts s)). Qed.

Lemma get_task_inserted r s :
  let s' := with_tasks (Table (<[next_rowid (tasks s) := r]> (rows (tasks s)))
                          (next_rowid (tasks s))) s in
  get_task (next_rowid (tasks s)) s' = Some (left_join s' (next_rowid (tasks s), r)).
Proof. unfold get_task. cbn. by rewrite lookup_insert_eq. Qed.

(** C10. An empty context name (or project name) is to AddTask what an
    absent one is: the two calls are the same function of the store; no
    context (or project) is created and the table of contexts (or projects)
    stays as it was; the new task has no context_id (or project_id). *)
Theorem add_task_empty_name_is_absent concurrent ts d p due s :
  (∀ pn, add_task concurrent ts d p due (Some "") pn s
         = add_task concurrent ts d p due None pn s)
  ∧ (∀ cn, add_task concurrent ts d p due cn (Some "") s
           = add_task concurrent ts d p due cn None s)
  ∧ (∀ pn, contexts (add_task id ts d p due (Some "") pn s).1 = contexts s)
  ∧ (∀ cn, projects (add_task id ts d p due cn (Some "") s).1 = projects s)
  ∧ (∀ pn text, ∃ t,
       (add_task concurrent ts (Some text) p due (Some "") pn s).2 = Success (Some t)
       ∧ context_id (columns t) = None ∧ context_name t = None)
  ∧ (∀ cn text, ∃ t,
       (add_task concurrent ts (Some text) p due cn (Some "") s).2 = Success (Some t)
       ∧ project_id (columns t) = None ∧ project_name t = None).
Proof.
  split; [done|]. split; [done|]. split; [|split; [|split]].
  - intros pn. unfold add_task, id.
    destruct pn as [[|c pn]|]; [by destruct d| |by destruct d].
    destruct (get_project_by_name (String c pn) s) as [found|]; [by destruct d|].
    pose proof (add_project_contexts (String c pn) s) as Hsame.
    destruct (add_project (String c pn) s) as [s2 [made|e]]; by destruct d.
  - intros cn. unfold add_task, id.
    destruct cn as [[|c cn]|]; [by destruct d| |by destruct d].
    destruct (get_context_by_name (String c cn) s) as [found|]; [by destruct d|].
    pose proof (add_context_projects (String c cn) s) as Hsame.
    destruct (add_context (String c cn) s) as [s2 [made|e]]; by destruct d.
  - intros pn text. unfold add_task.
    destruct (match pn with Some (String _ _ as n) => _ | _ => _ end) as [s2 c'].
    unfold insert_row. rewrite get_task_inserted. by eexists.
  - intros cn text. unfold add_task.
    destruct (match cn with Some (String _ _ as n) => _ | _ => _ end) as [s2 c'].
    unfold insert_row. rewrite get_task_inserted. by eexists.
Qed.

Lemma racing_create_refuses name s :
  get_context_by_name name s = None →
  add_context name (racing_create name s)
  = (racing_create name s, Failure ("Context '" +:+ name +:+ "' already exists")).
Proof.
  intros Hnew. unfold racing_create. rewrite (add_context_new name s Hnew). cbn [fst].
  apply add_context_existing. unfold get_context_by_name. cbn [contexts with_contexts].
  rewrite select_by_name_inserted by done. by eexists.
Qed.

(** C3 (what the code does). When the context [add_task] failed to find is
    created by another process before [add_task] creates it, the creation is
    refused, and [add_task] nevertheless inserts the task and reports success:
    the task has no context although a context of that name is stored. *)
Theorem add_task_swallows_refused_creation ts text p due c name s :
  get_context_by_name (String c name) s = None →
  ∃ s' t,
    add_task (racing_create (String c name)) ts (Some text) p due
      (Some (String c name)) None s = (s', Success (Some t))
    ∧ context_id (columns t) = None
    ∧ context_name t = None
    ∧ is_Some (get_context_by_name (String c name) s').
Proof.
  intros Hnew. unfold add_task. rewrite Hnew, (racing_create_refuses _ _ Hnew).
  unfold insert_row. rewrite get_task_inserted. eexists _, _. split; [done|].
  split; [done|]. split; [done|].
  unfold racing_create. rewrite (add_context_new _ _ Hnew).
  unfold get_context_by_name. cbn [contexts with_contexts with_tasks fst].
  rewrite select_by_name_inserted by done. by eexists.
Qed.

Lemma add_task_swallows_refused_creation_witness :
  ∃ s' t,
    add_task (racing_create "work") created (Some "write report") (Some "high") None
      (Some "work") None init_db = (s', Success (Some t))
    ∧ context_id (columns t) = None
    ∧ context_name t = None
    ∧ is_Some (get_context_by_name "work" s').
Proof.
  apply (add_task_swallows_refused_creation created "write report" (Some "high") None
           "w" "ork" init_db).
  reflexivity.
Defined.

(** In the same situation [edit_task] returns the refusal to its caller and
    leaves the task as it was. *)
Lemma edit_task_reports_refused_creation task_id c name s :
  is_Some (get_task task_id s) →
  get_context_by_name (String c name) s = None →
  edit_task (racing_create (String c name)) task_id None None None
    (Some (String c name)) None s
  = (racing_create (String c name) s,
     Failure ("Context '" +:+ String c name +:+ "' already exists")).
Proof.
  intros [t Hget] Hnew. unfold edit_task.
  by rewrite Hget, Hnew, (racing_create_refuses _ _ Hnew).
Qed.

(** ** Resolving a date *)

Lemma extract_date_time_local parse gemini c text dt :
  parse true (String c text) = Some dt →
  extract_date_time parse gemini (Some (String c text))
  = Some (Datetime.strftime_iso
            (if (hour dt =? 0) && (minute dt =? 0) && (second dt =? 0)
             then DateTime (year dt) (month dt) (day dt) 23 59 59
             else dt)).
Proof. intros H. unfold extract_date_time. by rewrite H. Qed.

(** C2 (what the code does). Whenever the local parser returns a time of
    day of 00:00:00, [extract_date_time] writes 23:59:59 in its place; the
    text is not consulted, so a midnight the text spells out is replaced as
    well. *)
Theorem extract_date_time_replaces_every_midnight parse gemini c text dt :
  parse true (String c text) = Some dt →
  hour dt = 0 → minute dt = 0 → second dt = 0 →
  extract_date_time parse gemini (Some (String c text))
  = Some (Datetime.strftime_iso (DateTime (year dt) (month dt) (day dt) 23 59 59)).
Proof.
  intros H Hh Hm Hs. rewrite (extract_date_time_local _ _ _ _ _ H).
  by rewrite Hh, Hm, Hs.
Qed.

Lemma extract_date_time_replaces_every_midnight_witness :
  encodes_time "2025-03-01 00:00" = true
  ∧ parse_iso true "2025-03-01 00:00" = Some (DateTime 2025 3 1 0 0 0)
  ∧ extract_date_time parse_iso None (Some "2025-03-01 00:00") = Some "2025-03-01 23:59:59".
Proof.
  split; [reflexivity|]. split; [reflexivity|].
  apply (extract_date_time_replaces_every_midnight parse_iso None "2" "025-03-01 00:00"
           (DateTime 2025 3 1 0 0 0)); reflexivity.
Defined.

(** The two examples of the specification. *)
Example extract_date_time_date_only gemini :
  extract_date_time parse_iso gemini (Some "2025-03-01") = Some "2025-03-01 23:59:59".
Proof. reflexivity. Qed.

Example extract_date_time_explicit_time gemini :
  extract_date_time parse_iso gemini (Some "2025-03-01 14:30") = Some "2025-03-01 14:30:00".
Proof. reflexivity. Qed.

(** A time of day other than midnight is kept. *)
Lemma extract_date_time_keeps_other_times parse gemini c text dt :
  parse true (String c text) = Some dt →
  hour dt ≠ 0 ∨ minute dt ≠ 0 ∨ second dt ≠ 0 →
  extract_date_time parse gemini (Some (String c text)) = Some (Datetime.strftime_iso dt).
Proof.
  intros H Hne. rewrite (extract_date_time_local _ _ _ _ _ H).
  destruct (Z.eqb_spec (hour dt) 0), (Z.eqb_spec (minute dt) 0), (Z.eqb_spec (second dt) 0);
    simpl; try done.
  lia.
Qed.

(** ** Relative dates *)

Lemma day_name_listed dt : Strftime.A dt ∈ Strftime.day_names.
Proof.
  unfold Strftime.A, Datetime.weekday.
  pose proof (Z.mod_pos_bound (Datetime.toordinal dt + 6) 7 eq_refl) as Hw.
  remember (Z.to_nat ((Datetime.toordinal dt + 6) mod 7)) as n eqn:Hn.
  assert (n < 7)%nat as Hlt by lia. clear Hn Hw.
  do 7 (destruct n as [|n]; [simpl; set_solver|]). lia.
Qed.

Lemma format_relative_date_parsed now dt :
  Datetime.valid dt →
  format_relative_date now (Some (Datetime.strftime_iso dt))
  = let days_diff := Datetime.toordinal dt - Datetime.toordinal now in
    let hour_str := Py.lstrip "0" (Strftime.clock dt) in
    if days_diff =? 0 then "Today at " +:+ hour_str
    else if days_diff =? 1 then "Tomorrow at " +:+ hour_str
    else if days_diff =? -1 then "Yesterday at " +:+ hour_str
    else if (1 <? days_diff) && (days_diff <? 7)
    then Strftime.A dt +:+ " at " +:+ hour_str
    else if (-7 <? days_diff) && (days_diff <? 0)
    then pretty (Z.abs days_diff) +:+ " days ago"
    else Py.replace " 0" " " (Py.lstrip "0" (Strftime.absolute dt)).
Proof.
  intros Hv. unfold format_relative_date.
  destruct (strftime_iso_nonempty dt) as (c & rest & E). rewrite E, <- E.
  by rewrite strptime_strftime_iso.
Qed.


Lemma february_2024_valid d h mi :
  1 ≤ d ≤ 29 → 0 ≤ h < 24 → 0 ≤ mi < 60 → Datetime.valid (DateTime 2024 2 d h mi 0).
Proof.
  intros Hd Hh Hmi. unfold Datetime.valid. cbn [year month day hour minute second].
  replace (Datetime.days_in_month 2024 2) with 29 by reflexivity. lia.
Qed.



(** ** The order of a listing *)

(** C1 (amended). Whatever is stored and whatever the filter, ListTasks
    returns its rows by due_date_time ascending with NULL due dates first;
    among rows of one due date a row without priority comes after every row
    that has one; among rows of one due date and one priority the ids ascend,
    and no id occurs twice. For the three tasks of the example the row with
    id 3, which has no due date, comes first. *)
Theorem list_tasks_listing_order :
  (∀ now all_tasks prio due_range cname pname overdue completed_only s,
     StronglySorted listing_order
       (list_tasks now all_tasks prio due_range cname pname overdue completed_only s)
     ∧ NoDup (task_id <$>
         list_tasks now all_tasks prio due_range cname pname overdue completed_only s))
  ∧ (∀ now, task_id <$> head (list_tasks now false None None None None false false
                                 ordering_example) = Some 3).
Proof.
  split.
  - intros. split; [|apply list_tasks_ids_NoDup].
    eapply StronglySorted_weaken; [apply order_by_listing_order|apply list_tasks_sorted].
  - intros now. vm_compute. reflexivity.
Qed.

(** C1 (counterexample). The three tasks of the example, stored with ids 1,
    2 and 3, are listed in the order 3, 1, 2 and not in the order 2, 1, 3. *)
Lemma list_tasks_example_order :
  (λ t, (due_date_time (columns t), priority (columns t))) <$> get_task 1 ordering_example
  = Some (Some "2024-02-01", Some "low")
  ∧ (λ t, (due_date_time (columns t), priority (columns t))) <$> get_task 2 ordering_example
    = Some (Some "2024-02-01", Some "high")
  ∧ (λ t, (due_date_time (columns t), priority (columns t))) <$> get_task 3 ordering_example
    = Some (None, Some "high")
  ∧ task_id <$> list_tasks (DateTime 2024 1 15 10 0 0) false None None None None false false
                  ordering_example = [3; 1; 2]
  ∧ task_id <$> list_tasks (DateTime 2024 1 15 10 0 0) false None None None None false false
                  ordering_example ≠ [2; 1; 3].
Proof.
  split; [reflexivity|]. split; [reflexivity|]. split; [reflexivity|].
  split; [vm_compute; reflexivity|]. vm_compute. discriminate.
Qed.

(** ** Overdue tasks *)

Lemma overdue_listing_iff now all_tasks prio due_range cname pname completed_only s t :
  t ∈ list_tasks now all_tasks prio due_range cname pname true completed_only s
  ↔ t ∈ list_tasks now all_tasks prio due_range cname pname false completed_only s
    ∧ due_before (Datetime.strftime_iso now) t = Some true
    ∧ completed_is false t = Some true.
Proof.
  unfold list_tasks. cbv zeta.
  match goal with
  | |- context [where_ (?q ++ [due_before _; completed_is false])] => generalize q
  end.
  intros query. rewrite !elem_of_select.
  change (query ++ [due_before (Datetime.strftime_iso now); completed_is false])
    with (query ++ [due_before (Datetime.strftime_iso now)] ++ [completed_is false]).
  rewrite app_assoc, !where_snoc. tauto.
Qed.

Lemma due_before_true now t :
  due_before now t = Some true
  ↔ ∃ due, due_date_time (columns t) = Some due ∧ String.ltb due now = true.
Proof.
  unfold due_before, Sql.lt. destruct (due_date_time (columns t)) as [due|]; simpl.
  - split; [intros [= H]; eauto|]. by intros (? & [= <-] & ->).
  - split; [done|]. by intros (? & [=] & _).
Qed.

Lemma completed_is_false_true t :
  completed_is false t = Some true ↔ completed (columns t) = false.
Proof. unfold completed_is. destruct (completed (columns t)); simpl; split; congruence. Qed.

Lemma sql_eq_true x p : Sql.eq x (Some p) = Some true ↔ x = Some p.
Proof.
  unfold Sql.eq. destruct x as [y|]; simpl; [|done].
  split; [intros [= H%String.eqb_eq]; by subst|intros [= ->]; by rewrite String.eqb_refl].
Qed.

Lemma sql_between_true x lo hi :
  Sql.between x lo hi = Some true
  ↔ ∃ a d b, lo = Some a ∧ x = Some d ∧ hi = Some b
             ∧ String.leb a d = true ∧ String.leb d b = true.
Proof.
  unfold Sql.between. rewrite sql_and_true. unfold Sql.le.
  destruct x as [d|], lo as [a|], hi as [b|]; simpl; split;
    try (intros [[=] [=]]; eauto 10; fail);
    try (intros (? & ? & ? & [=] & [=] & [=] & ? & ?); subst; by split; f_equal);
    try (intros [[=] [=]]; fail); try (intros [? ?]; done).
Qed.

Lemma list_tasks_filters now all_tasks prio due_range cname pname overdue completed_only s t :
  t ∈ list_tasks now all_tasks prio due_range cname pname overdue completed_only s →
  (all_tasks = false → completed_only = false → completed (columns t) = false)
  ∧ (completed_only = true → completed (columns t) = true)
  ∧ (∀ c p, prio = Some (String c p) → priority (columns t) = Some (String c p))
  ∧ (∀ lo hi, due_range = Some (lo, hi) →
       ∃ a d b, lo = Some a ∧ due_date_time (columns t) = Some d ∧ hi = Some b
                ∧ String.leb a d = true ∧ String.leb d b = true)
  ∧ (∀ c n, cname = Some (String c n) → context_name t = Some (String c n))
  ∧ (∀ c n, pname = Some (String c n) → project_name t = Some (String c n))
  ∧ ∃ r, rows (tasks s) !! task_id t = Some r ∧ t = left_join s (task_id t, r).
Proof.
  unfold list_tasks. cbv zeta. intros H.
  destruct all_tasks, completed_only, prio as [[|? ?]|], due_range as [[lo hi]|],
    cname as [[|? ?]|], pname as [[|? ?]|], overdue;
    cbn [negb andb app] in H; apply elem_of_select in H as [Hw Hrow];
    unfold where_ in Hw; cbn [foldl] in Hw; rewrite ?sql_and_true in Hw; destruct_and?;
    repeat match goal with
    | H : completed_is _ _ = Some true |- _ =>
        unfold completed_is in H; apply (inj Some) in H; apply Bool.eqb_prop in H
    | H : priority_is _ _ = Some true |- _ => apply sql_eq_true in H
    | H : context_is _ _ = Some true |- _ => apply sql_eq_true in H
    | H : project_is _ _ = Some true |- _ => apply sql_eq_true in H
    | H : due_between _ _ = Some true |- _ => apply sql_between_true in H
    end;
    (repeat split; [ intros; simplify_eq; first [done | congruence | eauto] .. | done]).
Qed.

(** C7. With overdue_only set, every row ListTasks returns has a due
    timestamp, one that sorts strictly before the timestamp of the query, and
    is not completed; a due timestamp in the canonical layout is then
    chronologically before the instant of the query. The row also passes
    every other filter that is set: it is a row the same call without
    overdue_only returns, of the priority, due range, context and project
    asked for. *)
Theorem list_tasks_overdue now all_tasks prio due_range cname pname completed_only s t :
  t ∈ list_tasks now all_tasks prio due_range cname pname true completed_only s →
  (∃ due, due_date_time (columns t) = Some due
          ∧ String.ltb due (Datetime.strftime_iso now) = true
          ∧ (∀ dt, Datetime.valid dt → Datetime.valid now →
               due = Datetime.strftime_iso dt → Datetime.compare dt now = Lt))
  ∧ completed (columns t) = false
  ∧ t ∈ list_tasks now all_tasks prio due_range cname pname false completed_only s
  ∧ (∀ c p, prio = Some (String c p) → priority (columns t) = Some (String c p))
  ∧ (∀ lo hi, due_range = Some (lo, hi) →
       ∃ a d b, lo = Some a ∧ due_date_time (columns t) = Some d ∧ hi = Some b
                ∧ String.leb a d = true ∧ String.leb d b = true)
  ∧ (∀ c n, cname = Some (String c n) → context_name t = Some (String c n))
  ∧ (∀ c n, pname = Some (String c n) → project_name t = Some (String c n)).
Proof.
  intros Hin. pose proof (list_tasks_filters _ _ _ _ _ _ _ _ _ _ Hin)
    as (_ & _ & Hprio & Hrange & Hc & Hp & _).
  apply overdue_listing_iff in Hin
    as (Hrest & (due & Hdue & Hlt)%due_before_true & Hopen%completed_is_false_true).
  split; [|done]. exists due. split; [done|]. split; [done|].
  intros dt Hdt Hnow ->. rewrite <- strftime_iso_compare by done.
  by apply string_ltb_compare.
Qed.

Lemma list_tasks_overdue_witness :
  ∃ t, task_id t = 1
    ∧ (∃ due, due_date_time (columns t) = Some due
              ∧ String.ltb due "2024-03-01 08:00:00" = true
              ∧ Datetime.compare (DateTime 2024 2 1 23 59 59) (DateTime 2024 3 1 8 0 0) = Lt)
    ∧ completed (columns t) = false
    ∧ context_name t = Some "work".
Proof.
  pose (t := left_join small_store
               (1, TaskRow "write report" (Some "high") (Some "2024-02-01 23:59:59")
                     (Some 1) None created false)).
  assert (t ∈ list_tasks (DateTime 2024 3 1 8 0 0) true (Some "high") None (Some "work") None
                true false small_store) as Hin.
  { vm_compute. apply list_elem_of_here. }
  destruct (list_tasks_overdue _ _ _ _ _ _ _ _ _ Hin)
    as ((due & Hdue & Hlt & Hchrono) & Hopen & _ & _ & _ & Hc & _).
  exists t. split; [reflexivity|]. split; [|split; [exact Hopen|exact (Hc "w"%char "ork" eq_refl)]].
  exists due. split; [exact Hdue|]. split; [exact Hlt|].
  apply Hchrono.
  - apply validb_true_valid; [reflexivity|cbn; lia].
  - apply validb_true_valid; [reflexivity|cbn; lia].
  - vm_compute in Hdue. by injection Hdue as <-.
Defined.

(** * Further properties of the store *)

Lemma insert_row_lookup {A} (r : A) (t : table A) i :
  rows (insert_row r t).2 !! i
  = if decide (next_rowid t = i) then Some r else rows t !! i.
Proof. unfold insert_row. cbn. apply lookup_insert. Qed.

Lemma next_rowid_above_seq {A} (t : table A) : seq t < next_rowid t.
Proof. unfold next_rowid. lia. Qed.

Lemma insert_row_ids_within_seq {A} (r : A) (t : table A) :
  ids_within_seq t → ids_within_seq (insert_row r t).2.
Proof.
  intros Hwf i x. rewrite insert_row_lookup. unfold insert_row. cbn [snd seq].
  case_decide as Hi; [lia|]. intros Hx%Hwf. pose proof (next_rowid_above_seq t). lia.
Qed.

Lemma insert_row_unique_names name t :
  select_by_name name t = None → unique_names t → unique_names (insert_row name t).2.
Proof.
  intros Hnew Huniq i j n. rewrite !insert_row_lookup.
  repeat case_decide; subst.
  - done.
  - intros [= <-] Hj. by apply (select_by_name_None name t j) in Hnew.
  - intros Hi [= <-]. by apply (select_by_name_None name t i) in Hnew.
  - apply Huniq.
Qed.

(** ** The invariants of the store *)

Lemma consistent_init_db : consistent init_db.
Proof.
  unfold consistent, unique_names, ids_within_seq, references_stored, init_db. cbn.
  repeat split; intros; by rewrite ?lookup_empty in *.
Qed.

Lemma add_context_facts name s :
  consistent s →
  consistent (add_context name s).1
  ∧ tasks (add_context name s).1 = tasks s
  ∧ projects (add_context name s).1 = projects s
  ∧ (∀ i x, rows (contexts s) !! i = Some x →
       rows (contexts (add_context name s).1) !! i = Some x)
  ∧ (∀ c, (add_context name s).2 = Success c →
       rows (contexts (add_context name s).1) !! c.1 = Some name).
Proof.
  intros Hs. pose proof Hs as (Hc & Hp & Hsc & Hsp & Hst & Href).
  destruct (get_context_by_name name s) as [found|] eqn:Hfind.
  { rewrite add_context_existing by (by eexists). cbn [fst snd].
    split; [done|]. repeat split; done. }
  rewrite (add_context_new name s Hfind). cbn [fst snd]. unfold get_context_by_name in Hfind.
  pose proof (next_rowid_fresh (contexts s)) as Hfresh.
  assert (∀ i x, rows (contexts s) !! i = Some x →
            rows (insert_row name (contexts s)).2 !! i = Some x) as Hkeep.
  { intros i x Hi. rewrite insert_row_lookup. case_decide; [congruence|done]. }
  split; [|split; [done|split; [done|split; [exact Hkeep|]]]].
  - unfold consistent. cbn [contexts projects tasks with_contexts].
    split; [by apply insert_row_unique_names|]. split; [done|].
    split; [by apply insert_row_ids_within_seq|]. split; [done|]. split; [done|].
    intros i r Hi. destruct (Href i r Hi) as [Hrc Hrp]. split; [|done].
    intros c [x Hx]%Hrc. eauto.
  - intros c [= <-]. cbn [fst contexts projects with_contexts with_projects].
    rewrite insert_row_lookup. by rewrite decide_True.
Qed.

Lemma add_project_facts name s :
  consistent s →
  consistent (add_project name s).1
  ∧ tasks (add_project name s).1 = tasks s
  ∧ contexts (add_project name s).1 = contexts s
  ∧ (∀ i x, rows (projects s) !! i = Some x →
       rows (projects (add_project name s).1) !! i = Some x)
  ∧ (∀ c, (add_project name s).2 = Success c →
       rows (projects (add_project name s).1) !! c.1 = Some name).
Proof.
  intros Hs. pose proof Hs as (Hc & Hp & Hsc & Hsp & Hst & Href).
  destruct (get_project_by_name name s) as [found|] eqn:Hfind.
  { unfold add_project, get_project_by_name in *. rewrite Hfind. cbn [fst snd].
    split; [done|]. repeat split; done. }
  rewrite (add_project_new name s Hfind). cbn [fst snd]. unfold get_project_by_name in Hfind.
  pose proof (next_rowid_fresh (projects s)) as Hfresh.
  assert (∀ i x, rows (projects s) !! i = Some x →
            rows (insert_row name (projects s)).2 !! i = Some x) as Hkeep.
  { intros i x Hi. rewrite insert_row_lookup. case_decide; [congruence|done]. }
  split; [|split; [done|split; [done|split; [exact Hkeep|]]]].
  - unfold consistent. cbn [contexts projects tasks with_projects].
    split; [done|]. split; [by apply insert_row_unique_names|].
    split; [done|]. split; [by apply insert_row_ids_within_seq|]. split; [done|].
    intros i r Hi. destruct (Href i r Hi) as [Hrc Hrp]. split; [done|].
    intros c [x Hx]%Hrp. eauto.
  - intros c [= <-]. cbn [fst contexts projects with_contexts with_projects].
    rewrite insert_row_lookup. by rewrite decide_True.
Qed.

Lemma get_context_by_name_stored name s found :
  get_context_by_name name s = Some found → rows (contexts s) !! found.1 = Some name.
Proof. intros H. by apply select_by_name_Some in H as [_ ?]. Qed.

Lemma get_project_by_name_stored name s found :
  get_project_by_name name s = Some found → rows (projects s) !! found.1 = Some name.
Proof. intros H. by apply select_by_name_Some in H as [_ ?]. Qed.

Lemma assign_references s r a :
  assignment_stored s a →
  ((∀ c, context_id r = Some c → is_Some (rows (contexts s) !! c))
   ∧ (∀ p, project_id r = Some p → is_Some (rows (projects s) !! p))) →
  (∀ c, context_id (assign r a) = Some c → is_Some (rows (contexts s) !! c))
  ∧ (∀ p, project_id (assign r a) = Some p → is_Some (rows (projects s) !! p)).
Proof.
  intros Ha [Hc Hp]. destruct a as [v|v|v|[c|]|[p|]]; cbn in *; split; try done.
  - by intros ? [= <-].
  - by intros ? [= <-].
Qed.

Lemma foldl_assign_references s updates r :
  Forall (assignment_stored s) updates →
  ((∀ c, context_id r = Some c → is_Some (rows (contexts s) !! c))
   ∧ (∀ p, project_id r = Some p → is_Some (rows (projects s) !! p))) →
  (∀ c, context_id (foldl assign r updates) = Some c → is_Some (rows (contexts s) !! c))
  ∧ (∀ p, project_id (foldl assign r updates) = Some p → is_Some (rows (projects s) !! p)).
Proof.
  intros Hall. revert r. induction Hall as [|a updates Ha _ IH]; intros r Hr; [done|].
  cbn [foldl]. apply IH. by apply assign_references.
Qed.

Lemma alter_tasks_consistent (f : task_row → task_row) task_id s :
  consistent s →
  (∀ r, rows (tasks s) !! task_id = Some r →
     (∀ c, context_id (f r) = Some c → is_Some (rows (contexts s) !! c))
     ∧ (∀ p, project_id (f r) = Some p → is_Some (rows (projects s) !! p))) →
  consistent (with_tasks (Table (alter f task_id (rows (tasks s))) (seq (tasks s))) s).
Proof.
  intros (Hc & Hp & Hsc & Hsp & Hst & Href) Hf.
  unfold consistent, ids_within_seq, references_stored in *.
  cbn [contexts projects tasks with_tasks rows seq].
  split; [done|]. split; [done|]. split; [done|]. split; [done|]. split.
  - intros i r [(-> & x & Hx & ->)|[_ Hr]]%lookup_alter_Some; eauto.
  - intros i r [(-> & x & Hx & ->)|[_ Hr]]%lookup_alter_Some; eauto.
Qed.

Lemma update_tasks_consistent updates task_id s :
  consistent s → Forall (assignment_stored s) updates →
  consistent (update_tasks updates task_id s).
Proof.
  intros Hs Hall. apply alter_tasks_consistent; [done|].
  intros r Hr. apply foldl_assign_references; [done|].
  destruct Hs as (_ & _ & _ & _ & _ & Href). by apply (Href task_id).
Qed.

Lemma mark_task_done_consistent task_id s :
  consistent s → consistent (mark_task_done task_id s).1.
Proof.
  intros Hs. unfold mark_task_done. destruct (binds task_id (tasks s)); [|done].
  destruct (rows (tasks s) !! task_id) as [r|] eqn:Hr; cbn [fst Z.ltb Z.compare];
    apply alter_tasks_consistent; try done; intros r' Hr'; cbn;
    destruct Hs as (_ & _ & _ & _ & _ & Href); by apply (Href task_id).
Qed.

Lemma delete_task_consistent task_id s :
  consistent s → consistent (delete_task task_id s).1.
Proof.
  intros (Hc & Hp & Hsc & Hsp & Hst & Href). unfold delete_task.
  destruct (binds task_id (tasks s)); [|done].
  assert (consistent (with_tasks (Table (delete task_id (rows (tasks s))) (seq (tasks s))) s)).
  { unfold consistent, ids_within_seq, references_stored in *.
    cbn [contexts projects tasks with_tasks rows seq].
    split; [done|]. split; [done|]. split; [done|]. split; [done|]. split.
    - intros i r [_ Hr]%lookup_delete_Some. eauto.
    - intros i r [_ Hr]%lookup_delete_Some. eauto. }
  by destruct (rows (tasks s) !! task_id).
Qed.

(** The two blocks of [add_task] that turn a name into an id, run without
    other processes. *)
Lemma add_task_context_block cn s s1 cid :
  consistent s →
  match cn with
  | Some (String _ _ as context_name) =>
      match get_context_by_name context_name s with
      | Some context => (s, Some context.1)
      | None =>
          match add_context context_name s with
          | (s, Success created) => (s, Some created.1)
          | (s, Failure _) => (s, None)
          end
      end
  | _ => (s, None)
  end = (s1, cid) →
  consistent s1 ∧ tasks s1 = tasks s ∧ projects s1 = projects s
  ∧ (∀ i x, rows (contexts s) !! i = Some x → rows (contexts s1) !! i = Some x)
  ∧ (∀ c, cid = Some c → is_Some (rows (contexts s1) !! c)).
Proof.
  intros Hs. destruct cn as [[|c n]|].
  1, 3: by intros [= <- <-]; do 4 (split; [done|]); intros ? [=].
  destruct (get_context_by_name (String c n) s) as [found|] eqn:Hfind.
  - intros [= <- <-]. do 4 (split; [done|]).
    intros ? [= <-]. apply get_context_by_name_stored in Hfind. by eexists.
  - destruct (add_context_facts (String c n) s Hs) as (H1 & H2 & H3 & H4 & H5).
    destruct (add_context (String c n) s) as [s' [made|e]]; cbn [fst snd] in *;
      intros [= <- <-]; do 4 (split; [done|]); [|by intros ? [=]].
    intros ? [= <-]. rewrite (H5 made eq_refl). by eexists.
Qed.

Lemma add_task_project_block pn s s1 pid :
  consistent s →
  match pn with
  | Some (String _ _ as project_name) =>
      match get_project_by_name project_name s with
      | Some project => (s, Some project.1)
      | None =>
          match add_project project_name s with
          | (s, Success created) => (s, Some created.1)
          | (s, Failure _) => (s, None)
          end
      end
  | _ => (s, None)
  end = (s1, pid) →
  consistent s1 ∧ tasks s1 = tasks s ∧ contexts s1 = contexts s
  ∧ (∀ i x, rows (projects s) !! i = Some x → rows (projects s1) !! i = Some x)
  ∧ (∀ p, pid = Some p → is_Some (rows (projects s1) !! p)).
Proof.
  intros Hs. destruct pn as [[|c n]|].
  1, 3: by intros [= <- <-]; do 4 (split; [done|]); intros ? [=].
  destruct (get_project_by_name (String c n) s) as [found|] eqn:Hfind.
  - intros [= <- <-]. do 4 (split; [done|]).
    intros ? [= <-]. apply get_project_by_name_stored in Hfind. by eexists.
  - destruct (add_project_facts (String c n) s Hs) as (H1 & H2 & H3 & H4 & H5).
    destruct (add_project (String c n) s) as [s' [made|e]]; cbn [fst snd] in *;
      intros [= <- <-]; do 4 (split; [done|]); [|by intros ? [=]].
    intros ? [= <-]. rewrite (H5 made eq_refl). by eexists.
Qed.

Lemma insert_task_consistent r s :
  consistent s →
  (∀ c, context_id r = Some c → is_Some (rows (contexts s) !! c)) →
  (∀ p, project_id r = Some p → is_Some (rows (projects s) !! p)) →
  consistent (with_tasks (insert_row r (tasks s)).2 s).
Proof.
  intros (Hc & Hp & Hsc & Hsp & Hst & Href) Hrc Hrp. unfold consistent.
  cbn [contexts projects tasks with_tasks].
  split; [done|]. split; [done|]. split; [done|]. split; [done|].
  split; [by apply insert_row_ids_within_seq|].
  unfold references_stored in *. cbn [contexts projects tasks with_tasks].
  intros i x. rewrite insert_row_lookup. case_decide; [intros [= <-]; by split|apply Href].
Qed.

Lemma add_task_consistent ts d p due cn pn s :
  consistent s → consistent (add_task id ts d p due cn pn s).1.
Proof.
  intros Hs. unfold add_task, id.
  destruct (match cn with Some (String _ _ as n) => _ | _ => _ end) as [s1 cid] eqn:Hcn.
  apply (add_task_context_block _ _ _ _ Hs) in Hcn as (Hs1 & _ & _ & _ & Hcid).
  destruct (match pn with Some (String _ _ as n) => _ | _ => _ end) as [s2 pid] eqn:Hpn.
  apply (add_task_project_block _ _ _ _ Hs1) in Hpn as (Hs2 & _ & Hctx & _ & Hpid).
  destruct d as [text|]; [|done]. unfold insert_row at 1.
  apply insert_task_consistent; [done| |done].
  cbn [context_id]. rewrite Hctx. exact Hcid.
Qed.

Lemma assignment_stored_mono s s1 a :
  (∀ i x, rows (contexts s) !! i = Some x → rows (contexts s1) !! i = Some x) →
  (∀ i x, rows (projects s) !! i = Some x → rows (projects s1) !! i = Some x) →
  assignment_stored s a → assignment_stored s1 a.
Proof.
  intros Hc Hp. destruct a as [v|v|v|[c|]|[p|]]; cbn; try done.
  - intros [x Hx]. eauto.
  - intros [x Hx]. eauto.
Qed.

(** The two blocks of [edit_task] that turn a name into an assignment, run
    without other processes. *)
Lemma edit_task_context_block cn s updates s1 out :
  consistent s → Forall (assignment_stored s) updates →
  match cn with
  | None => (s, inl updates)
  | Some "" => (s, inl (updates ++ [SetContextId None]))
  | Some context_name =>
      match get_context_by_name context_name s with
      | Some context => (s, inl (updates ++ [SetContextId (Some context.1)]))
      | None =>
          match add_context context_name s with
          | (s, Success created) => (s, inl (updates ++ [SetContextId (Some created.1)]))
          | (s, Failure error) => (s, inr error)
          end
      end
  end = (s1, out) →
  consistent s1 ∧ tasks s1 = tasks s
  ∧ (∀ updates1, out = inl updates1 → Forall (assignment_stored s1) updates1).
Proof.
  intros Hs Hall. destruct cn as [[|c n]|].
  - intros [= <- <-]. do 2 (split; [done|]). intros ? [= <-].
    apply Forall_app. split; [done|]. by repeat constructor.
  - destruct (get_context_by_name (String c n) s) as [found|] eqn:Hfind.
    + intros [= <- <-]. do 2 (split; [done|]). intros ? [= <-].
      apply Forall_app. split; [done|]. repeat constructor. cbn.
      apply get_context_by_name_stored in Hfind. by eexists.
    + destruct (add_context_facts (String c n) s Hs) as (H1 & H2 & H3 & H4 & H5).
      destruct (add_context (String c n) s) as [s' [made|e]]; cbn [fst snd] in *;
        intros [= <- <-]; do 2 (split; [done|]); [|by intros ? [=]].
      intros ? [= <-]. apply Forall_app. split.
      * eapply Forall_impl; [exact Hall|]. intros a.
        apply assignment_stored_mono; [done|]. by rewrite H3.
      * repeat constructor. cbn. rewrite (H5 made eq_refl). by eexists.
  - intros [= <- <-]. do 2 (split; [done|]). by intros ? [= <-].
Qed.

Lemma edit_task_project_block pn s updates s1 out :
  consistent s → Forall (assignment_stored s) updates →
  match pn with
  | None => (s, inl updates)
  | Some "" => (s, inl (updates ++ [SetProjectId None]))
  | Some project_name =>
      match get_project_by_name project_name s with
      | Some project => (s, inl (updates ++ [SetProjectId (Some project.1)]))
      | None =>
          match add_project project_name s with
          | (s, Success created) => (s, inl (updates ++ [SetProjectId (Some created.1)]))
          | (s, Failure error) => (s, inr error)
          end
      end
  end = (s1, out) →
  consistent s1 ∧ tasks s1 = tasks s
  ∧ (∀ updates1, out = inl updates1 → Forall (assignment_stored s1) updates1).
Proof.
  intros Hs Hall. destruct pn as [[|c n]|].
  - intros [= <- <-]. do 2 (split; [done|]). intros ? [= <-].
    apply Forall_app. split; [done|]. by repeat constructor.
  - destruct (get_project_by_name (String c n) s) as [found|] eqn:Hfind.
    + intros [= <- <-]. do 2 (split; [done|]). intros ? [= <-].
      apply Forall_app. split; [done|]. repeat constructor. cbn.
      apply get_project_by_name_stored in Hfind. by eexists.
    + destruct (add_project_facts (String c n) s Hs) as (H1 & H2 & H3 & H4 & H5).
      destruct (add_project (String c n) s) as [s' [made|e]]; cbn [fst snd] in *;
        intros [= <- <-]; do 2 (split; [done|]); [|by intros ? [=]].
      intros ? [= <-]. apply Forall_app. split.
      * eapply Forall_impl; [exact Hall|]. intros a.
        apply assignment_stored_mono; [by rewrite H3|done].
      * repeat constructor. cbn. rewrite (H5 made eq_refl). by eexists.
  - intros [= <- <-]. do 2 (split; [done|]). by intros ? [= <-].
Qed.

Lemma edit_task_consistent task_id d p due cn pn s :
  consistent s → consistent (edit_task id task_id d p due cn pn s).1.
Proof.
  intros Hs. unfold edit_task, id.
  destruct (get_task task_id s) as [current|]; [|done].
  match goal with
  | |- context [match cn with None => (s, inl ?u) | Some _ => _ end] =>
      assert (Forall (assignment_stored s) u) as Hall
        by (destruct d, p, due; by repeat constructor);
      generalize dependent u
  end.
  intros updates Hall.
  destruct (match cn with None => _ | Some _ => _ end) as [s1 [updates1|e]] eqn:Hcn;
    apply (edit_task_context_block _ _ _ _ _ Hs Hall) in Hcn as (Hs1 & _ & Hall1); [|done].
  specialize (Hall1 _ eq_refl).
  destruct (match pn with None => _ | Some _ => _ end) as [s2 [updates2|e]] eqn:Hpn;
    apply (edit_task_project_block _ _ _ _ _ Hs1 Hall1) in Hpn as (Hs2 & _ & Hall2); [|done].
  specialize (Hall2 _ eq_refl).
  destruct updates2 as [|a updates2]; [done|].
  assert (consistent (update_tasks (a :: updates2) task_id s2))
    by by apply update_tasks_consistent.
  by destruct (rows (tasks s2) !! task_id).
Qed.

(** X1. The empty database is consistent, and every operation of the store,
    run without other processes, takes a consistent store to a consistent
    one: context and project names stay unique, a task's context_id and
    project_id name stored rows, and no id exceeds its table's AUTOINCREMENT
    mark. *)
Theorem store_operations_keep_consistent s :
  consistent s →
  (∀ name, consistent (add_context name s).1)
  ∧ (∀ name, consistent (add_project name s).1)
  ∧ (∀ ts d p due cn pn, consistent (add_task id ts d p due cn pn s).1)
  ∧ (∀ task_id d p due cn pn, consistent (edit_task id task_id d p due cn pn s).1)
  ∧ (∀ task_id, consistent (mark_task_done task_id s).1)
  ∧ (∀ task_id, consistent (delete_task task_id s).1).
Proof.
  intros Hs. split; [|split; [|split; [|split; [|split]]]].
  - intros name. by apply add_context_facts.
  - intros name. by apply add_project_facts.
  - intros. by apply add_task_consistent.
  - intros. by apply edit_task_consistent.
  - intros. by apply mark_task_done_consistent.
  - intros. by apply delete_task_consistent.
Qed.

Lemma store_operations_keep_consistent_witness :
  consistent (add_task id created (Some "write report") (Some "high") None (Some "work")
                (Some "thesis") init_db).1
  ∧ consistent (delete_task 1 init_db).1.
Proof.
  destruct (store_operations_keep_consistent init_db consistent_init_db)
    as (_ & _ & Hadd & _ & _ & Hdel).
  split; [apply Hadd|apply Hdel].
Defined.

(** ** Deleting a task *)

(** X2. DeleteTask of an id that is not stored changes nothing: it fails
    with the not-found error when the id is a 64-bit integer, and with the
    text of the driver's OverflowError when it is not. DeleteTask of a stored
    id succeeds; the task is gone afterwards, every other task keeps its row,
    and contexts and projects are untouched, also those only the deleted task
    used. *)
Theorem delete_task_spec task_id s :
  (get_task task_id s = None → sqlite_integer task_id = true →
   delete_task task_id s = (s, not_found task_id))
  ∧ (get_task task_id s = None → sqlite_integer task_id = false →
     delete_task task_id s = (s, Failure overflow_error))
  ∧ (is_Some (get_task task_id s) →
     ∃ s', delete_task task_id s = (s', Success ())
           ∧ get_task task_id s' = None
           ∧ (∀ other, other ≠ task_id →
                rows (tasks s') !! other = rows (tasks s) !! other)
           ∧ contexts s' = contexts s ∧ projects s' = projects s).
Proof.
  split; [|split].
  - intros Hnone%get_task_None Hint. unfold delete_task.
    rewrite (binds_sqlite_integer _ _ Hint), Hnone. cbn.
    rewrite delete_id by done. unfold with_tasks. by rewrite table_eta, store_eta.
  - intros Hnone%get_task_None Hint. unfold delete_task.
    by rewrite (binds_missing _ _ Hnone), Hint.
  - intros [t (r & Hr & _)%get_task_Some]. unfold delete_task.
    rewrite (binds_stored _ _ _ Hr), Hr. cbn.
    eexists. split; [done|]. split; [|split; [|done]].
    + apply get_task_None. cbn. apply lookup_delete_eq.
    + intros other Hne. cbn. by rewrite lookup_delete_ne.
Qed.

Lemma delete_task_spec_witness :
  delete_task 7 small_store = (small_store, Failure "Task with ID 7 not found")
  ∧ delete_task (2 ^ 63) small_store
    = (small_store, Failure "Python int too large to convert to SQLite INTEGER")
  ∧ ∃ s', delete_task 1 small_store = (s', Success ())
          ∧ get_task 1 s' = None
          ∧ get_context_by_name "work" s' = Some (1, "work").
Proof.
  split; [|split].
  - apply (proj1 (delete_task_spec 7 small_store)); reflexivity.
  - apply (proj1 (proj2 (delete_task_spec (2 ^ 63) small_store))); reflexivity.
  - destruct (proj2 (proj2 (delete_task_spec 1 small_store)))
      as (s' & Hrun & Hgone & _ & Hctx & _).
    { vm_compute. eauto. }
    exists s'. split; [exact Hrun|]. split; [exact Hgone|].
    unfold get_context_by_name. rewrite Hctx. reflexivity.
Defined.

(** ** Ids are not given out twice *)

Lemma add_task_new_id ts text p due cn pn s :
  ∃ s' t, add_task id ts (Some text) p due cn pn s = (s', Success (Some t))
          ∧ task_id t = next_rowid (tasks s)
          ∧ get_task (task_id t) s' = Some t
          ∧ columns t = TaskRow text p due (context_id (columns t)) (project_id (columns t))
                          ts false
          ∧ (∀ other, other ≠ task_id t →
               rows (tasks s') !! other = rows (tasks s) !! other).
Proof.
  unfold add_task, id.
  destruct (match cn with Some (String _ _ as n) => _ | _ => _ end) as [s1 cid] eqn:Hcn.
  assert (tasks s1 = tasks s) as Ht1.
  { destruct cn as [[|c n]|]; try (by injection Hcn as <- _).
    destruct (get_context_by_name (String c n) s); [by injection Hcn as <- _|].
    pose proof (add_context_tasks (String c n) s) as Ht.
    destruct (add_context (String c n) s) as [s' [made|e]]; by injection Hcn as <- _. }
  destruct (match pn with Some (String _ _ as n) => _ | _ => _ end) as [s2 pid] eqn:Hpn.
  assert (tasks s2 = tasks s1) as Ht2.
  { destruct pn as [[|c n]|]; try (by injection Hpn as <- _).
    destruct (get_project_by_name (String c n) s1); [by injection Hpn as <- _|].
    pose proof (add_project_tasks (String c n) s1) as Ht.
    destruct (add_project (String c n) s1) as [s' [made|e]]; by injection Hpn as <- _. }
  unfold insert_row. rewrite get_task_inserted. eexists _, _. split; [done|].
  cbn [task_id left_join fst snd columns]. rewrite Ht2, Ht1.
  split; [done|]. split.
  - rewrite <- Ht1, <- Ht2. apply get_task_inserted.
  - split; [done|]. intros other Hne. cbn. by rewrite lookup_insert_ne.
Qed.

(** X3. AUTOINCREMENT never gives an id out again: once a task is deleted,
    the next task added gets an id above the deleted one, indeed above every
    id the table holds or held when the delete happened. *)
Theorem task_ids_not_reused ts text p due cn pn deleted s :
  ids_within_seq (tasks s) → is_Some (get_task deleted s) →
  ∃ s' t, add_task id ts (Some text) p due cn pn (delete_task deleted s).1
          = (s', Success (Some t))
          ∧ deleted < task_id t
          ∧ (∀ i r, rows (tasks s) !! i = Some r → i < task_id t).
Proof.
  intros Hwf [t0 (r0 & Hr0 & _)%get_task_Some].
  destruct (add_task_new_id ts text p due cn pn (delete_task deleted s).1)
    as (s' & t & Hrun & Hid & _).
  exists s', t. split; [done|].
  assert (seq (tasks s) < task_id t) as Hseq.
  { rewrite Hid. pose proof (next_rowid_above_seq (tasks (delete_task deleted s).1)) as Hn.
    unfold delete_task in Hn |- *.
    by destruct (binds deleted (tasks s)), (rows (tasks s) !! deleted). }
  split.
  - apply Hwf in Hr0. lia.
  - intros i r Hr%Hwf. lia.
Qed.

Lemma task_ids_not_reused_witness :
  ∃ s' t, add_task id created (Some "again") None None None None (delete_task 2 small_store).1
          = (s', Success (Some t))
          ∧ task_id t = 3.
Proof.
  destruct (task_ids_not_reused created "again" None None None None 2 small_store)
    as (s' & t & Hrun & Hlt & Hall).
  - assert (consistent small_store) as (_ & _ & _ & _ & Hwf & _); [|exact Hwf].
    apply mark_task_done_consistent, add_task_consistent, add_task_consistent,
      consistent_init_db.
  - vm_compute. eauto.
  - exists s', t. split; [exact Hrun|].
    vm_compute in Hrun. by injection Hrun as _ <-.
Defined.

(** X4. AddTask returns the task it inserted: the id is one no task had,
    GetTask of that id returns the same task afterwards, the columns are the
    values passed in, with completed false and created_at the time of the
    call, and every other task keeps its row. *)
Theorem add_task_round_trip ts text p due cn pn s :
  ∃ s' t, add_task id ts (Some text) p due cn pn s = (s', Success (Some t))
          ∧ get_task (task_id t) s = None
          ∧ get_task (task_id t) s' = Some t
          ∧ description (columns t) = text
          ∧ priority (columns t) = p
          ∧ due_date_time (columns t) = due
          ∧ created_at (columns t) = ts
          ∧ completed (columns t) = false
          ∧ (∀ other, other ≠ task_id t →
               rows (tasks s') !! other = rows (tasks s) !! other).
Proof.
  destruct (add_task_new_id ts text p due cn pn s) as (s' & t & Hrun & Hid & Hget & Hcols & Hrest).
  exists s', t. split; [done|]. split.
  { apply get_task_None. rewrite Hid. apply next_rowid_fresh. }
  split; [done|]. rewrite Hcols. by repeat split.
Qed.

(** ** Finding or creating a context *)

Lemma add_task_project_block_contexts pn s s1 pid :
  match pn with
  | Some (String _ _ as project_name) =>
      match get_project_by_name project_name s with
      | Some project => (s, Some project.1)
      | None =>
          match add_project project_name s with
          | (s, Success created) => (s, Some created.1)
          | (s, Failure _) => (s, None)
          end
      end
  | _ => (s, None)
  end = (s1, pid) →
  contexts s1 = contexts s.
Proof.
  destruct pn as [[|c n]|]; try (by intros [= <- _]).
  destruct (get_project_by_name (String c n) s); [by intros [= <- _]|].
  pose proof (add_project_contexts (String c n) s) as Hc.
  destruct (add_project (String c n) s) as [s' [made|e]]; by intros [= <- _].
Qed.

(** X5. AddTask with a non-empty context name, run without other
    processes, always files the task under a context of that name. When the
    name is stored the table of contexts is left as it is and the task takes
    the id of the stored context; when it is not, exactly one row is added,
    under a fresh id and with that name, and the task takes that id. Either
    way FindContextByName returns the task's context afterwards. *)
Theorem add_task_finds_or_creates_context ts text p due c n pn s :
  ∃ s' t cid,
    add_task id ts (Some text) p due (Some (String c n)) pn s = (s', Success (Some t))
    ∧ context_id (columns t) = Some cid
    ∧ context_name t = Some (String c n)
    ∧ get_context_by_name (String c n) s' = Some (cid, String c n)
    ∧ match get_context_by_name (String c n) s with
      | Some found => contexts s' = contexts s ∧ found = (cid, String c n)
      | None =>
          rows (contexts s) !! cid = None
          ∧ rows (contexts s') = <[cid := String c n]> (rows (contexts s))
      end.
Proof.
  unfold add_task, id.
  destruct (get_context_by_name (String c n) s) as [[i name]|] eqn:Hfind.
  - pose proof (select_by_name_Some _ _ _ Hfind) as [Hname Hstored]. cbn in Hname, Hstored.
    subst name.
    destruct (match pn with Some (String _ _ as m) => _ | _ => _ end) as [s2 pid] eqn:Hpn.
    apply add_task_project_block_contexts in Hpn as Hctx.
    unfold insert_row. rewrite get_task_inserted. eexists _, _, i. split; [done|].
    cbn [columns context_id context_name left_join fst snd contexts with_tasks option_bind mbind].
    rewrite Hctx. split; [done|]. split; [by rewrite Hstored|].
    unfold get_context_by_name in *. cbn [contexts with_tasks]. by rewrite Hctx.
  - rewrite (add_context_new _ _ Hfind).
    destruct (match pn with Some (String _ _ as m) => _ | _ => _ end) as [s2 pid] eqn:Hpn.
    apply add_task_project_block_contexts in Hpn as Hctx.
    unfold insert_row. rewrite get_task_inserted.
    eexists _, _, (next_rowid (contexts s)). split; [done|].
    cbn [columns context_id context_name left_join fst snd contexts with_tasks with_contexts
           option_bind mbind rows].
    rewrite Hctx. cbn [contexts with_contexts rows].
    split; [done|]. split; [by rewrite insert_row_lookup, decide_True|].
    split; [|split; [apply next_rowid_fresh|done]].
    unfold get_context_by_name. cbn [contexts with_tasks]. rewrite Hctx.
    exact (select_by_name_inserted (String c n) (contexts s) Hfind).
Qed.

(** ** Which tasks a listing shows *)

Lemma where_single c t : where_ [c] t = Some true ↔ c t = Some true.
Proof. unfold where_. cbn. by destruct (c t) as [[]|]. Qed.

Lemma completed_is_true_true t :
  completed_is true t = Some true ↔ completed (columns t) = true.
Proof. unfold completed_is. destruct (completed (columns t)); simpl; split; congruence. Qed.

Lemma get_task_joined s t :
  get_task (task_id t) s = Some t
  ↔ ∃ r, rows (tasks s) !! task_id t = Some r ∧ t = left_join s (task_id t, r).
Proof. apply get_task_Some. Qed.

Lemma default_listing now s t :
  t ∈ list_tasks now false None None None None false false s
  ↔ get_task (task_id t) s = Some t ∧ completed (columns t) = false.
Proof.
  unfold list_tasks. cbn [negb andb app].
  rewrite elem_of_select, where_single, completed_is_false_true, get_task_joined. tauto.
Qed.

Lemma completed_listing now all_tasks s t :
  t ∈ list_tasks now all_tasks None None None None false true s
  ↔ get_task (task_id t) s = Some t ∧ completed (columns t) = true.
Proof.
  unfold list_tasks. destruct all_tasks; cbn [negb andb app];
    rewrite elem_of_select, where_single, completed_is_true_true, get_task_joined; tauto.
Qed.

Lemma full_listing now s t :
  t ∈ list_tasks now true None None None None false false s
  ↔ get_task (task_id t) s = Some t.
Proof.
  unfold list_tasks. cbn [negb andb app]. rewrite elem_of_select, get_task_joined.
  unfold where_. cbn. tauto.
Qed.

(** X6. With no other filter, ListTasks returns by default exactly the
    stored tasks that are not completed, with completed_only exactly those
    that are completed (also when include_completed is set as well), and with
    include_completed alone exactly the stored tasks. *)
Theorem list_tasks_visibility now s t :
  (t ∈ list_tasks now false None None None None false false s
   ↔ get_task (task_id t) s = Some t ∧ completed (columns t) = false)
  ∧ (∀ all_tasks, t ∈ list_tasks now all_tasks None None None None false true s
     ↔ get_task (task_id t) s = Some t ∧ completed (columns t) = true)
  ∧ (t ∈ list_tasks now true None None None None false false s
     ↔ get_task (task_id t) s = Some t).
Proof.
  split; [apply default_listing|]. split; [|apply full_listing].
  intros all_tasks. apply completed_listing.
Qed.

Lemma no_elements_nil {A} (l : list A) : (∀ x, x ∉ l) → l = [].
Proof. destruct l as [|x l]; [done|]. intros H. destruct (H x). apply list_elem_of_here. Qed.

(** X7. Some filters select nothing whatever is stored: a due range one of
    whose bounds is absent, since BETWEEN with NULL is never true, and
    overdue_only together with completed_only, which ask for completed = 0
    and completed = 1 at once. *)
Theorem list_tasks_empty_selections now all_tasks prio cname pname overdue completed_only s :
  (∀ bound, list_tasks now all_tasks prio (Some (None, bound)) cname pname overdue
              completed_only s = [])
  ∧ (∀ bound, list_tasks now all_tasks prio (Some (bound, None)) cname pname overdue
                completed_only s = [])
  ∧ (∀ due_range, list_tasks now all_tasks prio due_range cname pname true true s = []).
Proof.
  split; [|split].
  - intros bound. apply no_elements_nil. intros t Hin.
    apply list_tasks_filters in Hin as (_ & _ & _ & Hrange & _).
    by destruct (Hrange _ _ eq_refl) as (? & ? & ? & [=] & _).
  - intros bound. apply no_elements_nil. intros t Hin.
    apply list_tasks_filters in Hin as (_ & _ & _ & Hrange & _).
    by destruct (Hrange _ _ eq_refl) as (? & ? & ? & _ & _ & [=] & _).
  - intros due_range. apply no_elements_nil. intros t Hin.
    pose proof (list_tasks_filters _ _ _ _ _ _ _ _ _ _ Hin) as (_ & Hdone & _).
    apply overdue_listing_iff in Hin as (_ & _ & Hopen%completed_is_false_true).
    rewrite Hdone in Hopen; done.
Qed.

(** X8. Once MarkTaskDone has succeeded on a task, the default listing no
    longer shows it and the listing of completed tasks does. *)
Theorem mark_task_done_moves_task now marked s :
  is_Some (get_task marked s) →
  ∃ s' t, mark_task_done marked s = (s', Success ())
          ∧ task_id t = marked
          ∧ t ∈ list_tasks now false None None None None false true s'
          ∧ (∀ t', t' ∈ list_tasks now false None None None None false false s' →
               task_id t' ≠ marked).
Proof.
  intros Hstored.
  destruct (mark_task_done_existing marked s Hstored) as (s' & Hrun & Hdone & _).
  destruct (get_task marked s') as [t|] eqn:Hget; [|done].
  injection Hdone as Hdone. cbn in Hdone.
  pose proof Hget as (r & Hr & Ht)%get_task_Some.
  assert (task_id t = marked) as Hid by by subst t.
  exists s', t. split; [done|]. split; [done|]. split.
  - apply completed_listing. by rewrite Hid.
  - intros t' Hin <-.
    apply default_listing in Hin as [Hget' Hopen]. congruence.
Qed.

Lemma mark_task_done_moves_task_witness :
  ∃ s' t, mark_task_done 1 small_store = (s', Success ())
          ∧ task_id t = 1
          ∧ t ∈ list_tasks (DateTime 2024 3 1 8 0 0) false None None None None false true s'
          ∧ (∀ t', t' ∈ list_tasks (DateTime 2024 3 1 8 0 0) false None None None None
                          false false s' → task_id t' ≠ 1).
Proof.
  apply (mark_task_done_moves_task (DateTime 2024 3 1 8 0 0) 1 small_store).
  vm_compute. eauto.
Defined.

(** ** Listing contexts and projects *)

#[global] Instance name_order_total : Total name_order.
Proof. intros a b. apply (cmp_le_total String.compare). Qed.

#[global] Instance name_order_transitive : Transitive name_order.
Proof. intros a b c. apply (cmp_le_trans String.compare). Qed.

(** X9. ListContexts and ListProjects return every stored row once, and
    no other, in ascending order of name. *)
Theorem list_contexts_sorted_complete s :
  StronglySorted name_order (list_contexts s)
  ∧ NoDup (list_contexts s)
  ∧ (∀ i name, (i, name) ∈ list_contexts s ↔ rows (contexts s) !! i = Some name)
  ∧ StronglySorted name_order (list_projects s)
  ∧ NoDup (list_projects s)
  ∧ (∀ i name, (i, name) ∈ list_projects s ↔ rows (projects s) !! i = Some name).
Proof.
  unfold list_contexts, list_projects.
  split; [apply (StronglySorted_merge_sort name_order)|].
  split; [rewrite (merge_sort_Permutation name_order); apply NoDup_map_to_list|].
  split; [intros i name; rewrite (merge_sort_Permutation name_order);
          apply elem_of_map_to_list|].
  split; [apply (StronglySorted_merge_sort name_order)|].
  split; [rewrite (merge_sort_Permutation name_order); apply NoDup_map_to_list|].
  intros i name. rewrite (merge_sort_Permutation name_order). apply elem_of_map_to_list.
Qed.

(** ** Looking a context up by name *)

(** X10. FindContextByName returns only stored rows of the name asked
    for, and returns nothing only when no row has that name; while names are
    unique, as the store keeps them, it returns a row exactly when that row
    is stored. *)
Theorem get_context_by_name_spec name s :
  (∀ found, get_context_by_name name s = Some found →
     found.2 = name ∧ rows (contexts s) !! found.1 = Some name)
  ∧ (get_context_by_name name s = None ↔ ∀ i, rows (contexts s) !! i ≠ Some name)
  ∧ (unique_names (contexts s) →
     ∀ i, get_context_by_name name s = Some (i, name) ↔ rows (contexts s) !! i = Some name).
Proof.
  split; [intros found; apply select_by_name_Some|]. split.
  - split; [intros Hnone i; by apply select_by_name_None|].
    intros Hnone. destruct (get_context_by_name name s) as [found|] eqn:Hfind; [|done].
    apply select_by_name_Some in Hfind as [_ Hstored]. by apply Hnone in Hstored.
  - intros Huniq i. split.
    + intros Hfind. by apply select_by_name_Some in Hfind as [_ ?].
    + intros Hstored.
      destruct (select_by_name_is_Some name (contexts s) i Hstored) as [[j n] Hfind].
      unfold get_context_by_name. rewrite Hfind.
      apply select_by_name_Some in Hfind as [Hn Hj]. cbn in Hn, Hj. subst n.
      by rewrite (Huniq i j name Hstored Hj).
Qed.

Lemma get_context_by_name_spec_witness :
  get_context_by_name "work" small_store = Some (1, "work")
  ∧ rows (contexts small_store) !! 1 ≠ Some "home".
Proof.
  destruct (get_context_by_name_spec "work" small_store) as (_ & _ & Hfound).
  destruct (get_context_by_name_spec "home" small_store) as (_ & Hnone & _).
  split.
  - apply Hfound; [|reflexivity].
    assert (consistent small_store) as (Huniq & _); [|exact Huniq].
    apply mark_task_done_consistent, add_task_consistent, add_task_consistent,
      consistent_init_db.
  - apply (proj1 Hnone). reflexivity.
Defined.

(** ** Editing: names, errors and supplied values *)

Lemma get_task_updated updates task_id s r :
  rows (tasks s) !! task_id = Some r →
  get_task task_id (update_tasks updates task_id s)
  = Some (left_join (update_tasks updates task_id s) (task_id, foldl assign r updates)).
Proof. intros Hr. unfold get_task. by rewrite update_tasks_lookup, decide_True, Hr. Qed.

(** X11. EditTask of a stored task with a non-empty context name, run
    without other processes, succeeds and files the task under a context of
    that name, creating the context when FindContextByName does not find it;
    FindContextByName returns the task's context afterwards. *)
Theorem edit_task_finds_or_creates_context task_id d p due c n pn s :
  is_Some (get_task task_id s) →
  ∃ s' t cid,
    edit_task id task_id d p due (Some (String c n)) pn s = (s', Success (Some t))
    ∧ get_task task_id s' = Some t
    ∧ context_id (columns t) = Some cid
    ∧ context_name t = Some (String c n)
    ∧ get_context_by_name (String c n) s' = Some (cid, String c n).
Proof.
  intros [t0 Hget]. unfold edit_task, id. rewrite Hget.
  apply get_task_Some in Hget as (r & Hr & _).
  destruct (get_context_by_name (String c n) s) as [[i name]|] eqn:Hfind.
  - pose proof (select_by_name_Some _ _ _ Hfind) as [Hname Hstored]. cbn in Hname, Hstored.
    subst name.
    destruct d, p, due; cbn [app fst];
      name_cases_alone pn get_project_by_name add_project_new;
      cbn [tasks with_projects]; rewrite Hr; cbn [Z.ltb Z.compare];
      (erewrite get_task_updated by (cbn [tasks with_projects]; exact Hr));
      (eexists _, _, i; split; [reflexivity|];
       split; [by apply get_task_updated|]; split; [reflexivity|];
       cbn; rewrite Hstored; split; [done|exact Hfind]).
  - rewrite (add_context_new _ _ Hfind).
    pose proof (select_by_name_inserted _ _ Hfind) as Hnew.
    destruct d, p, due; cbn [app fst];
      name_cases_alone pn get_project_by_name add_project_new;
      cbn [tasks with_projects with_contexts]; rewrite Hr; cbn [Z.ltb Z.compare];
      (erewrite get_task_updated by (cbn [tasks with_projects with_contexts]; exact Hr));
      (eexists _, _, (next_rowid (contexts s)); split; [reflexivity|];
       split; [by apply get_task_updated|]; split; [reflexivity|];
       cbn; rewrite lookup_insert_eq; split; [done|exact Hnew]).
Qed.

Lemma edit_task_finds_or_creates_context_witness :
  ∃ s' t cid,
    edit_task id 2 None None None (Some "errands") None small_store = (s', Success (Some t))
    ∧ get_task 2 s' = Some t
    ∧ context_id (columns t) = Some cid
    ∧ context_name t = Some "errands"
    ∧ get_context_by_name "errands" s' = Some (cid, "errands").
Proof.
  apply (edit_task_finds_or_creates_context 2 None None None "e" "rrands" None small_store).
  vm_compute. eauto.
Defined.

(** X12. EditTask refuses, and leaves the store as it is, when the id is
    a 64-bit integer that is not stored, whatever else is passed and before
    any context or project is created, and when the task is stored but no
    field is supplied; the first with the not-found error, the second with
    "No updates provided". *)
Theorem edit_task_refusals concurrent task_id s :
  (get_task task_id s = None → sqlite_integer task_id = true →
   ∀ d p due cn pn,
     edit_task concurrent task_id d p due cn pn s = (s, not_found task_id))
  ∧ (is_Some (get_task task_id s) →
     edit_task concurrent task_id None None None None None s
     = (s, Failure "No updates provided")).
Proof.
  split.
  - intros Hnone _ d p due cn pn. unfold edit_task. by rewrite Hnone.
  - intros [t Hget]. unfold edit_task. by rewrite Hget.
Qed.

Lemma edit_task_refusals_witness :
  edit_task id 7 (Some "x") None None (Some "errands") None small_store
  = (small_store, Failure "Task with ID 7 not found")
  ∧ edit_task id 1 None None None None None small_store
    = (small_store, Failure "No updates provided").
Proof.
  split.
  - apply (proj1 (edit_task_refusals id 7 small_store)); reflexivity.
  - apply (proj2 (edit_task_refusals id 1 small_store)). vm_compute. eauto.
Defined.

(** X13. EditTask of a stored task with at least one field supplied, run
    without other processes, succeeds and returns the task as stored
    afterwards, in which every supplied description, priority and due date
    has the supplied value. *)
Theorem edit_task_writes_supplied task_id d p due cn pn s :
  is_Some (get_task task_id s) →
  is_Some d ∨ is_Some p ∨ is_Some due ∨ is_Some cn ∨ is_Some pn →
  ∃ s' t, edit_task id task_id d p due cn pn s = (s', Success (Some t))
          ∧ get_task task_id s' = Some t
          ∧ (∀ v, d = Some v → description (columns t) = v)
          ∧ (∀ v, p = Some v → priority (columns t) = Some v)
          ∧ (∀ v, due = Some v → due_date_time (columns t) = Some v).
Proof.
  intros Hstored Hsupplied.
  pose proof (edit_task_succeeds task_id d p due cn pn s Hstored Hsupplied) as Hok.
  destruct (edit_task id task_id d p due cn pn s) as [s' [payload|e]] eqn:Hrun; [|done].
  destruct (edit_task_effect _ _ _ _ _ _ _ _ _ Hrun) as (_ & Hsucc & _).
  destruct (Hsucc payload eq_refl)
    as (-> & r & r' & Hr & Hr' & Hd & Hp & Hdue & _).
  exists s', (left_join s' (task_id, r')).
  assert (get_task task_id s' = Some (left_join s' (task_id, r'))) as Hget.
  { unfold get_task. by rewrite Hr'. }
  rewrite Hget. split; [done|]. split; [done|]. cbn [columns left_join snd].
  split; [intros v ->; by rewrite Hd|]. split; [intros v ->; by rewrite Hp|].
  intros v ->. by rewrite Hdue.
Qed.

Lemma edit_task_writes_supplied_witness :
  ∃ s' t, edit_task id 1 (Some "file report") None (Some "2024-03-01 17:00:00") None None
            small_store = (s', Success (Some t))
          ∧ get_task 1 s' = Some t
          ∧ description (columns t) = "file report"
          ∧ due_date_time (columns t) = Some "2024-03-01 17:00:00".
Proof.
  destruct (edit_task_writes_supplied 1 (Some "file report") None
              (Some "2024-03-01 17:00:00") None None small_store)
    as (s' & t & Hrun & Hget & Hd & _ & Hdue).
  - vm_compute. eauto.
  - left. eauto.
  - exists s', t. split; [exact Hrun|]. split; [exact Hget|].
    split; [exact (Hd _ eq_refl)|exact (Hdue _ eq_refl)].
Defined.

(** ** A failed insert keeps what was created on the way *)

(** X14. AddTask without a description fails with the NOT NULL error of
    the INSERT and stores no task; a context it created on the way, on its own
    connection, stays: the call is not atomic. *)
Theorem add_task_without_description ts p due c n s :
  get_context_by_name (String c n) s = None →
  ∃ s', add_task id ts None p due (Some (String c n)) None s
        = (s', Failure "NOT NULL constraint failed: tasks.description")
        ∧ tasks s' = tasks s
        ∧ get_context_by_name (String c n) s'
          = Some (next_rowid (contexts s), String c n).
Proof.
  intros Hnew. unfold add_task, id. rewrite Hnew, (add_context_new _ _ Hnew).
  eexists. split; [done|]. split; [done|].
  exact (select_by_name_inserted _ _ Hnew).
Qed.

Lemma add_task_without_description_witness :
  ∃ s', add_task id created None None None (Some "work") None init_db
        = (s', Failure "NOT NULL constraint failed: tasks.description")
        ∧ tasks s' = tasks init_db
        ∧ get_context_by_name "work" s' = Some (1, "work").
Proof.
  apply (add_task_without_description created None None "w" "ork" init_db). reflexivity.
Defined.

(** * The configuration file *)

Lemma load_config_stored file :
  (load_config file).1 = Stored (load_config file).2.
Proof. by destruct file. Qed.

Lemma load_config_again file :
  load_config (load_config file).1 = load_config file.
Proof. by destruct file. Qed.






(** * Suggestions and the Gemini client *)

Lemma replace_char_filter c s :
  list_ascii_of_string (Py.replace (String c "") "" s)
  = filter (λ x, x ≠ c) (list_ascii_of_string s).
Proof.
  unfold Py.replace. induction s as [|x s IH]; [done|].
  cbn [Py.replace_from String.prefix String.length Nat.pred list_ascii_of_string].
  rewrite filter_cons. destruct (ascii_dec c x) as [->|Hne].
  - rewrite decide_False by (intros H; by apply H).
    replace (String.prefix "" s) with true by (by destruct s). by rewrite <- IH.
  - rewrite decide_True by congruence. cbn [list_ascii_of_string]. by rewrite IH.
Qed.

Lemma suggest_context_general_or_cleaned gemini task_description previous_contexts :
  suggest_context gemini task_description previous_contexts = "general"
  ∨ ∃ text,
      suggest_context gemini task_description previous_contexts
      = Py.replace PyStr.dquote "" (Py.replace "'" "" text).
Proof.
  unfold suggest_context. destruct previous_contexts as [|c cs]; [by left|].
  destruct gemini as [generate|]; [|by left].
  destruct (generate _) as [response|]; [|by left].
  destruct (Py.replace PyStr.dquote "" _) eqn:E; [by left|]. right. by eexists.
Qed.

(** X18. [suggest_context] never returns the empty string, and what it
    returns holds neither a single nor a double quote; it returns "general"
    when there are no previous contexts, when the Gemini client is not
    available, and when the call to it fails. *)
Theorem suggest_context_result gemini task_description previous_contexts :
  suggest_context gemini task_description previous_contexts ≠ ""
  ∧ (∀ c, c ∈ list_ascii_of_string
              (suggest_context gemini task_description previous_contexts) →
          c ≠ "'"%char ∧ c ≠ ascii_of_N 34)
  ∧ suggest_context gemini task_description [] = "general"
  ∧ suggest_context None task_description previous_contexts = "general"
  ∧ suggest_context (Some (λ _, None)) task_description previous_contexts = "general".
Proof.
  split; [|split; [|split; [done|split]]].
  - unfold suggest_context. destruct previous_contexts as [|c cs]; [done|].
    destruct gemini as [generate|]; [|done].
    destruct (generate _) as [response|]; [|done].
    by destruct (Py.replace PyStr.dquote "" _).
  - intros c.
    destruct (suggest_context_general_or_cleaned gemini task_description previous_contexts)
      as [-> | [text ->]].
    + cbn. rewrite !elem_of_cons, elem_of_nil.
      intros [->|[->|[->|[->|[->|[->|[->|[]]]]]]]]; by split.
    + unfold PyStr.dquote. rewrite !replace_char_filter, !list_elem_of_filter.
      intros (Hd & Hq & _). by split.
  - by destruct previous_contexts.
  - by destruct previous_contexts.
Qed.

(** X19. When the parser returns dates a [datetime] can hold with a
    four-digit year, every timestamp [extract_date_time] and
    [suggest_due_date] return is in the canonical layout: [strptime] reads
    it back as a valid date, and [format_relative_date] renders that date
    rather than "Invalid date". A midnight the local parser returned comes
    back as 23:59:59 of the same day. *)
Theorem resolved_timestamps_canonical parse gemini text result :
  (∀ fuzzy t dt, parse fuzzy t = Some dt → Datetime.valid dt) →
  extract_date_time parse gemini text = Some result
  ∨ (∃ description, suggest_due_date parse gemini description = Some result) →
  ∃ dt, Datetime.valid dt
        ∧ result = Datetime.strftime_iso dt
        ∧ Datetime.strptime_iso result = Some dt
        ∧ ∀ now, format_relative_date now (Some result)
                 = format_relative_date now (Some (Datetime.strftime_iso dt)).
Proof.
  intros Hparse Hresult.
  assert (∃ dt, Datetime.valid dt ∧ result = Datetime.strftime_iso dt) as (dt & Hv & ->).
  { destruct Hresult as [Hextract | [description Hsuggest]].
    - unfold extract_date_time in Hextract.
      destruct text as [[|c text]|]; try done.
      destruct (parse true (String c text)) as [dt|] eqn:Hlocal.
      + injection Hextract as <-. apply Hparse in Hlocal as Hv.
        destruct ((hour dt =? 0) && (minute dt =? 0) && (second dt =? 0)); [|by eexists].
        eexists. split; [|done].
        destruct Hv as (Hy & Hm & Hd & _). unfold Datetime.valid. cbn. lia.
      + destruct gemini as [generate|]; [|done]. cbn in Hextract.
        destruct (generate _) as [response|]; [|done]. cbn in Hextract.
        destruct (String.eqb _ _); [done|].
        destruct (parse false (Py.strip response)) as [dt|] eqn:Hremote; [|done].
        injection Hextract as <-. apply Hparse in Hremote. by eexists.
    - unfold suggest_due_date in Hsuggest.
      destruct gemini as [generate|]; [|done]. cbn in Hsuggest.
      destruct (generate _) as [response|]; [|done]. cbn in Hsuggest.
      destruct (parse false (Py.strip response)) as [dt|] eqn:Hremote; [|done].
      injection Hsuggest as <-. apply Hparse in Hremote. by eexists. }
  exists dt. split; [done|]. split; [done|]. split; [by apply strptime_strftime_iso|done].
Qed.

Lemma resolved_timestamps_canonical_witness :
  ∃ dt, Datetime.valid dt
        ∧ "2025-03-01 23:59:59" = Datetime.strftime_iso dt
        ∧ Datetime.strptime_iso "2025-03-01 23:59:59" = Some dt
        ∧ ∀ now, format_relative_date now (Some "2025-03-01 23:59:59")
                 = format_relative_date now (Some (Datetime.strftime_iso dt)).
Proof.
  apply (resolved_timestamps_canonical
           (λ fuzzy t, if String.eqb t "2025-03-01" then Some (DateTime 2025 3 1 0 0 0)
                       else None)
           None (Some "2025-03-01")).
  - intros fuzzy t dt. destruct (String.eqb t "2025-03-01"); [|done].
    intros [= <-]. apply validb_true_valid; [reflexivity|cbn; lia].
  - left. reflexivity.
Defined.



(** * Date arithmetic *)

Lemma is_leap_true y : Datetime.is_leap y = true ↔ y mod 4 = 0 ∧ (y mod 100 ≠ 0 ∨ y mod 400 = 0).
Proof.
  unfold Datetime.is_leap.
  rewrite andb_true_iff, orb_true_iff, negb_true_iff, !Z.eqb_eq, Z.eqb_neq. tauto.
Qed.

Lemma is_leap_false y : Datetime.is_leap y = false ↔ ¬ (y mod 4 = 0 ∧ (y mod 100 ≠ 0 ∨ y mod 400 = 0)).
Proof. rewrite <- is_leap_true. by destruct (Datetime.is_leap y). Qed.

Lemma days_before_year_split a b c e :
  0 ≤ a → 0 ≤ b ≤ 3 → 0 ≤ c ≤ 24 → 0 ≤ e ≤ 3 →
  Datetime.days_before_year (400 * a + 100 * b + 4 * c + e + 1)
  = 146097 * a + 36524 * b + 1461 * c + 365 * e.
Proof.
  intros Ha Hb Hc He. unfold Datetime.days_before_year. cbv zeta.
  replace (400 * a + 100 * b + 4 * c + e + 1 - 1) with (400 * a + 100 * b + 4 * c + e) by lia.
  assert ((400 * a + 100 * b + 4 * c + e) / 4 = 100 * a + 25 * b + c) as ->.
  { symmetry. apply (Z.div_unique _ 4 _ e); lia. }
  assert ((400 * a + 100 * b + 4 * c + e) / 100 = 4 * a + b) as ->.
  { symmetry. apply (Z.div_unique _ 100 _ (4 * c + e)); lia. }
  assert ((400 * a + 100 * b + 4 * c + e) / 400 = a) as ->.
  { symmetry. apply (Z.div_unique _ 400 _ (100 * b + 4 * c + e)); lia. }
  lia.
Qed.

Lemma is_leap_split a b c e :
  0 ≤ a → 0 ≤ b ≤ 3 → 0 ≤ c ≤ 24 → 0 ≤ e ≤ 3 →
  Datetime.is_leap (400 * a + 100 * b + 4 * c + e + 1)
  = (e =? 3) && (negb (c =? 24) || (b =? 3)).
Proof.
  intros Ha Hb Hc He.
  destruct ((e =? 3) && (negb (c =? 24) || (b =? 3))) eqn:E.
  - apply is_leap_true.
    apply andb_true_iff in E as [He3%Z.eqb_eq Hcb%orb_true_iff].
    rewrite negb_true_iff, Z.eqb_neq, Z.eqb_eq in Hcb.
    Z.div_mod_to_equations. lia.
  - apply is_leap_false. apply andb_false_iff in E.
    rewrite Z.eqb_neq, orb_false_iff, negb_false_iff, Z.eqb_eq, Z.eqb_neq in E.
    Z.div_mod_to_equations. lia.
Qed.

(** The month and the day within a year of 365 counted days, as [_ord2ymd]
    finds them from the day's index. *)
Lemma month_day_spec y leap k :
  Datetime.is_leap y = leap → 0 ≤ k < 365 →
  ∃ m d,
    (let month := Z.shiftr (k + 50) 5 in
     let preceding :=
       nth (Z.to_nat (month - 1)) Datetime.days_before_month_table 0
       + (if (2 <? month) && leap then 1 else 0) in
     if k <? preceding then
       let month := month - 1 in
       let preceding :=
         preceding
         - (nth (Z.to_nat (month - 1)) Calendar.DAYS_IN_MONTH 0
            + (if (month =? 2) && leap then 1 else 0)) in
       (y, month, k - preceding + 1)
     else (y, month, k - preceding + 1)) = (y, m, d)
    ∧ 1 ≤ m ≤ 12 ∧ 1 ≤ d ≤ Datetime.days_in_month y m
    ∧ Datetime.days_before_month y m + d = k + 1.
Proof.
  intros Hleap Hk. cbv zeta. rewrite Z.shiftr_div_pow2 by lia.
  change (2 ^ 5) with 32.
  assert (1 ≤ (k + 50) / 32 ≤ 12) as Hmonth by (Z.div_mod_to_equations; lia).
  assert (32 * ((k + 50) / 32) ≤ k + 50 < 32 * ((k + 50) / 32) + 32) as Hdiv
    by (Z.div_mod_to_equations; lia).
  set (month := (k + 50) / 32) in *. clearbody month.
  unfold Datetime.days_in_month, Datetime.days_before_month. rewrite Hleap.
  assert (month = 1 ∨ month = 2 ∨ month = 3 ∨ month = 4 ∨ month = 5 ∨ month = 6
          ∨ month = 7 ∨ month = 8 ∨ month = 9 ∨ month = 10 ∨ month = 11 ∨ month = 12)
    as Hcases by lia.
  destruct leap;
    decompose [or] Hcases; subst month; simpl;
    match goal with |- context [?a <? ?b] => destruct (Z.ltb_spec a b) end;
    eexists _, _; (split; [reflexivity|]); simpl; lia.
Qed.

Lemma ord2ymd_spec n :
  1 ≤ n ≤ Calendar.MAXORDINAL →
  ∃ y m d,
    Calendar.ord2ymd n = (y, m, d)
    ∧ 1 ≤ y ≤ 9999 ∧ 1 ≤ m ≤ 12 ∧ 1 ≤ d ≤ Datetime.days_in_month y m
    ∧ Datetime.days_before_year y + Datetime.days_before_month y m + d = n.
Proof.
  unfold Calendar.MAXORDINAL. intros Hn.
  unfold Calendar.ord2ymd, Calendar.DI400Y, Calendar.DI100Y, Calendar.DI4Y. cbv zeta.
  pose proof (Z.div_mod (n - 1) 146097 ltac:(lia)) as Ha.
  pose proof (Z.mod_pos_bound (n - 1) 146097 ltac:(lia)) as Hr1.
  set (a := (n - 1) / 146097) in *. set (r1 := (n - 1) mod 146097) in *.
  pose proof (Z.div_mod r1 36524 ltac:(lia)) as Hb.
  pose proof (Z.mod_pos_bound r1 36524 ltac:(lia)) as Hr2.
  set (b := r1 / 36524) in *. set (r2 := r1 mod 36524) in *.
  pose proof (Z.div_mod r2 1461 ltac:(lia)) as Hc.
  pose proof (Z.mod_pos_bound r2 1461 ltac:(lia)) as Hr3.
  set (c := r2 / 1461) in *. set (r3 := r2 mod 1461) in *.
  pose proof (Z.div_mod r3 365 ltac:(lia)) as He.
  pose proof (Z.mod_pos_bound r3 365 ltac:(lia)) as Hr4.
  set (e := r3 / 365) in *. set (r4 := r3 mod 365) in *.
  clearbody e r4 c r3 b r2 a r1.
  assert (0 ≤ a ≤ 24 ∧ 0 ≤ b ≤ 4 ∧ 0 ≤ c ≤ 24 ∧ 0 ≤ e ≤ 4) as (Ha' & Hb' & Hc' & He') by lia.
  destruct (Z.eqb_spec e 4) as [He4|He4]; [|destruct (Z.eqb_spec b 4) as [Hb4|Hb4]];
    cbn [orb].
  - (* the last day of a leap year that closes a four-year cycle *)
    exists (400 * a + 100 * b + 4 * c + 3 + 1), 12, 31.
    split; [do 2 f_equal; lia|].
    assert (0 ≤ b ≤ 3 ∧ 0 ≤ c ≤ 23) as [Hb3 Hc23] by lia.
    pose proof (is_leap_split a b c 3 ltac:(lia) Hb3 ltac:(lia) ltac:(lia)) as Hleap.
    replace ((3 =? 3) && (negb (c =? 24) || (b =? 3))) with true in Hleap
      by (destruct (Z.eqb_spec c 24); [lia|done]).
    rewrite days_before_year_split by lia.
    unfold Datetime.days_before_month, Datetime.days_in_month. rewrite Hleap. simpl. lia.
  - (* the last day of a 400-year cycle *)
    exists (400 * a + 100 * 3 + 4 * 24 + 3 + 1), 12, 31.
    split; [do 2 f_equal; lia|].
    pose proof (is_leap_split a 3 24 3 ltac:(lia) ltac:(lia) ltac:(lia) ltac:(lia)) as Hleap.
    change ((3 =? 3) && (negb (24 =? 24) || (3 =? 3))) with true in Hleap.
    rewrite days_before_year_split by lia.
    unfold Datetime.days_before_month, Datetime.days_in_month. rewrite Hleap. simpl. lia.
  - replace (a * 400 + 1 + b * 100 + c * 4 + e) with (400 * a + 100 * b + 4 * c + e + 1)
      by lia.
    pose proof (is_leap_split a b c e ltac:(lia) ltac:(lia) ltac:(lia) ltac:(lia)) as Hleap.
    destruct (month_day_spec _ _ r4 Hleap Hr4) as (m & d & Hmd & Hm & Hd & Hsum).
    cbv zeta in Hmd. exists (400 * a + 100 * b + 4 * c + e + 1), m, d.
    split; [exact Hmd|]. split; [lia|]. split; [done|]. split; [done|].
    rewrite days_before_year_split by lia. lia.
Qed.

Lemma toordinal_ord2ymd n y m d h mi sec :
  1 ≤ n ≤ Calendar.MAXORDINAL → Calendar.ord2ymd n = (y, m, d) →
  Datetime.toordinal (DateTime y m d h mi sec) = n.
Proof.
  intros Hn Hymd. destruct (ord2ymd_spec n Hn) as (y' & m' & d' & Heq & _ & _ & _ & Hsum).
  rewrite Hymd in Heq. by injection Heq as -> -> ->.
Qed.

Lemma days_before_month_bounds y m :
  1 ≤ m ≤ 12 → 0 ≤ Datetime.days_before_month y m ≤ 335.
Proof.
  intros Hm. unfold Datetime.days_before_month.
  assert (m = 1 ∨ m = 2 ∨ m = 3 ∨ m = 4 ∨ m = 5 ∨ m = 6
          ∨ m = 7 ∨ m = 8 ∨ m = 9 ∨ m = 10 ∨ m = 11 ∨ m = 12) as Hcases by lia.
  decompose [or] Hcases; subst m; simpl; destruct (Datetime.is_leap y); lia.
Qed.

Lemma days_in_month_bounds y m : 28 ≤ Datetime.days_in_month y m ≤ 31.
Proof. unfold Datetime.days_in_month. repeat case_match; lia. Qed.

Lemma day_of_year_bound y m d :
  1 ≤ m ≤ 12 → 1 ≤ d ≤ Datetime.days_in_month y m →
  1 ≤ Datetime.days_before_month y m + d ≤ (if Datetime.is_leap y then 366 else 365).
Proof.
  intros Hm. unfold Datetime.days_before_month, Datetime.days_in_month.
  assert (m = 1 ∨ m = 2 ∨ m = 3 ∨ m = 4 ∨ m = 5 ∨ m = 6
          ∨ m = 7 ∨ m = 8 ∨ m = 9 ∨ m = 10 ∨ m = 11 ∨ m = 12) as Hcases by lia.
  decompose [or] Hcases; subst m; simpl; destruct (Datetime.is_leap y); lia.
Qed.

Lemma days_before_year_succ y :
  Datetime.days_before_year (y + 1)
  = Datetime.days_before_year y + (if Datetime.is_leap y then 366 else 365).
Proof.
  unfold Datetime.days_before_year. cbv zeta.
  destruct (Datetime.is_leap y) eqn:Hleap.
  - apply is_leap_true in Hleap. Z.div_mod_to_equations. lia.
  - apply is_leap_false in Hleap. Z.div_mod_to_equations. lia.
Qed.

Lemma days_before_year_mono y y' :
  y ≤ y' → Datetime.days_before_year y ≤ Datetime.days_before_year y'.
Proof. unfold Datetime.days_before_year. cbv zeta. intros. Z.div_mod_to_equations. lia. Qed.

Lemma toordinal_year_bounds dt lo hi :
  1 ≤ month dt ≤ 12 → 1 ≤ day dt ≤ Datetime.days_in_month (year dt) (month dt) →
  lo ≤ year dt ≤ hi →
  Datetime.days_before_year lo < Datetime.toordinal dt ≤ Datetime.days_before_year (hi + 1).
Proof.
  intros Hm Hd Hy. unfold Datetime.toordinal.
  pose proof (day_of_year_bound _ _ _ Hm Hd) as Hday.
  pose proof (days_before_year_succ (year dt)) as Hsucc.
  pose proof (days_before_year_mono lo (year dt) ltac:(lia)).
  pose proof (days_before_year_mono (year dt + 1) (hi + 1) ltac:(lia)).
  destruct (Datetime.is_leap (year dt)); lia.
Qed.

Lemma year_of_ordinal dt lo hi :
  1 ≤ month dt ≤ 12 → 1 ≤ day dt ≤ Datetime.days_in_month (year dt) (month dt) →
  Datetime.days_before_year lo < Datetime.toordinal dt ≤ Datetime.days_before_year (hi + 1) →
  lo ≤ year dt ≤ hi.
Proof.
  intros Hm Hd Hord.
  destruct (Z.lt_ge_cases (year dt) lo) as [Hlow|Hlow].
  { pose proof (toordinal_year_bounds dt (year dt) (lo - 1) Hm Hd ltac:(lia)) as Hb.
    replace (lo - 1 + 1) with lo in Hb by lia. lia. }
  destruct (Z.lt_ge_cases hi (year dt)) as [Hhigh|Hhigh]; [|lia].
  pose proof (toordinal_year_bounds dt (hi + 1) (year dt) Hm Hd ltac:(lia)) as Hb. lia.
Qed.

Lemma add_days_spec now days :
  Datetime.valid now → 1001 ≤ year now ≤ 9998 → -365 ≤ days ≤ 365 →
  ∃ dt, Calendar.add_days now days = Some dt
        ∧ days_after now days dt
        ∧ hour dt = hour now ∧ minute dt = minute now ∧ second dt = second now.
Proof.
  intros (Hy & Hm & Hd & Hh & Hmi & Hs) Hyear Hdays.
  pose proof (toordinal_year_bounds now 1001 9998 Hm Hd Hyear) as Hord.
  assert (Datetime.days_before_year 1001 = Datetime.days_before_year 1000 + 365) as E1
    by reflexivity.
  assert (Datetime.days_before_year (9999 + 1) = Calendar.MAXORDINAL) as E2 by reflexivity.
  assert (Datetime.days_before_year (9998 + 1) = Calendar.MAXORDINAL - 365) as E3
    by reflexivity.
  assert (0 ≤ Datetime.days_before_year 1000) as E4 by (vm_compute; discriminate).
  unfold Calendar.add_days.
  set (n := Datetime.toordinal now + days) in *.
  assert (1 ≤ n ≤ Calendar.MAXORDINAL) as Hn by lia.
  replace ((1 <=? n) && (n <=? Calendar.MAXORDINAL)) with true
    by (symmetry; apply andb_true_iff; split; apply Z.leb_le; lia).
  destruct (ord2ymd_spec n Hn) as (y & m & d & -> & Hy' & Hm' & Hd' & Hsum).
  eexists. split; [reflexivity|]. cbn [hour minute second].
  split; [|done]. unfold days_after.
  assert (Datetime.toordinal (DateTime y m d (hour now) (minute now) (second now)) = n)
    as Htoord by done.
  split; [|done].
  pose proof (year_of_ordinal (DateTime y m d (hour now) (minute now) (second now))
                1000 9999 Hm' Hd') as Hyr.
  rewrite Htoord in Hyr. cbn [year] in Hyr.
  unfold Datetime.valid. cbn [year month day hour minute second].
  split; [apply Hyr; lia|done].
Qed.

Lemma weekday_range dt : 0 ≤ Datetime.weekday dt ≤ 6.
Proof. unfold Datetime.weekday. pose proof (Z.mod_pos_bound (Datetime.toordinal dt + 6) 7). lia. Qed.

Lemma weekday_days_after now days dt :
  days_after now days dt → Datetime.weekday dt = (Datetime.weekday now + days) mod 7.
Proof.
  intros [_ Hord]. unfold Datetime.weekday. rewrite Hord.
  Z.div_mod_to_equations. lia.
Qed.

Lemma start_of_day_valid dt : Datetime.valid dt → Datetime.valid (Calendar.start_of_day dt).
Proof. unfold Datetime.valid, Calendar.start_of_day. cbn. lia. Qed.

Lemma end_of_day_valid dt : Datetime.valid dt → Datetime.valid (Calendar.end_of_day dt).
Proof. unfold Datetime.valid, Calendar.end_of_day. cbn. lia. Qed.

(** The table of named ranges exists for every instant of the years 1001 to
    9998, and its entries are the days the names say. *)
Lemma common_ranges_spec now :
  Datetime.valid now → 1001 ≤ year now ≤ 9998 →
  ∃ tomorrow yesterday week_start week_end next_week_start next_week_end,
    common_ranges now
    = Some
        [("today", (Calendar.start_of_day now, Calendar.end_of_day now));
         ("tomorrow", (Calendar.start_of_day tomorrow, Calendar.end_of_day tomorrow));
         ("yesterday", (Calendar.start_of_day yesterday, Calendar.end_of_day yesterday));
         ("this week", (Calendar.start_of_day week_start, Calendar.end_of_day week_end));
         ("next week",
          (Calendar.start_of_day next_week_start, Calendar.end_of_day next_week_end));
         ("this month",
          (DateTime (year now) (month now) 1 0 0 0,
           DateTime (year now) (month now)
             (Calendar.monthrange_days (year now) (month now)) 23 59 59))]
    ∧ days_after now 1 tomorrow ∧ days_after now (-1) yesterday
    ∧ days_after now (- Datetime.weekday now) week_start
    ∧ days_after now (6 - Datetime.weekday now) week_end
    ∧ days_after now (7 - Datetime.weekday now) next_week_start
    ∧ days_after now (13 - Datetime.weekday now) next_week_end.
Proof.
  intros Hv Hyear. pose proof (weekday_range now) as Hw. unfold common_ranges.
  destruct (add_days_spec now 1 Hv Hyear ltac:(lia)) as (d1 & -> & H1 & _).
  destruct (add_days_spec now (-1) Hv Hyear ltac:(lia)) as (d2 & -> & H2 & _).
  destruct (add_days_spec now (- Datetime.weekday now) Hv Hyear ltac:(lia))
    as (d3 & -> & H3 & _).
  destruct (add_days_spec now (6 - Datetime.weekday now) Hv Hyear ltac:(lia))
    as (d4 & -> & H4 & _).
  destruct (add_days_spec now (7 - Datetime.weekday now) Hv Hyear ltac:(lia))
    as (d5 & -> & H5 & _).
  destruct (add_days_spec now (13 - Datetime.weekday now) Hv Hyear ltac:(lia))
    as (d6 & -> & H6 & _).
  cbn. by eexists d1, d2, d3, d4, d5, d6.
Qed.

Lemma days_after_zero now : Datetime.valid now → days_after now 0 now.
Proof. intros Hv. split; [done|lia]. Qed.

Lemma monthrange_days_in_month y m :
  1 ≤ m ≤ 12 → Calendar.monthrange_days y m = Datetime.days_in_month y m.
Proof.
  intros Hm. unfold Calendar.monthrange_days, Datetime.days_in_month.
  assert (m = 1 ∨ m = 2 ∨ m = 3 ∨ m = 4 ∨ m = 5 ∨ m = 6
          ∨ m = 7 ∨ m = 8 ∨ m = 9 ∨ m = 10 ∨ m = 11 ∨ m = 12) as Hcases by lia.
  decompose [or] Hcases; subst m; simpl; by destruct (Datetime.is_leap y).
Qed.

(** X21. For an instant of the years 1001 to 9998, [parse_date_range] of
    "today", "tomorrow" or "yesterday", in any letter case and with blanks
    around, is the pair of timestamps 00:00:00 and 23:59:59 of the day 0, 1
    or -1 days from the current one. *)
Theorem parse_date_range_days parse gemini json_loads now text name offset :
  Datetime.valid now → 1001 ≤ year now ≤ 9998 →
  (name, offset) ∈ [("today", 0); ("tomorrow", 1); ("yesterday", -1)] →
  Py.strip (PyStr.lower text) = name →
  ∃ dt, days_after now offset dt
        ∧ parse_date_range parse gemini json_loads now text
          = Some (Some (Datetime.strftime_iso (Calendar.start_of_day dt)),
                  Some (Datetime.strftime_iso (Calendar.end_of_day dt))).
Proof.
  intros Hv Hyear Hname Htext.
  destruct (common_ranges_spec now Hv Hyear)
    as (d1 & d2 & d3 & d4 & d5 & d6 & Htable & H1 & H2 & _).
  unfold parse_date_range. rewrite Htable, Htext. cbn [mbind option_bind].
  rewrite !elem_of_cons, elem_of_nil in Hname.
  destruct Hname as [[= -> ->]|[[= -> ->]|[[= -> ->]|[]]]]; cbn.
  - exists now. split; [by apply days_after_zero|done].
  - by exists d1.
  - by exists d2.
Qed.

Lemma parse_date_range_days_witness :
  ∃ dt, days_after (DateTime 2024 2 29 12 34 56) 1 dt
        ∧ parse_date_range parse_iso None (λ _, JsonDecodeError)
            (DateTime 2024 2 29 12 34 56) "  Tomorrow "
          = Some (Some (Datetime.strftime_iso (Calendar.start_of_day dt)),
                  Some (Datetime.strftime_iso (Calendar.end_of_day dt))).
Proof.
  apply (parse_date_range_days parse_iso None (λ _, JsonDecodeError)
           (DateTime 2024 2 29 12 34 56) "  Tomorrow " "tomorrow" 1).
  - apply validb_true_valid; [reflexivity|cbn; lia].
  - cbn. lia.
  - apply list_elem_of_further, list_elem_of_here.
  - reflexivity.
Defined.

(** X22. For an instant of the years 1001 to 9998, "this week" is the
    range from 00:00:00 of the Monday to 23:59:59 of the Sunday of the week
    that holds the current day; "next week" is the same for the seven days
    that follow that Sunday; "this month" runs from the first to the last day
    of the current month. *)
Theorem parse_date_range_weeks_month parse gemini json_loads now text :
  Datetime.valid now → 1001 ≤ year now ≤ 9998 →
  (Py.strip (PyStr.lower text) = "this week" →
   ∃ monday sunday,
     parse_date_range parse gemini json_loads now text
     = Some (Some (Datetime.strftime_iso (Calendar.start_of_day monday)),
             Some (Datetime.strftime_iso (Calendar.end_of_day sunday)))
     ∧ Datetime.valid monday ∧ Datetime.valid sunday
     ∧ Datetime.weekday monday = 0 ∧ Datetime.weekday sunday = 6
     ∧ Datetime.toordinal sunday = Datetime.toordinal monday + 6
     ∧ Datetime.toordinal monday ≤ Datetime.toordinal now ≤ Datetime.toordinal sunday)
  ∧ (Py.strip (PyStr.lower text) = "next week" →
     ∃ monday sunday,
       parse_date_range parse gemini json_loads now text
       = Some (Some (Datetime.strftime_iso (Calendar.start_of_day monday)),
               Some (Datetime.strftime_iso (Calendar.end_of_day sunday)))
       ∧ Datetime.valid monday ∧ Datetime.valid sunday
       ∧ Datetime.weekday monday = 0 ∧ Datetime.weekday sunday = 6
       ∧ Datetime.toordinal sunday = Datetime.toordinal monday + 6
       ∧ Datetime.toordinal now < Datetime.toordinal monday ≤ Datetime.toordinal now + 7)
  ∧ (Py.strip (PyStr.lower text) = "this month" →
     parse_date_range parse gemini json_loads now text
     = Some (Some (Datetime.strftime_iso (DateTime (year now) (month now) 1 0 0 0)),
             Some (Datetime.strftime_iso
                     (DateTime (year now) (month now)
                        (Datetime.days_in_month (year now) (month now)) 23 59 59)))).
Proof.
  intros Hv Hyear. pose proof (weekday_range now) as Hw.
  destruct (common_ranges_spec now Hv Hyear)
    as (d1 & d2 & d3 & d4 & d5 & d6 & Htable & _ & _ & H3 & H4 & H5 & H6).
  pose proof (weekday_days_after _ _ _ H3) as Hw3.
  pose proof (weekday_days_after _ _ _ H4) as Hw4.
  pose proof (weekday_days_after _ _ _ H5) as Hw5.
  pose proof (weekday_days_after _ _ _ H6) as Hw6.
  destruct H3 as [Hv3 Ho3], H4 as [Hv4 Ho4], H5 as [Hv5 Ho5], H6 as [Hv6 Ho6].
  unfold parse_date_range. rewrite Htable. cbn [mbind option_bind].
  split; [|split].
  - intros ->. cbn. exists d3, d4. split; [done|]. split; [done|]. split; [done|].
    split; [rewrite Hw3; Z.div_mod_to_equations; lia|].
    split; [rewrite Hw4; Z.div_mod_to_equations; lia|]. lia.
  - intros ->. cbn. exists d5, d6. split; [done|]. split; [done|]. split; [done|].
    split; [rewrite Hw5; Z.div_mod_to_equations; lia|].
    split; [rewrite Hw6; Z.div_mod_to_equations; lia|]. lia.
  - intros ->. cbn. rewrite monthrange_days_in_month; [done|]. by destruct Hv as (_ & ? & _).
Qed.

Lemma parse_date_range_weeks_month_witness :
  parse_date_range parse_iso None (λ _, JsonDecodeError) (DateTime 2024 2 8 12 34 56)
    "This Month"
  = Some (Some "2024-02-01 00:00:00", Some "2024-02-29 23:59:59")
  ∧ ∃ monday sunday,
      parse_date_range parse_iso None (λ _, JsonDecodeError) (DateTime 2024 2 8 12 34 56)
        "this week"
      = Some (Some (Datetime.strftime_iso (Calendar.start_of_day monday)),
              Some (Datetime.strftime_iso (Calendar.end_of_day sunday)))
      ∧ Datetime.weekday monday = 0 ∧ Datetime.weekday sunday = 6.
Proof.
  assert (Datetime.valid (DateTime 2024 2 8 12 34 56)) as Hv
    by (apply validb_true_valid; [reflexivity|cbn; lia]).
  assert (1001 ≤ year (DateTime 2024 2 8 12 34 56) ≤ 9998) as Hyear by (cbn; lia).
  split.
  - apply (proj2 (proj2 (parse_date_range_weeks_month parse_iso None (λ _, JsonDecodeError)
                           (DateTime 2024 2 8 12 34 56) "This Month" Hv Hyear))).
    reflexivity.
  - destruct (proj1 (parse_date_range_weeks_month parse_iso None (λ _, JsonDecodeError)
                       (DateTime 2024 2 8 12 34 56) "this week" Hv Hyear) eq_refl)
      as (monday & sunday & Hrun & _ & _ & Hmon & Hsun & _).
    by exists monday, sunday.
Defined.

(** * Listing the tasks of a named range *)

Lemma due_range_listing now range s t :
  t ∈ list_tasks now false None (Some range) None None false false s
  ↔ t ∈ list_tasks now false None None None None false false s
    ∧ due_between range t = Some true.
Proof.
  unfold list_tasks. cbn [negb andb]. rewrite !elem_of_select, where_snoc. tauto.
Qed.

Lemma same_day_between now dt :
  Datetime.valid now → Datetime.valid dt →
  Datetime.compare (Calendar.start_of_day now) dt ≠ Gt
  ∧ Datetime.compare dt (Calendar.end_of_day now) ≠ Gt
  ↔ year dt = year now ∧ month dt = month now ∧ day dt = day now.
Proof.
  intros (_ & _ & _ & Hh & Hmi & Hs) (_ & _ & _ & Hh' & Hmi' & Hs').
  unfold Datetime.compare, Calendar.start_of_day, Calendar.end_of_day, lex.
  cbn [year month day hour minute second].
  rewrite (Z.compare_antisym (year now) (year dt)), (Z.compare_antisym (month now) (month dt)),
    (Z.compare_antisym (day now) (day dt)).
  destruct (Z.compare_spec (year now) (year dt)) as [Ey| |]; cbn [CompOpp];
    [|split; [intros [? ?]; done|lia]..].
  destruct (Z.compare_spec (month now) (month dt)) as [Em| |]; cbn [CompOpp];
    [|split; [intros [? ?]; done|lia]..].
  destruct (Z.compare_spec (day now) (day dt)) as [Ed| |]; cbn [CompOpp];
    [|split; [intros [? ?]; done|lia]..].
  split; [done|]. intros _.
  destruct (Z.compare_spec 0 (hour dt)), (Z.compare_spec 0 (minute dt)),
    (Z.compare_spec 0 (second dt)), (Z.compare_spec (hour dt) 23),
    (Z.compare_spec (minute dt) 59), (Z.compare_spec (second dt) 59);
    (split; [done || lia|done || lia]).
Qed.

(** X23. Listing with the range [parse_date_range] returns for "today":
    of the tasks the default listing shows, those whose due timestamp is in
    the canonical layout are shown exactly when their due date is the current
    day, at whatever time of day. *)
Theorem list_tasks_due_today parse gemini json_loads now s t dt :
  Datetime.valid now → 1001 ≤ year now ≤ 9998 →
  Datetime.valid dt → due_date_time (columns t) = Some (Datetime.strftime_iso dt) →
  ∃ range,
    parse_date_range parse gemini json_loads now "today" = Some range
    ∧ (t ∈ list_tasks now false None (Some range) None None false false s
       ↔ t ∈ list_tasks now false None None None None false false s
         ∧ year dt = year now ∧ month dt = month now ∧ day dt = day now).
Proof.
  intros Hnow Hyear Hdt Hdue.
  destruct (common_ranges_spec now Hnow Hyear) as (d1 & d2 & d3 & d4 & d5 & d6 & Htable & _).
  eexists. split.
  { unfold parse_date_range. rewrite Htable. cbn. reflexivity. }
  rewrite due_range_listing. apply and_iff_compat_l.
  rewrite <- (same_day_between now dt Hnow Hdt).
  unfold due_between. cbn [fst snd]. rewrite Hdue, sql_between_true.
  rewrite <- !strftime_iso_compare, <- !string_leb_compare
    by auto using start_of_day_valid, end_of_day_valid.
  split.
  - intros (a & d & b & [= <-] & [= <-] & [= <-] & Hlo & Hhi). done.
  - intros [Hlo Hhi]. eauto 10.
Qed.

Lemma list_tasks_due_today_witness :
  ∃ range,
    parse_date_range parse_iso None (λ _, JsonDecodeError) (DateTime 2024 2 1 8 0 0) "today"
    = Some range
    ∧ task_id <$> list_tasks (DateTime 2024 2 1 8 0 0) false None (Some range) None None
                    false false small_store = [1].
Proof.
  destruct (list_tasks_due_today parse_iso None (λ _, JsonDecodeError)
              (DateTime 2024 2 1 8 0 0) small_store
              (left_join small_store
                 (1, TaskRow "write report" (Some "high") (Some "2024-02-01 23:59:59")
                       (Some 1) None created false))
              (DateTime 2024 2 1 23 59 59))
    as (range & Hrange & _).
  - apply validb_true_valid; [reflexivity|cbn; lia].
  - cbn. lia.
  - apply validb_true_valid; [reflexivity|cbn; lia].
  - reflexivity.
  - exists range. split; [exact Hrange|].
    vm_compute in Hrange. injection Hrange as <-. vm_compute. reflexivity.
Defined.

(** * Ranges that are not named *)

Lemma lookup_range_unnamed {A} name (r1 r2 r3 r4 r5 r6 : A) :
  name ∉ range_names →
  lookup_range name
    [("today", r1); ("tomorrow", r2); ("yesterday", r3); ("this week", r4);
     ("next week", r5); ("this month", r6)] = None.
Proof.
  intros Hname. unfold range_names in Hname. cbn.
  repeat match goal with
         | |- context [String.eqb name ?k] =>
             destruct (String.eqb_spec name k) as [Hk|_];
             [exfalso; apply Hname; rewrite Hk;
              repeat first [apply list_elem_of_here | apply list_elem_of_further]|]
         end.
  done.
Qed.

(** X24. An ASCII text that, lowered and stripped, is none of the six
    names is handed to Gemini in that form, and for an instant of the years
    1001 to 9998 nothing is raised: without a client, or when the call fails,
    or when the answer is JSON but not an object, both bounds are absent; when
    the answer is a JSON object, its two fields are returned as they are,
    absent when missing or null. *)
Theorem parse_date_range_unnamed parse gemini json_loads now text :
  Datetime.valid now → 1001 ≤ year now ≤ 9998 →
  PyStr.is_ascii text = true →
  Py.strip (PyStr.lower text) ∉ range_names →
  let asked := range_prompt (Py.strip (PyStr.lower text)) in
  let result := parse_date_range parse gemini json_loads now text in
  is_Some result
  ∧ (gemini = None → result = Some (None, None))
  ∧ (∀ generate_content, gemini = Some generate_content →
       (generate_content asked = None → result = Some (None, None))
       ∧ (∀ response, generate_content asked = Some response →
            (json_loads response = JsonNotObject → result = Some (None, None))
            ∧ (∀ fields, json_loads response = JsonObject fields →
                 result = Some (fields !! "start_date" ≫= id,
                                fields !! "end_date" ≫= id)))).
Proof.
  intros Hv Hyear _ Hname asked result. subst asked result.
  destruct (common_ranges_spec now Hv Hyear) as (d1 & d2 & d3 & d4 & d5 & d6 & Htable & _).
  unfold parse_date_range. rewrite Htable. cbn [mbind option_bind].
  rewrite (lookup_range_unnamed _ _ _ _ _ _ _ Hname).
  split; [done|]. split; [by intros ->|].
  intros generate_content ->. split; [by intros ->|].
  intros response ->. split; [by intros ->|]. by intros fields ->.
Qed.

Lemma parse_date_range_unnamed_witness :
  parse_date_range parse_iso (Some (λ _, Some "[]"))
    (λ _, JsonNotObject) (DateTime 2024 2 8 12 34 56) " Next Month " = Some (None, None).
Proof.
  assert (Datetime.valid (DateTime 2024 2 8 12 34 56)) as Hv
    by (apply validb_true_valid; [reflexivity|cbn; lia]).
  assert (1001 ≤ year (DateTime 2024 2 8 12 34 56) ≤ 9998) as Hyear by (cbn; lia).
  assert (Py.strip (PyStr.lower " Next Month ") ∉ range_names) as Hname.
  { vm_compute. intros Hin. repeat (apply elem_of_cons in Hin as [[=]|Hin]).
    by apply elem_of_nil in Hin. }
  destruct (parse_date_range_unnamed parse_iso (Some (λ _, Some "[]"))
              (λ _, JsonNotObject) (DateTime 2024 2 8 12 34 56) " Next Month "
              Hv Hyear eq_refl Hname) as (_ & _ & Hclient).
  destruct (Hclient _ eq_refl) as [_ Hanswer].
  exact (proj1 (Hanswer "[]" eq_refl) eq_refl).
Defined.

Lemma scan_bound_canonical parse key line bound bound' :
  (∀ fuzzy t dt, parse fuzzy t = Some dt → Datetime.valid dt) →
  canonical_bound bound →
  scan_bound parse key line bound = Some bound' → canonical_bound bound'.
Proof.
  intros Hparse Hbound. unfold scan_bound.
  destruct (PyText.contains _ _); [|by intros [= <-]].
  destruct (PyText.after_first _ _) as [rest|]; [|by intros [= <-]].
  destruct (String.eqb _ _); [by intros [= <-]|].
  destruct (parse false _) as [dt|] eqn:Hdt; [|done].
  intros [= <-] text [= <-]. exists dt. split; [by eapply Hparse|done].
Qed.

Lemma scan_lines_canonical parse lines bounds start_date end_date :
  (∀ fuzzy t dt, parse fuzzy t = Some dt → Datetime.valid dt) →
  (∀ a b, bounds = Some (a, b) → canonical_bound a ∧ canonical_bound b) →
  foldl (scan_line parse) bounds lines = Some (start_date, end_date) →
  canonical_bound start_date ∧ canonical_bound end_date.
Proof.
  intros Hparse. revert bounds. induction lines as [|line lines IH]; intros bounds Hbounds.
  - cbn. apply Hbounds.
  - cbn. apply IH. intros a b. unfold scan_line.
    destruct bounds as [[a0 b0]|]; [|done]. cbn.
    destruct (Hbounds _ _ eq_refl) as [Ha0 Hb0].
    destruct (scan_bound parse "start_date" line a0) as [a1|] eqn:Ha1; [|done]. cbn.
    destruct (scan_bound parse "end_date" line b0) as [b1|] eqn:Hb1; [|done]. cbn.
    intros [= <- <-]. split.
    + exact (scan_bound_canonical _ _ _ _ _ Hparse Ha0 Ha1).
    + exact (scan_bound_canonical _ _ _ _ _ Hparse Hb0 Hb1).
Qed.

(** X25. When the parser returns dates a [datetime] can hold with a
    four-digit year and Gemini's answer is not a JSON object, every bound
    [parse_date_range] returns, for a named range or picked out of the lines
    of the answer, is a timestamp in the canonical layout that [strptime]
    reads back as a valid date. *)
Theorem parse_date_range_canonical parse gemini json_loads now text start_date end_date :
  (∀ fuzzy t dt, parse fuzzy t = Some dt → Datetime.valid dt) →
  (∀ response fields, json_loads response ≠ JsonObject fields) →
  Datetime.valid now → 1001 ≤ year now ≤ 9998 →
  parse_date_range parse gemini json_loads now text = Some (start_date, end_date) →
  ∀ bound, start_date = Some bound ∨ end_date = Some bound →
    ∃ dt, Datetime.valid dt
          ∧ bound = Datetime.strftime_iso dt
          ∧ Datetime.strptime_iso bound = Some dt.
Proof.
  intros Hparse Hjson Hv Hyear Hrun.
  assert (canonical_bound start_date ∧ canonical_bound end_date) as [Hstart Hend].
  { destruct (common_ranges_spec now Hv Hyear)
      as (d1 & d2 & d3 & d4 & d5 & d6 & Htable & [H1 _] & [H2 _] & [H3 _] & [H4 _]
          & [H5 _] & [H6 _]).
    assert (Datetime.valid (DateTime (year now) (month now) 1 0 0 0)) as Hfirst.
    { destruct Hv as (? & ? & ? & _). pose proof (days_in_month_bounds (year now) (month now)).
      unfold Datetime.valid. cbn. lia. }
    assert (Datetime.valid (DateTime (year now) (month now)
                              (Calendar.monthrange_days (year now) (month now)) 23 59 59))
      as Hlast.
    { destruct Hv as (? & ? & ? & _). pose proof (days_in_month_bounds (year now) (month now)).
      rewrite monthrange_days_in_month by done. unfold Datetime.valid. cbn. lia. }
    unfold parse_date_range in Hrun. rewrite Htable in Hrun. cbn [mbind option_bind] in Hrun.
    assert (∀ lo hi : datetime, Datetime.valid lo → Datetime.valid hi →
              Some (Some (Datetime.strftime_iso lo), Some (Datetime.strftime_iso hi))
              = Some (start_date, end_date) →
              canonical_bound start_date ∧ canonical_bound end_date) as Hnamed.
    { intros lo hi Hlo Hhi [= <- <-]. split; intros ? [= <-]; [by exists lo|by exists hi]. }
    assert (canonical_bound None) as Hnone by done.
    cbn [lookup_range] in Hrun.
    repeat (destruct (String.eqb _ _);
            [by eapply Hnamed; [| |exact Hrun];
               auto using start_of_day_valid, end_of_day_valid|]).
    injection Hrun as Hrun.
    destruct gemini as [generate_content|]; [|by injection Hrun as <- <-].
    destruct (generate_content _) as [response|]; [|by injection Hrun as <- <-].
    destruct (json_loads response) as [| |fields] eqn:Hloads;
      [|by injection Hrun as <- <-|by destruct (Hjson response fields)].
    destruct (foldl _ _ _) as [[a b]|] eqn:Hscan; cbn in Hrun;
      [|by injection Hrun as <- <-].
    injection Hrun as <- <-.
    eapply scan_lines_canonical; [done| |exact Hscan]. by intros ? ? [= <- <-]. }
  intros bound [Hbound|Hbound];
    [destruct (Hstart _ Hbound) as (dt & Hdt & ->)|destruct (Hend _ Hbound) as (dt & Hdt & ->)];
    exists dt; (split; [done|]); (split; [done|]); by apply strptime_strftime_iso.
Qed.

Lemma parse_date_range_canonical_witness :
  ∃ dt, Datetime.valid dt
        ∧ "2024-03-01 09:30:00" = Datetime.strftime_iso dt
        ∧ Datetime.strptime_iso "2024-03-01 09:30:00" = Some dt.
Proof.
  apply (parse_date_range_canonical
           (λ fuzzy t, if String.eqb t "2024-03-01 09:30:00"
                       then Some (DateTime 2024 3 1 9 30 0) else None)
           (Some (λ _, Some "start_date: '2024-03-01 09:30:00'"))
           (λ _, JsonDecodeError) (DateTime 2024 2 8 12 34 56) "from march"
           (Some "2024-03-01 09:30:00") None).
  - intros fuzzy t dt. destruct (String.eqb t "2024-03-01 09:30:00"); [|done].
    intros [= <-]. apply validb_true_valid; [reflexivity|cbn; lia].
  - done.
  - apply validb_true_valid; [reflexivity|cbn; lia].
  - cbn. lia.
  - vm_compute. reflexivity.
  - by left.
Defined.

(** * The command line *)

Lemma get_api_key_repaired environ file :
  (get_api_key environ (load_config file).1).2 = (get_api_key environ file).2.
Proof. by destruct environ as [[|c k]|], file. Qed.

Lemma gemini_client_repaired configure generate environ file :
  gemini_client configure generate environ (load_config file).1
  = gemini_client configure generate environ file.
Proof. by destruct environ as [[|c k]|], file. Qed.

Lemma validate_priority_accepts value accepted :
  Cli.validate_priority value = Some accepted →
  match value with
  | Some (String _ _ as v) =>
      accepted = Some (PyStr.lower v) ∧ PyStr.lower v ∈ ["high"; "medium"; "low"]
  | _ => accepted = None
  end.
Proof.
  unfold Cli.validate_priority. destruct value as [[|c v]|]; try by intros [= <-].
  case_bool_decide; [|done]. by intros [= <-].
Qed.

Lemma lower_nonempty c v : ∃ c' v', PyStr.lower (String c v) = String c' v'.
Proof. by eexists _, _. Qed.

(** What [add] stores, once click has accepted the priority. *)
Lemma add_runs ts now environ configure generate parse text prio due
    context project w accepted :
  Cli.validate_priority prio = Some accepted →
  ∃ file lines s t table,
    Cli.add id ts now environ configure generate parse text prio due
      context project w
    = Some (Cli.Outcome (Cli.World file s) (lines ++ [table]) false)
    ∧ task_id t = next_rowid (tasks (Cli.db w))
    ∧ get_task (task_id t) s = Some t
    ∧ description (columns t) = text
    ∧ priority (columns t)
      = (if truthy accepted then accepted
         else Some (default "medium"
                      ((load_config (Cli.config_json w)).2 !! "priority_default")))
    ∧ due_date_time (columns t)
      = match due with
        | Some (String _ _ as asked) =>
            match (get_api_key environ (Cli.config_json w)).2 with
            | "" => None
            | _ =>
                extract_date_time parse
                  (gemini_client configure generate environ (Cli.config_json w)) (Some asked)
            end
        | _ => None
        end
    ∧ (∀ other, other ≠ task_id t →
         rows (tasks s) !! other = rows (tasks (Cli.db w)) !! other).
Proof.
  intros Hvalid. unfold Cli.add. rewrite Hvalid. cbn [mbind option_bind].
  set (stage :=
         if truthy accepted then (Cli.config_json w, accepted)
         else get_config_value "priority_default" (Some "medium") (Cli.config_json w)).
  assert (stage.2
          = (if truthy accepted then accepted
             else Some (default "medium"
                          ((load_config (Cli.config_json w)).2 !! "priority_default")))
          ∧ (stage.1 = Cli.config_json w ∨ stage.1 = (load_config (Cli.config_json w)).1))
    as [Hp Hfile].
  { subst stage. destruct (truthy accepted); [by split; [|left]|].
    unfold get_config_value. destruct (load_config (Cli.config_json w)) as [f config].
    cbn. split; [by destruct (config !! "priority_default")|by right]. }
  destruct stage as [file1 p]. cbn [fst snd] in Hp, Hfile.
  assert ((get_api_key environ file1).2 = (get_api_key environ (Cli.config_json w)).2) as Hkey.
  { destruct Hfile as [->| ->]; [done|apply get_api_key_repaired]. }
  assert (gemini_client configure generate environ (get_api_key environ file1).1
          = gemini_client configure generate environ (Cli.config_json w)) as Hclient.
  { destruct Hfile as [->| ->]; by destruct environ as [[|c k]|], (Cli.config_json w). }
  set (option := Cli.due_option environ configure generate parse "No due date set." due file1).
  assert (option.2
          = match due with
            | Some (String _ _ as asked) =>
                match (get_api_key environ (Cli.config_json w)).2 with
                | "" => None
                | _ =>
                    extract_date_time parse
                      (gemini_client configure generate environ (Cli.config_json w))
                      (Some asked)
                end
            | _ => None
            end) as Hdue.
  { subst option. unfold Cli.due_option. destruct due as [[|c asked]|]; [done| |done].
    unfold Cli.check_gemini_api_key. rewrite <- Hkey, <- Hclient.
    destruct (get_api_key environ file1) as [file2 [|k key]]; [done|].
    cbn [fst snd]. unfold Cli.resolve_due. done. }
  destruct option as [[file3 lines] d]. cbn [snd] in Hdue.
  destruct (add_task_new_id ts text p d context project (Cli.db w))
    as (s & t & Hrun & Hid & Hget & Hcols & Hrest).
  rewrite Hrun. unfold Cli.print_tasks, Cli.format_table_output.
  assert (is_Some (priority (columns t))) as [stored Hstored].
  { rewrite Hcols. cbn. rewrite Hp. destruct (truthy accepted) eqn:Htruthy; [|done].
    by destruct accepted. }
  cbn [mapM]. rewrite Hstored. cbn.
  eexists file3, _, s, t, _. split; [done|]. split; [done|]. split; [done|].
  split; [by rewrite Hcols|]. split; [by rewrite Hcols|]. split; [by rewrite Hcols|done].
Qed.





Lemma edit_task_stored edited d p due cn pn s t :
  get_task edited s = Some t →
  is_Some d ∨ is_Some p ∨ is_Some due ∨ is_Some cn ∨ is_Some pn →
  ∃ s' r',
    edit_task id edited d p due cn pn s
    = (s', Success (Some (left_join s' (edited, r'))))
    ∧ get_task edited s' = Some (left_join s' (edited, r'))
    ∧ description r' = default (description (columns t)) d
    ∧ priority r' = match p with Some _ => p | None => priority (columns t) end
    ∧ due_date_time r'
      = match due with Some _ => due | None => due_date_time (columns t) end
    ∧ (cn = None → context_id r' = context_id (columns t))
    ∧ (cn = Some "" → context_id r' = None)
    ∧ (pn = None → project_id r' = project_id (columns t))
    ∧ (pn = Some "" → project_id r' = None)
    ∧ completed r' = completed (columns t)
    ∧ (∀ j, j ≠ edited → rows (tasks s') !! j = rows (tasks s) !! j).
Proof.
  intros Hget Hsupplied.
  pose proof (edit_task_succeeds edited d p due cn pn s (mk_is_Some _ _ Hget) Hsupplied) as Hok.
  destruct (edit_task id edited d p due cn pn s) as [s' [payload|e]] eqn:Hrun; [|done].
  destruct (edit_task_effect _ _ _ _ _ _ _ _ _ Hrun) as (_ & Hsucc & Hrest).
  destruct (Hsucc payload eq_refl)
    as (-> & r & r' & Hr & Hr' & Hd & Hp & Hdue & Hc & Hc' & Hpr & Hpr' & _ & Hdone).
  apply get_task_Some in Hget as (r0 & Hr0 & ->). rewrite Hr in Hr0. injection Hr0 as <-.
  assert (get_task edited s' = Some (left_join s' (edited, r'))) as Hget'
    by (unfold get_task; by rewrite Hr').
  exists s', r'. rewrite Hget'. cbn [columns left_join snd]. by repeat split.
Qed.

(** X28. On a stored task, the command [edit] given nothing but empty
    texts, among them an empty --context, changes nothing and says so; an
    empty --project alone does count as a change and takes the task out of
    its project; and an empty --context takes the task out of its context
    once another option, here a priority, comes with it. *)
Theorem edit_command_empty_names now environ configure generate parse edited w t :
  get_task edited (Cli.db w) = Some t →
  (∀ text prio due context,
     truthy text = false → truthy prio = false → truthy due = false →
     truthy context = false →
     ∃ out,
       Cli.edit id now environ configure generate parse edited text prio due context None w
       = Some out
       ∧ Cli.after out = w
       ∧ head (Cli.console out)
         = Some (Cli.Text "[yellow]No changes specified. Task remains unchanged.[/yellow]"))
  ∧ (∃ out t',
       Cli.edit id now environ configure generate parse edited None None None None
         (Some "") w = Some out
       ∧ get_task edited (Cli.db (Cli.after out)) = Some t'
       ∧ project_id (columns t') = None ∧ project_name t' = None
       ∧ context_id (columns t') = context_id (columns t)
       ∧ priority (columns t') = priority (columns t))
  ∧ (∀ p, p ∈ ["high"; "medium"; "low"] →
       ∃ out t',
         Cli.edit id now environ configure generate parse edited None (Some p) None
           (Some "") None w = Some out
         ∧ get_task edited (Cli.db (Cli.after out)) = Some t'
         ∧ context_id (columns t') = None ∧ context_name t' = None
         ∧ priority (columns t') = Some p
         ∧ project_id (columns t') = project_id (columns t)).
Proof.
  intros Hget.
  assert (binds edited (tasks (Cli.db w)) = true) as Hbinds.
  { apply get_task_Some in Hget as (r & Hr & _). by eapply binds_stored. }
  split; [|split].
  - intros text prio due context Htext Hprio Hdue Hcontext. unfold Cli.edit.
    assert (Cli.validate_priority prio = Some None) as -> by by destruct prio as [[|c v]|].
    cbn [mbind option_bind]. rewrite Hbinds. cbn [negb].
    rewrite Hget, Htext, Hdue, Hcontext. cbn [truthy orb].
    rewrite bool_decide_false by (by intros H; apply H).
    unfold Cli.print_tasks. destruct (Cli.format_table_output now [t] true); by eexists.
  - destruct (edit_task_stored edited None None None None (Some "") (Cli.db w) t Hget)
      as (s' & r' & Hrun & Hget' & _ & Hp & _ & Hc & _ & _ & Hpr & _);
      [by do 4 right|].
    unfold Cli.edit. cbn [Cli.validate_priority mbind option_bind].
    rewrite Hbinds. cbn [negb]. rewrite Hget.
    cbn [truthy orb Cli.due_option]. rewrite bool_decide_true by done. rewrite Hrun.
    unfold Cli.print_tasks.
    assert (project_name (left_join s' (edited, r')) = None) as Hname
      by (cbn; by rewrite (Hpr eq_refl)).
    destruct (Cli.format_table_output now [left_join s' (edited, r')] true);
      eexists _, _; (split; [done|]); cbn [Cli.after Cli.db];
      (split; [exact Hget'|]); cbn [columns left_join snd]; rewrite Hname;
      by rewrite (Hpr eq_refl), (Hc eq_refl), Hp.
  - intros p Hin.
    destruct (edit_task_stored edited None (Some p) None (Some "") None (Cli.db w) t Hget)
      as (s' & r' & Hrun & Hget' & _ & Hp & _ & _ & Hc & Hpr & _);
      [right; by left|].
    assert (Cli.validate_priority (Some p) = Some (Some p) ∧ truthy (Some p) = true)
      as [Hvalid Htruthy].
    { rewrite !elem_of_cons, elem_of_nil in Hin. by destruct Hin as [->|[->|[->|[]]]]. }
    unfold Cli.edit. rewrite Hvalid. cbn [mbind option_bind].
    rewrite Hbinds. cbn [negb]. rewrite Hget, Htruthy.
    cbn [truthy orb Cli.due_option]. rewrite Hrun. unfold Cli.print_tasks.
    assert (context_name (left_join s' (edited, r')) = None) as Hname
      by (cbn; by rewrite (Hc eq_refl)).
    destruct (Cli.format_table_output now [left_join s' (edited, r')] true);
      eexists _, _; (split; [done|]); cbn [Cli.after Cli.db];
      (split; [exact Hget'|]); cbn [columns left_join snd]; rewrite Hname;
      by rewrite (Hc eq_refl), (Hpr eq_refl), Hp.
Qed.

Lemma edit_command_empty_names_witness :
  (∃ out,
     Cli.edit id (DateTime 2024 2 1 8 0 0) None (λ _, true) (λ _, None) parse_iso 1
       None None None (Some "") None (Cli.World Missing small_store) = Some out
     ∧ Cli.after out = Cli.World Missing small_store)
  ∧ ∃ out t',
      Cli.edit id (DateTime 2024 2 1 8 0 0) None (λ _, true) (λ _, None) parse_iso 1
        None (Some "low") None (Some "") None (Cli.World Missing small_store) = Some out
      ∧ get_task 1 (Cli.db (Cli.after out)) = Some t'
      ∧ context_name t' = None.
Proof.
  assert (get_task 1 (Cli.db (Cli.World Missing small_store))
          = Some (left_join small_store
                    (1, TaskRow "write report" (Some "high") (Some "2024-02-01 23:59:59")
                          (Some 1) None created false))) as Hget by reflexivity.
  pose proof (edit_command_empty_names (DateTime 2024 2 1 8 0 0) None (λ _, true)
                (λ _, None) parse_iso 1 (Cli.World Missing small_store) _ Hget)
    as (Hnone & _ & Hclear).
  split.
  - destruct (Hnone None None None (Some "") eq_refl eq_refl eq_refl eq_refl)
      as (out & Hrun & Hafter & _).
    by exists out.
  - destruct (Hclear "low") as (out & t' & Hrun & Hget' & _ & Hname & _).
    { apply list_elem_of_further, list_elem_of_further, list_elem_of_here. }
    by exists out, t'.
Defined.

Lemma gemini_client_checked configure generate environ file :
  gemini_client configure generate environ (get_api_key environ file).1
  = gemini_client configure generate environ file.
Proof. by destruct environ as [[|c k]|], file. Qed.

Lemma list_tasks_open_range now all_tasks prio context project overdue completed_only s :
  list_tasks now all_tasks prio (Some (None, None)) context project overdue completed_only s
  = [].
Proof.
  apply no_elements_nil. intros t Hin.
  apply list_tasks_filters in Hin as (_ & _ & _ & Hrange & _).
  by destruct (Hrange _ _ eq_refl) as (? & ? & ? & [=] & _).
Qed.



(** ** Priorities are never NULL *)

Lemma format_table_output_builds now tasks s :
  priorities_set s →
  (∀ t, t ∈ tasks → get_task (task_id t) s = Some t) →
  is_Some (Cli.format_table_output now tasks true).
Proof.
  intros Hset Hstored. unfold Cli.format_table_output.
  destruct tasks as [|t0 tasks]; [done|]. apply fmap_is_Some, mapM_is_Some.
  apply Forall_forall. intros t Hin.
  apply Hstored, get_task_Some in Hin as (r & Hr & ->).
  destruct (Hset _ _ Hr) as [p Hp]. cbn. by rewrite Hp.
Qed.

Lemma list_tasks_stored now all_tasks prio due_range context project overdue completed_only
    s t :
  t ∈ list_tasks now all_tasks prio due_range context project overdue completed_only s →
  get_task (task_id t) s = Some t.
Proof.
  intros Hin. apply list_tasks_filters in Hin as (_ & _ & _ & _ & _ & _ & Hrow).
  by apply get_task_Some.
Qed.

Lemma mark_task_done_priorities marked s :
  priorities_set s → priorities_set (mark_task_done marked s).1.
Proof.
  intros Hset.
  assert (priorities_set
            (with_tasks
               (Table
                  (alter (λ r, TaskRow (description r) (priority r) (due_date_time r)
                                 (context_id r) (project_id r) (created_at r) true)
                     marked (rows (tasks s))) (seq (tasks s))) s)) as Hdone.
  { intros i r. cbn. destruct (decide (i = marked)) as [->|Hne].
    - rewrite lookup_alter_eq. destruct (rows (tasks s) !! marked) as [r0|] eqn:Hr0; [|done].
      intros [= <-]. cbn. by eapply Hset.
    - rewrite lookup_alter_ne by done. apply Hset. }
  unfold mark_task_done.
  by destruct (binds marked (tasks s)), (rows (tasks s) !! marked).
Qed.

Lemma delete_task_priorities deleted s :
  priorities_set s → priorities_set (delete_task deleted s).1.
Proof.
  intros Hset.
  assert (priorities_set
            (with_tasks (Table (delete deleted (rows (tasks s))) (seq (tasks s))) s))
    as Hdeleted.
  { intros i r. cbn. intros [_ Hr]%lookup_delete_Some. by eapply Hset. }
  unfold delete_task.
  by destruct (binds deleted (tasks s)), (rows (tasks s) !! deleted).
Qed.

Lemma edit_task_priorities edited d p due cn pn s :
  priorities_set s → priorities_set (edit_task id edited d p due cn pn s).1.
Proof.
  intros Hset. destruct (edit_task id edited d p due cn pn s) as [s' res] eqn:Hrun.
  destruct (edit_task_effect _ _ _ _ _ _ _ _ _ Hrun) as (Hfail & Hsucc & Hrest).
  cbn [fst]. destruct res as [payload|e].
  - destruct (Hsucc payload eq_refl) as (_ & r & r' & Hr & Hr' & _ & Hp & _).
    intros i x Hx. destruct (decide (i = edited)) as [->|Hne].
    + rewrite Hr' in Hx. injection Hx as <-. rewrite Hp.
      destruct p; [done|by eapply Hset].
    + rewrite Hrest in Hx by done. by eapply Hset.
  - intros i x. rewrite (Hfail e eq_refl). apply Hset.
Qed.

(** X30. Through the commands a priority never becomes NULL. The
    configuration file is absent, unreadable or holds an object of strings,
    as everywhere in this model. [add], [edit], [done] and [delete], run
    without other processes on a database none of whose tasks has a NULL
    priority, leave such a database, whatever they are given and wherever
    they stop; [list] leaves the database as it is. On such a database
    [format_table_output] builds its table for every list of stored tasks,
    the result of any [list_tasks] among them: its call of [lower] never
    meets a None. *)
Theorem commands_keep_priorities ts now environ configure generate parse json_loads w :
  priorities_set (Cli.db w) →
  (∀ text prio due context project out,
     Cli.add id ts now environ configure generate parse text prio due context project w
     = Some out →
     priorities_set (Cli.db (Cli.after out)))
  ∧ (∀ edited text prio due context project out,
       Cli.edit id now environ configure generate parse edited text prio due context
         project w = Some out →
       priorities_set (Cli.db (Cli.after out)))
  ∧ (∀ marked, priorities_set (Cli.db (Cli.after (Cli.done now marked w))))
  ∧ (∀ deleted force confirm,
       priorities_set (Cli.db (Cli.after (Cli.delete now deleted force confirm w))))
  ∧ (∀ all prio due context project overdue completed_only out,
       Cli.list_ now environ configure generate parse json_loads all prio due context
         project overdue completed_only w = Some out →
       Cli.db (Cli.after out) = Cli.db w)
  ∧ (∀ tasks,
       (∀ t, t ∈ tasks → get_task (task_id t) (Cli.db w) = Some t) →
       is_Some (Cli.format_table_output now tasks true))
  ∧ (∀ all prio due_range context project overdue completed_only,
       is_Some
         (Cli.format_table_output now
            (list_tasks now all prio due_range context project overdue completed_only
               (Cli.db w)) true)).
Proof.
  intros Hset. destruct w as [file s]. cbn [Cli.db] in Hset.
  split; [|split; [|split; [|split; [|split; [|split]]]]].
  - intros text prio due context project out Hout.
    destruct (Cli.validate_priority prio) as [accepted|] eqn:Hvalid.
    2: { unfold Cli.add in Hout. by rewrite Hvalid in Hout. }
    destruct (add_runs ts now environ configure generate parse text prio due context
                project (Cli.World file s) accepted Hvalid)
      as (file' & lines & s' & t & table & Hrun & Hid & Hget & _ & Hp & _ & Hrest).
    rewrite Hrun in Hout. injection Hout as <-. cbn [Cli.after Cli.db] in *.
    apply get_task_Some in Hget as (r & Hr & Ht).
    intros i x Hx. destruct (decide (i = task_id t)) as [->|Hne].
    + rewrite Hr in Hx. injection Hx as <-.
      rewrite Ht in Hp. cbn [columns left_join snd] in Hp. rewrite Hp.
      destruct (truthy accepted) eqn:Htruthy; [by destruct accepted|done].
    + rewrite Hrest in Hx by done. by eapply Hset.
  - intros edited text prio due context project out Hout. unfold Cli.edit in Hout.
    destruct (Cli.validate_priority prio) as [accepted|]; [|done].
    cbn [mbind option_bind Cli.db] in Hout. injection Hout as <-.
    destruct (binds edited (tasks s)); cbn [negb]; [|done].
    destruct (get_task edited s) as [t|] eqn:Hget; [|done].
    destruct (_ || _).
    2: { unfold Cli.print_tasks. by destruct (Cli.format_table_output now [t] true). }
    destruct (Cli.due_option _ _ _ _ _ _ _) as [[file' lines] due_date_time].
    pose proof (edit_task_priorities edited text accepted
                  (if truthy due then due_date_time else None) context project s Hset)
      as Hset'.
    destruct (edit_task id edited text accepted _ context project s)
      as [s' [[updated|]|e]]; cbn [fst] in Hset'; try done.
    unfold Cli.print_tasks. by destruct (Cli.format_table_output now [updated] true).
  - intros marked. unfold Cli.done. cbn [Cli.db Cli.config_json].
    destruct (binds marked (tasks s)); cbn [negb]; [|done].
    destruct (get_task marked s) as [t|] eqn:Hget; [|done].
    destruct (completed (columns t)); [done|].
    pose proof (mark_task_done_priorities marked s Hset) as Hset'.
    destruct (mark_task_done marked s) as [s' [[]|e]]; cbn [fst] in Hset'; [|done].
    destruct (get_task marked s') as [t'|]; [|done].
    unfold Cli.print_tasks. by destruct (Cli.format_table_output now [t'] true).
  - intros deleted force confirm. unfold Cli.delete. cbn [Cli.db Cli.config_json].
    destruct (binds deleted (tasks s)); cbn [negb]; [|done].
    destruct (get_task deleted s) as [t|] eqn:Hget; [|done].
    destruct (Cli.format_table_output now [t] true); [|done].
    destruct (negb force && negb confirm); [done|].
    pose proof (delete_task_priorities deleted s Hset) as Hset'.
    destruct (delete_task deleted s) as [s' [payload|e]]; done.
  - intros all prio due context project overdue completed_only out Hout.
    unfold Cli.list_ in Hout.
    destruct (Cli.validate_priority prio) as [accepted|]; [|done].
    cbn [mbind option_bind Cli.db Cli.config_json] in Hout.
    assert (∀ file' lines tasks,
              Some
                match tasks with
                | [] =>
                    Cli.Outcome (Cli.World file' s)
                      (lines ++ [Cli.Text "No tasks found matching your criteria."]) false
                | _ :: _ =>
                    Cli.print_tasks now
                      (lines ++ [Cli.Text ("Found " +:+ pretty (Z.of_nat (length tasks))
                                           +:+ " tasks:")])
                      tasks (Cli.World file' s)
                end = Some out →
              Cli.db (Cli.after out) = s) as Hlisted.
    { intros file' lines tasks Hlist. unfold Cli.print_tasks in Hlist.
      destruct tasks as [|t tasks]; [by injection Hlist as <-|].
      destruct (Cli.format_table_output now (t :: tasks) true); by injection Hlist as <-. }
    destruct due as [[|c asked]|]; [by eapply Hlisted| |by eapply Hlisted].
    destruct (Cli.check_gemini_api_key environ file) as [[file' lines] [|]];
      [|by eapply Hlisted].
    destruct (parse_date_range _ _ _ _ _) as [range|]; [|by injection Hout as <-].
    destruct (common_ranges now ≫= _); by eapply Hlisted.
  - intros tasks Hstored. by eapply format_table_output_builds.
  - intros all prio due_range context project overdue completed_only.
    eapply format_table_output_builds; [done|]. intros t. apply list_tasks_stored.
Qed.

Lemma commands_keep_priorities_witness :
  priorities_set
    (Cli.db (Cli.after (Cli.done (DateTime 2024 2 1 8 0 0) 1
                          (Cli.World Missing ordering_example))))
  ∧ is_Some
      (Cli.format_table_output (DateTime 2024 2 1 8 0 0)
         (list_tasks (DateTime 2024 2 1 8 0 0) true None None None None false false
            ordering_example) true).
Proof.
  assert (priorities_set (Cli.db (Cli.World Missing ordering_example))) as Hset.
  { change (map_Forall (λ _ r, is_Some (priority r)) (rows (tasks ordering_example))).
    apply (bool_decide_unpack _). by vm_compute. }
  pose proof (commands_keep_priorities created (DateTime 2024 2 1 8 0 0) None (λ _, true)
                (λ _, None) parse_iso (λ _, JsonDecodeError)
                (Cli.World Missing ordering_example) Hset)
    as (_ & _ & Hdone & _ & _ & _ & Hlist).
  split; [apply Hdone|apply Hlist].
Defined.
